(** * decompress_dicom: a shallow embedding of [decompress_dicom.py]

    The script walks a directory, asks for every [.dcm] file whether its
    transfer syntax is a compressed one, and rewrites the compressed files
    with an uncompressed payload.  The three functions of the script
    ([is_compressed], [decompress_and_save_with_metadata] and
    [process_dicom_directory]) are embedded below in a small state and
    exception monad over a model of the file system; what [pydicom],
    [SimpleITK] and the operating system decide on their own is an
    interface ([Externals]) the development is parametric in. *)

From Stdlib Require Import ZArith NArith Ascii String List Bool Lia.
From stdpp Require Import base option list strings gmap.

(** ** Python strings *)

Module pystr.

(** [str.lower] on the ASCII letters.  The script lowers a path only to
    test for the suffix [".dcm"]; no character outside ASCII lowers to
    one of [.], [d], [c], [m], so the ASCII table is enough for that test. *)
Definition lower_ascii (c : ascii) : ascii :=
  let n := N_of_ascii c in
  if ((65 <=? n) && (n <=? 90))%N then ascii_of_N (n + 32) else c.

Fixpoint lower (s : string) : string :=
  match s with
  | EmptyString => EmptyString
  | String c s' => String (lower_ascii c) (lower s')
  end.

Definition startswith (s p : string) : bool := String.prefix p s.

(** [s.endswith(p)] *)
Definition endswith (s p : string) : bool :=
  let n := String.length s in
  let k := String.length p in
  (k <=? n)%nat && String.eqb (String.substring (n - k) k s) p.

(** [s.split(c)] for a one-character separator: never the empty list. *)
Fixpoint split (c : ascii) (s : string) : list string :=
  match s with
  | EmptyString => [EmptyString]
  | String a s' =>
      if Ascii.eqb a c then EmptyString :: split c s'
      else match split c s' with
           | h :: t => String a h :: t
           | [] => [String a EmptyString]
           end
  end.

(** [c.join(l)] *)
Definition join (c : string) (l : list string) : string := String.concat c l.

(** [s.lstrip(c)] for one character *)
Fixpoint lstrip (c : ascii) (s : string) : string :=
  match s with
  | String a s' => if Ascii.eqb a c then lstrip c s' else s
  | EmptyString => EmptyString
  end.

(** [s.rstrip(c)] for one character, on the reversed string *)
Definition rstrip (c : ascii) (s : string) : string :=
  String.rev (lstrip c (String.rev s)).

(** [s.rfind(c) + 1]: the length of the longest prefix ending in [c],
    0 when [c] does not occur. *)
Fixpoint rfind_succ (c : ascii) (s : string) : nat :=
  match s with
  | EmptyString => 0
  | String a s' =>
      match rfind_succ c s' with
      | O => if Ascii.eqb a c then 1 else 0
      | S k => S (S k)
      end
  end.

(** [s == c * len(s)] *)
Fixpoint all_char (c : ascii) (s : string) : bool :=
  match s with
  | EmptyString => true
  | String a s' => Ascii.eqb a c && all_char c s'
  end.

End pystr.

(** ** [posixpath]: the path functions the walker calls *)

Module posixpath.

Definition sep : ascii := "/"%char.

Definition isabs (p : string) : bool := pystr.startswith p "/".

(** [os.path.join(a, b)] *)
Definition join (a b : string) : string :=
  if pystr.startswith b "/" then b
  else if String.eqb a "" || pystr.endswith a "/" then a +:+ b
  else a +:+ "/" +:+ b.

(** [os.path.dirname(p)] *)
Definition dirname (p : string) : string :=
  let i := pystr.rfind_succ sep p in
  let head := String.substring 0 i p in
  if negb (String.eqb head "") && negb (pystr.all_char sep head)
  then pystr.rstrip sep head else head.

(** The loop of [normpath]: [new_comps] is kept in reverse. *)
Fixpoint norm_comps (initial_slashes : nat) (comps : list string)
         (rev_new : list string) : list string :=
  match comps with
  | [] => rev_new
  | comp :: rest =>
      if String.eqb comp "" || String.eqb comp "." then
        norm_comps initial_slashes rest rev_new
      else if negb (String.eqb comp "..")
              || (Nat.eqb initial_slashes 0 && match rev_new with [] => true | _ => false end)
              || match rev_new with last :: _ => String.eqb last ".." | [] => false end
      then norm_comps initial_slashes rest (comp :: rev_new)
      else norm_comps initial_slashes rest (List.tl rev_new)
  end.

Definition initial_slashes (path : string) : nat :=
  if pystr.startswith path "/" then
    if pystr.startswith path "//" && negb (pystr.startswith path "///") then 2 else 1
  else 0.

(** [os.path.normpath(path)] *)
Definition normpath (path : string) : string :=
  if String.eqb path "" then "."
  else
    let n := initial_slashes path in
    let comps := List.rev (norm_comps n (pystr.split sep path) []) in
    let p := pystr.join "/" comps in
    let p := (match n with 0 => "" | 1 => "/" | _ => "//" end) +:+ p in
    if String.eqb p "" then "." else p.

(** [os.path.abspath(path)], the current directory being [cwd] *)
Definition abspath (cwd path : string) : string :=
  normpath (if isabs path then path else join cwd path).

Fixpoint commonprefix_len (l1 l2 : list string) : nat :=
  match l1, l2 with
  | a :: l1', b :: l2' => if String.eqb a b then S (commonprefix_len l1' l2') else 0
  | _, _ => 0
  end.

Definition nonempty_comps (p : string) : list string :=
  List.filter (fun x => negb (String.eqb x "")) (pystr.split sep p).

(** [os.path.relpath(path, start)]; [None] is the [ValueError] raised on
    an empty [path]. *)
Definition relpath (cwd path start : string) : option string :=
  if String.eqb path "" then None
  else
    let start_list := nonempty_comps (abspath cwd start) in
    let path_list := nonempty_comps (abspath cwd path) in
    let i := commonprefix_len start_list path_list in
    let rel_list :=
      (List.repeat ".." (List.length start_list - i) ++ List.skipn i path_list)%list in
    match rel_list with
    | [] => Some "."
    | _ => Some (pystr.join "/" rel_list)
    end.

End posixpath.

(** ** Exceptions and the state of the run *)

(** A Python exception (a subclass of [Exception]): its class and [str(e)]. *)
Record Exn := mkExn { exn_class : string; exn_str : string }.

Inductive Result (A : Type) : Type :=
| Ok (a : A)
| Raise (e : Exn).
Arguments Ok {A} a.
Arguments Raise {A} e.

(** ** [pydicom]: datasets *)

Module pydicom.

(** A tag is the pair (group, element). *)
Abbreviation Tag := (N * N)%type.

(** The keywords the script names, with their entries in the DICOM
    dictionary. *)
Inductive Keyword :=
| TransferSyntaxUID
| StudyInstanceUID
| SeriesInstanceUID
| SeriesNumber
| InstanceNumber
| ImagePositionPatient
| ImageOrientationPatient
| PixelData.

Definition tag_for_keyword (k : Keyword) : Tag :=
  match k with
  | TransferSyntaxUID => (0x0002, 0x0010)
  | StudyInstanceUID => (0x0020, 0x000d)
  | SeriesInstanceUID => (0x0020, 0x000e)
  | SeriesNumber => (0x0020, 0x0011)
  | InstanceNumber => (0x0020, 0x0013)
  | ImagePositionPatient => (0x0020, 0x0032)
  | ImageOrientationPatient => (0x0020, 0x0037)
  | PixelData => (0x7fe0, 0x0010)
  end%N.

Definition dictionary_VR (k : Keyword) : string :=
  match k with
  | TransferSyntaxUID | StudyInstanceUID | SeriesInstanceUID => "UI"
  | SeriesNumber | InstanceNumber => "IS"
  | ImagePositionPatient | ImageOrientationPatient => "DS"
  | PixelData => "OB or OW"
  end.

Definition keyword_str (k : Keyword) : string :=
  match k with
  | TransferSyntaxUID => "TransferSyntaxUID"
  | StudyInstanceUID => "StudyInstanceUID"
  | SeriesInstanceUID => "SeriesInstanceUID"
  | SeriesNumber => "SeriesNumber"
  | InstanceNumber => "InstanceNumber"
  | ImagePositionPatient => "ImagePositionPatient"
  | ImageOrientationPatient => "ImageOrientationPatient"
  | PixelData => "PixelData"
  end.

(** The value of a data element as Python sees it. *)
Inductive Value :=
| VInt (z : Z)                    (* an [int], as [IS] is *)
| VStr (s : string)               (* a [str], as [UID] is *)
| VBytes (b : list Byte.byte)     (* [bytes] *)
| VMulti (l : list string)        (* a [MultiValue], kept as written *)
| VNone.                          (* the empty value *)

Record DataElement := mkElem { VR : string; value : Value }.

(** A [Dataset] and its [file_meta] are maps from tags to elements. *)
Record Dataset := mkDataset {
  file_meta : gmap Tag DataElement;
  elements : gmap Tag DataElement
}.

(** [len(ds) != 0], the truth value of a dataset. *)
Definition truthy (ds : Dataset) : bool :=
  negb (bool_decide (elements ds = ∅)).

(** [kw in ds] *)
Definition contains (m : gmap Tag DataElement) (k : Keyword) : bool :=
  bool_decide (is_Some (m !! tag_for_keyword k)).

(** [ds.kw]: [AttributeError] when the element is absent. *)
Definition getattr (m : gmap Tag DataElement) (k : Keyword) : Result Value :=
  match m !! tag_for_keyword k with
  | Some e => Ok (value e)
  | None =>
      Raise (mkExn "AttributeError"
               ("'Dataset' object has no attribute '" +:+ keyword_str k +:+ "'"))
  end.

(** [ds.kw = v]: the value of an existing element is replaced, a new
    element gets the VR of the dictionary. *)
Definition setattr (m : gmap Tag DataElement) (k : Keyword) (v : Value)
  : gmap Tag DataElement :=
  match m !! tag_for_keyword k with
  | Some e => <[tag_for_keyword k := mkElem (VR e) v]> m
  | None => <[tag_for_keyword k := mkElem (dictionary_VR k) v]> m
  end.

(** [ds[tag].VR = vr]: [KeyError] when the element is absent. *)
Definition set_VR (m : gmap Tag DataElement) (t : Tag) (vr : string)
  : Result (gmap Tag DataElement) :=
  match m !! t with
  | Some e => Ok (<[t := mkElem vr (value e)]> m)
  | None => Raise (mkExn "KeyError" "tag")
  end.

Definition tag_ltb (a b : Tag) : bool :=
  (a.1 <? b.1)%N || ((a.1 =? b.1)%N && (a.2 <? b.2)%N).

(** What [stop_before_pixels=True] keeps: reading stops at the pixel
    data element. *)
Definition before_pixels (ds : Dataset) : Dataset :=
  mkDataset (file_meta ds)
    (filter (fun kv => tag_ltb kv.1 (tag_for_keyword PixelData) = true) (elements ds)).

(** [pydicom.uid.ExplicitVRLittleEndian] *)
Definition ExplicitVRLittleEndian : string := "1.2.840.10008.1.2.1".

End pydicom.
Import pydicom.

(** ** [numpy] arrays as [SimpleITK] returns them *)

Inductive DType :=
| uint8 | int8 | uint16 | int16 | uint32 | int32 | uint64 | int64
| float32 | float64 | complex64 | complex128.

Definition dtype_name (d : DType) : string :=
  match d with
  | uint8 => "uint8" | int8 => "int8" | uint16 => "uint16" | int16 => "int16"
  | uint32 => "uint32" | int32 => "int32" | uint64 => "uint64" | int64 => "int64"
  | float32 => "float32" | float64 => "float64"
  | complex64 => "complex64" | complex128 => "complex128"
  end.

(** The width of one sample, in bits. *)
Definition itemsize_bits (d : DType) : N :=
  match d with
  | uint8 | int8 => 8
  | uint16 | int16 => 16
  | uint32 | int32 | float32 => 32
  | uint64 | int64 | float64 | complex64 => 64
  | complex128 => 128
  end.

(** [dtype in names]: a dtype equals a string when the string names it. *)
Definition dtype_in (d : DType) (names : list string) : bool :=
  existsb (String.eqb (dtype_name d)) names.

Record Array := mkArray { dtype : DType; tobytes : list Byte.byte }.

(** ** The world: files, directories, the log *)

(** A file is known by what [pydicom] reads from it: a file written from
    a dataset reads back as that dataset. *)
Inductive File :=
| DicomFile (ds : Dataset)       (* a file [pydicom] parses to [ds] *)
| OtherFile (content : string).  (* anything else *)

Inductive Level := DEBUG | ERROR.

(** One call of the converter, as the walker made it. *)
Record Call := mkCall {
  call_file_path : string;
  call_output_path : string;
  call_reference : option Dataset
}.

(** Files and directories are keyed by their absolute normal path (there
    are no symbolic links).  [calls] is the history of the converter's
    invocations: the script keeps no such list, it is here so that what the
    walker called can be stated. *)
Record World := mkWorld {
  fs : gmap string File;
  dirs : gset string;
  log : list (Level * string);
  calls : list Call
}.

Definition M (A : Type) : Type := World -> World * Result A.

Definition ret {A} (a : A) : M A := fun w => (w, Ok a).

Definition bind {A B} (m : M A) (k : A -> M B) : M B :=
  fun w => match m w with
           | (w', Ok a) => k a w'
           | (w', Raise e) => (w', Raise e)
           end.

Notation "x <- m ;; k" := (bind m (fun x => k))
  (at level 100, m at next level, right associativity).
Notation "m ;;; k" := (bind m (fun _ => k))
  (at level 100, right associativity).

(** Sequencing of pure computations that may raise. *)
Definition rbind {A B} (r : Result A) (k : A -> Result B) : Result B :=
  match r with
  | Ok a => k a
  | Raise e => Raise e
  end.

Notation "x <~ r ;; k" := (rbind r (fun x => k))
  (at level 100, r at next level, right associativity).

(** A pure computation that may raise. *)
Definition lift {A} (r : Result A) : M A := fun w => (w, r).

(** [try: body except Exception as e: handler e] *)
Definition try_except {A} (body : M A) (handler : Exn -> M A) : M A :=
  fun w => match body w with
           | (w', Ok a) => (w', Ok a)
           | (w', Raise e) => handler e w'
           end.

Definition log_to (w : World) (l : Level) (msg : string) : World :=
  mkWorld (fs w) (dirs w) (log w ++ [(l, msg)]) (calls w).

Definition call_to (w : World) (c : Call) : World :=
  mkWorld (fs w) (dirs w) (log w) (calls w ++ [c]).

Definition write_to (w : World) (loc : string) (f : File) : World :=
  mkWorld (<[loc := f]> (fs w)) (dirs w) (log w) (calls w).

Definition mkdirs_to (w : World) (ds : list string) : World :=
  mkWorld (fs w) (dirs w ∪ list_to_set ds) (log w) (calls w).

Definition logging_at (l : Level) (msg : string) : M unit :=
  fun w => (log_to w l msg, Ok tt).

Definition logging_error := logging_at ERROR.
Definition logging_debug := logging_at DEBUG.

Definition record_call (c : Call) : M unit :=
  fun w => (call_to w c, Ok tt).

(** ** [os.walk] *)

(** What [os.scandir] finds in a directory and, in turn, in each of its
    subdirectories at the time the walk gets there. *)
Inductive DirTree :=
| Dir (subdirs : Forest) (files : list string)
with Forest :=
| NoDir
| SubDir (name : string) (t : DirTree) (rest : Forest).

Fixpoint names (f : Forest) : list string :=
  match f with
  | NoDir => []
  | SubDir name _ rest => name :: names rest
  end.

(** [os.walk(top)], top-down: the triple of [top], then the walks of its
    subdirectories [os.path.join(top, name)]. *)
Fixpoint walk (top : string) (t : DirTree) : list (string * list string * list string) :=
  match t with
  | Dir subdirs files => (top, names subdirs, files) :: walk_all top subdirs
  end
with walk_all (top : string) (f : Forest) : list (string * list string * list string) :=
  match f with
  | NoDir => []
  | SubDir name t rest => (walk (posixpath.join top name) t ++ walk_all top rest)%list
  end.

(** What a write that broke off left at the output path.
    [Dataset.save_as] opens the file, writes the preamble and the file meta
    information, then the elements in the order of their tags: when it
    raises, the file was not touched, or what it holds does not parse, or
    it parses as the header and the elements written before [upto]. *)
Inductive Leftover :=
| Untouched
| Unreadable (content : string)
| Truncated (upto : Tag).

(** How a write went wrong. *)
Record SaveFault := mkSaveFault { save_exn : Exn; save_leftover : Leftover }.

(** The dataset whose writing stopped at the element [upto]. *)
Definition truncated (ds : Dataset) (upto : Tag) : Dataset :=
  mkDataset (file_meta ds)
    (filter (fun kv => tag_ltb kv.1 upto = true) (elements ds)).

(** The file a write of [ds] that broke off left, if it left one. *)
Definition leftover_file (ds : Dataset) (l : Leftover) : option File :=
  match l with
  | Untouched => None
  | Unreadable content => Some (OtherFile content)
  | Truncated upto => Some (DicomFile (truncated ds upto))
  end.

(** What the libraries and the operating system decide. *)
Class Externals := {
  (** [os.getcwd()], an absolute path *)
  getcwd : string;
  getcwd_isabs : posixpath.isabs getcwd = true;
  (** what the directory scans of [os.walk(top)] find in this run; [None]
      when [top] is not a directory that can be listed *)
  scan : World -> string -> option DirTree;
  (** [sitk.GetArrayFromImage(sitk.ReadImage(path))] on the file at [path] *)
  sitk_decode : File -> Result Array;
  (** the builtin [int] on the value of an element *)
  py_int : Value -> Result Z;
  (** whether [Dataset.save_as] fails, and how *)
  save_fault : World -> Dataset -> string -> option SaveFault;
  (** whether [os.makedirs(name, exist_ok=True)] fails *)
  makedirs_fault : World -> string -> option Exn
}.

(** ** The script *)

(** Reference: https://www.dicomlibrary.com/dicom/transfer-syntax/ *)
Definition compressed_uids : list string := [
  (* JPEG compression *)
  "1.2.840.10008.1.2.4.50";
  "1.2.840.10008.1.2.4.51";
  "1.2.840.10008.1.2.4.52";
  "1.2.840.10008.1.2.4.53";
  "1.2.840.10008.1.2.4.54";
  "1.2.840.10008.1.2.4.55";
  "1.2.840.10008.1.2.4.56";
  "1.2.840.10008.1.2.4.57";
  "1.2.840.10008.1.2.4.58";
  "1.2.840.10008.1.2.4.59";
  "1.2.840.10008.1.2.4.60";
  "1.2.840.10008.1.2.4.61";
  "1.2.840.10008.1.2.4.62";
  "1.2.840.10008.1.2.4.63";
  "1.2.840.10008.1.2.4.64";
  "1.2.840.10008.1.2.4.65";
  "1.2.840.10008.1.2.4.66";
  "1.2.840.10008.1.2.4.70";
  (* JPEG-LS compression *)
  "1.2.840.10008.1.2.4.80";
  "1.2.840.10008.1.2.4.81";
  (* JPEG 2000 compression *)
  "1.2.840.10008.1.2.4.90";
  "1.2.840.10008.1.2.4.91";
  "1.2.840.10008.1.2.4.92";
  "1.2.840.10008.1.2.4.93";
  (* JPIP *)
  "1.2.840.10008.1.2.4.94";
  "1.2.840.10008.1.2.4.95";
  (* RLE compression *)
  "1.2.840.10008.1.2.5";
  (* MPEG compression *)
  "1.2.840.10008.1.2.4.100";
  "1.2.840.10008.1.2.4.102";
  "1.2.840.10008.1.2.4.103";
  (* High-Throughput JPEG 2000 *)
  "1.2.840.10008.1.2.4.201";
  "1.2.840.10008.1.2.4.202";
  "1.2.840.10008.1.2.4.203"
].

(** [v in l] for a list of strings: only a string equals a string. *)
Definition value_in (v : Value) (l : list string) : bool :=
  match v with
  | VStr s => existsb (String.eqb s) l
  | _ => false
  end.

(** [if output_dir:] on an optional string *)
Definition str_truthy (o : option string) : bool :=
  match o with
  | Some s => negb (String.eqb s "")
  | None => false
  end.

(** [if reference_metadata:] on an optional dataset *)
Definition ref_truthy (o : option Dataset) : bool :=
  match o with
  | Some r => truthy r
  | None => false
  end.

(** The local variable [reference_metadata] of the converter: the object
    it was given, or, after [reference_metadata = ds], the very object
    [ds], which the later assignments still change. *)
Inductive RefVar :=
| Given (r : Dataset)
| SameAsDs.

Definition deref (v : RefVar) (ds : Dataset) : Dataset :=
  match v with
  | Given r => r
  | SameAsDs => ds
  end.

Definition str_exn (e : Exn) : string := exn_str e.

Section Script.

Context `{Externals}.

(** Where a path leads. *)
Definition locate (p : string) : string := posixpath.abspath getcwd p.

(** [pydicom.dcmread(file_path, stop_before_pixels=...)] *)
Definition dcmread (file_path : string) (stop_before_pixels : bool) : M Dataset :=
  fun w =>
    match fs w !! locate file_path with
    | Some (DicomFile ds) =>
        (w, Ok (if stop_before_pixels then before_pixels ds else ds))
    | Some (OtherFile _) =>
        (w, Raise (mkExn "InvalidDicomError"
                     "File is missing DICOM File Meta Information header"))
    | None =>
        (w, Raise (mkExn "FileNotFoundError"
                     ("No such file or directory: '" +:+ file_path +:+ "'")))
    end.

(** [sitk.GetArrayFromImage(sitk.ReadImage(file_path))] *)
Definition sitk_read_array (file_path : string) : M Array :=
  fun w =>
    match fs w !! locate file_path with
    | Some f => (w, sitk_decode f)
    | None =>
        (w, Raise (mkExn "RuntimeError"
                     ("The file '" +:+ file_path +:+ "' does not exist.")))
    end.

(** [ds.save_as(output_path)] *)
Definition save_as (ds : Dataset) (output_path : string) : M unit :=
  fun w =>
    match save_fault w ds output_path with
    | None => (write_to w (locate output_path) (DicomFile ds), Ok tt)
    | Some fault =>
        match leftover_file ds (save_leftover fault) with
        | None => (w, Raise (save_exn fault))
        | Some f => (write_to w (locate output_path) f, Raise (save_exn fault))
        end
    end.

(** A directory and the directories above it. *)
Fixpoint parents (n : nat) (d : string) : list string :=
  match n with
  | O => [d]
  | S n' => d :: parents n' (posixpath.dirname d)
  end.

(** [os.makedirs(name, exist_ok=True)] *)
Definition makedirs (name : string) : M unit :=
  fun w =>
    match makedirs_fault w name with
    | Some e => (w, Raise e)
    | None =>
        let d := locate name in
        (mkdirs_to w (parents (String.length d) d), Ok tt)
    end.

(** [os.path.relpath(path, start)] *)
Definition relpath (path start : string) : M string :=
  lift (match posixpath.relpath getcwd path start with
        | Some r => Ok r
        | None => Raise (mkExn "ValueError" "no path specified")
        end).

(** Check if the DICOM file is in a compressed format. *)
Definition is_compressed (file_path : string) : M bool :=
  try_except
    (ds <- dcmread file_path true ;;
     transfer_syntax <- lift (getattr (file_meta ds) TransferSyntaxUID) ;;
     ret (value_in transfer_syntax compressed_uids))
    (fun e =>
       logging_error ("Error reading file " +:+ file_path +:+ ": " +:+ str_exn e) ;;;
       ret false).

(** Lines 99-104: the payload is replaced by the bytes of the decoded
    array and its VR follows the dtype. *)
Definition set_pixel_data (ds : Dataset) (image_array : Array) : Result Dataset :=
  let ds := mkDataset (file_meta ds)
              (setattr (elements ds) PixelData (VBytes (tobytes image_array))) in
  els <~ (if dtype_in (dtype image_array) ["uint16"; "int16"]
          then set_VR (elements ds) (0x7FE0, 0x0010)%N "OW"
          else set_VR (elements ds) (0x7FE0, 0x0010)%N "OB") ;;
  Ok (mkDataset (file_meta ds) els).

(** Lines 106-113: the series fields are taken from the reference, or
    the dataset becomes the reference. *)
Definition stamp_reference (ds : Dataset) (reference_metadata : option Dataset)
  : Result (Dataset * RefVar) :=
  match reference_metadata with
  | Some r =>
      if truthy r then
        v <~ getattr (elements r) SeriesInstanceUID ;;
        let ds := mkDataset (file_meta ds) (setattr (elements ds) SeriesInstanceUID v) in
        v <~ getattr (elements r) StudyInstanceUID ;;
        let ds := mkDataset (file_meta ds) (setattr (elements ds) StudyInstanceUID v) in
        v <~ getattr (elements r) SeriesNumber ;;
        let ds := mkDataset (file_meta ds) (setattr (elements ds) SeriesNumber v) in
        v <~ getattr (elements r) ImageOrientationPatient ;;
        let ds := mkDataset (file_meta ds) (setattr (elements ds) ImageOrientationPatient v) in
        v <~ getattr (elements r) ImagePositionPatient ;;
        let ds := mkDataset (file_meta ds) (setattr (elements ds) ImagePositionPatient v) in
        Ok (ds, Given r)
      else Ok (ds, SameAsDs)
  | None => Ok (ds, SameAsDs)
  end.

(** Lines 115-118: the instance number is made an integer. *)
Definition normalize_instance_number (ds : Dataset) : Result Dataset :=
  if contains (elements ds) InstanceNumber then
    v <~ getattr (elements ds) InstanceNumber ;;
    n <~ py_int v ;;
    Ok (mkDataset (file_meta ds) (setattr (elements ds) InstanceNumber (VInt n)))
  else
    Ok (mkDataset (file_meta ds) (setattr (elements ds) InstanceNumber (VInt 1))).

(** Line 120 *)
Definition set_transfer_syntax (ds : Dataset) : Dataset :=
  mkDataset (setattr (file_meta ds) TransferSyntaxUID (VStr ExplicitVRLittleEndian))
    (elements ds).

(** The [try] block of [decompress_and_save_with_metadata]. *)
Definition decompress_try (file_path output_path : string)
           (reference_metadata : option Dataset) : M (option Dataset) :=
  ds <- dcmread file_path false ;;
  image_array <- sitk_read_array file_path ;;
  ds <- lift (set_pixel_data ds image_array) ;;
  stamped <- lift (stamp_reference ds reference_metadata) ;;
  let '(ds, reference_metadata) := stamped in
  ds <- lift (normalize_instance_number ds) ;;
  let ds := set_transfer_syntax ds in
  save_as ds output_path ;;;
  logging_debug ("Decompressed and saved file: " +:+ output_path) ;;;
  ret (Some (deref reference_metadata ds)).

(** Decompress a DICOM file, ensure proper metadata for series
    consistency, and save to the specified output path.  [None] is
    Python's [None]. *)
Definition decompress_and_save_with_metadata (file_path output_path : string)
           (reference_metadata : option Dataset) : M (option Dataset) :=
  record_call (mkCall file_path output_path reference_metadata) ;;;
  try_except
    (decompress_try file_path output_path reference_metadata)
    (fun e =>
       logging_error ("Failed to decompress file " +:+ file_path +:+ ": " +:+ str_exn e) ;;;
       ret None).

(** Where the output of [file_path] goes (the [if output_dir:] block of
    the walker). *)
Definition output_path_of (input_dir : string) (output_dir : option string)
           (file_path : string) : M string :=
  match output_dir with
  | Some out =>
      if str_truthy output_dir then
        relative_path <- relpath file_path input_dir ;;
        let output_file_path := posixpath.join out relative_path in
        makedirs (posixpath.dirname output_file_path) ;;;
        ret output_file_path
      else ret file_path
  | None => ret file_path
  end.

(** The body of the inner loop, for one [file] of [root]. *)
Definition process_file (input_dir : string) (output_dir : option string)
           (root file : string) : M unit :=
  let file_path := posixpath.join root file in
  if pystr.endswith (pystr.lower file_path) ".dcm" then
    c <- is_compressed file_path ;;
    if c then
      logging_debug ("Compressed file found: " +:+ file_path) ;;;
      output_file_path <- output_path_of input_dir output_dir file_path ;;
      decompress_and_save_with_metadata file_path output_file_path None ;;;
      ret tt
    else
      logging_debug ("File is already uncompressed: " +:+ file_path)
  else ret tt.

(** [for file in files: ...] *)
Fixpoint for_files (input_dir : string) (output_dir : option string)
         (root : string) (files : list string) : M unit :=
  match files with
  | [] => ret tt
  | file :: rest =>
      process_file input_dir output_dir root file ;;;
      for_files input_dir output_dir root rest
  end.

(** [for root, _, files in ...: ...] *)
Fixpoint for_walk (input_dir : string) (output_dir : option string)
         (entries : list (string * list string * list string)) : M unit :=
  match entries with
  | [] => ret tt
  | (root, _, files) :: rest =>
      for_files input_dir output_dir root files ;;;
      for_walk input_dir output_dir rest
  end.

(** [os.walk(input_dir)] *)
Definition os_walk (w : World) (top : string)
  : list (string * list string * list string) :=
  match scan w top with
  | Some t => walk top t
  | None => []
  end.

(** Iterate through all files in a directory, check for compression, and
    decompress files if necessary. *)
Definition process_dicom_directory (input_dir : string) (output_dir : option string)
  : M unit :=
  fun w => for_walk input_dir output_dir (os_walk w input_dir) w.

End Script.

(** ** The vocabulary of the properties *)

(** The five fields the converter takes from a reference. *)
Definition series_fields : list Keyword :=
  [SeriesInstanceUID; StudyInstanceUID; SeriesNumber;
   ImageOrientationPatient; ImagePositionPatient].

(** The VR the converter gives the payload. *)
Definition pixel_VR (a : Array) : string :=
  if dtype_in (dtype a) ["uint16"; "int16"] then "OW" else "OB".

(** The message of the converter's [except] branch. *)
Definition failure_message (file_path : string) (e : Exn) : string :=
  "Failed to decompress file " +:+ file_path +:+ ": " +:+ str_exn e.

(** The message of the classifier's [except] branch. *)
Definition read_error_message (file_path : string) (e : Exn) : string :=
  "Error reading file " +:+ file_path +:+ ": " +:+ str_exn e.

(** The file at [loc] has a readable header whose transfer syntax is one of
    the compressed identifiers. *)
Definition compressed_at (w : World) (loc : string) : Prop :=
  exists ds uid,
    fs w !! loc = Some (DicomFile ds)
    /\ getattr (file_meta ds) TransferSyntaxUID = Ok (VStr uid)
    /\ In uid compressed_uids.

(** The value of the field [k] of the DICOM file at [loc], if any. *)
Definition field_at (w : World) (loc : string) (k : Keyword) : option Value :=
  match fs w !! loc with
  | Some (DicomFile ds) => value <$> (elements ds !! tag_for_keyword k)
  | _ => None
  end.

(** The walker's test on a path. *)
Definition matches (file_path : string) : bool :=
  pystr.endswith (pystr.lower file_path) ".dcm".

(** The output path of [file_path]: the same relative path under the
    output root when one is given, else [file_path] itself. *)
Definition mirrored_path `{Externals} (input_dir : string) (output_dir : option string)
           (file_path : string) : option string :=
  match output_dir with
  | Some out =>
      if str_truthy output_dir then
        match posixpath.relpath getcwd file_path input_dir with
        | Some rel => Some (posixpath.join out rel)
        | None => None
        end
      else Some file_path
  | None => Some file_path
  end.

(** A call as the walker makes them for the files [E] enumerates: on a
    matching path whose file was compressed in [w], with no reference, to
    the mirrored path. *)
Definition walker_call `{Externals} (input_dir : string) (output_dir : option string)
           (E : string -> string -> Prop) (w : World) (c : Call) : Prop :=
  exists root file,
    E root file
    /\ call_file_path c = posixpath.join root file
    /\ matches (call_file_path c) = true
    /\ compressed_at w (locate (call_file_path c))
    /\ call_reference c = None
    /\ mirrored_path input_dir output_dir (call_file_path c) = Some (call_output_path c).

(** From [w] to [w']: calls satisfying [P] were made, only their output
    locations changed, and no file became compressed. *)
Definition walked `{Externals} (P : Call -> Prop) (w w' : World) : Prop :=
  exists cs,
    calls w' = (calls w ++ cs)%list
    /\ Forall P cs
    /\ (forall loc, (forall c, In c cs -> loc <> locate (call_output_path c)) ->
                    fs w' !! loc = fs w !! loc)
    /\ (forall loc, compressed_at w' loc -> compressed_at w loc).

(** The files a walk enumerates. *)
Definition enumerated (entries : list (string * list string * list string))
           (root file : string) : Prop :=
  exists ds files, In (root, ds, files) entries /\ In file files.

(** *** Names and locations *)

(** The separator occurs in [s]. *)
Fixpoint has_sep (s : string) : bool :=
  match s with
  | EmptyString => false
  | String c s' => Ascii.eqb c posixpath.sep || has_sep s'
  end.

(** A name as a directory scan returns them: not empty, not [.] or [..],
    without separator. *)
Definition plain_name (s : string) : bool :=
  negb (String.eqb s "") && negb (String.eqb s ".") && negb (String.eqb s "..")
  && negb (has_sep s).

Definition all_plain (l : list string) : Prop := Forall (fun x => plain_name x = true) l.

Fixpoint plain_tree (t : DirTree) : bool :=
  match t with
  | Dir subdirs files => plain_forest subdirs && forallb plain_name files
  end
with plain_forest (f : Forest) : bool :=
  match f with
  | NoDir => true
  | SubDir name t rest => plain_name name && plain_tree t && plain_forest rest
  end.

Scheme DirTree_ind2 := Induction for DirTree Sort Prop
  with Forest_ind2 := Induction for Forest Sort Prop.

(** A component of a normal path. *)
Definition comp_ok (x : string) : Prop := x <> "" /\ has_sep x = false.

(** The path [abspath] normalises. *)
Definition absolute `{Externals} (p : string) : string :=
  if posixpath.isabs p then p else posixpath.join getcwd p.

(** The components of the location a path leads to. *)
Definition loc_comps `{Externals} (p : string) : list string :=
  posixpath.nonempty_comps (locate p).

(** ** A concrete run, for the examples *)

Module Sample.

Definition elem (k : Keyword) (v : Value) : Tag * DataElement :=
  (tag_for_keyword k, mkElem (dictionary_VR k) v).

Definition jpeg_baseline : string := "1.2.840.10008.1.2.4.50".

(** A slice of series [series]: compressed when [ts] is a compressed
    transfer syntax. *)
Definition slice (ts series : string) (number : option Value) : Dataset :=
  mkDataset
    (list_to_map [elem TransferSyntaxUID (VStr ts)])
    (list_to_map
       ([elem StudyInstanceUID (VStr "1.2.3");
         elem SeriesInstanceUID (VStr series);
         elem SeriesNumber (VInt 4);
         elem ImagePositionPatient (VMulti ["0.0"; "0.0"; "1.5"]);
         elem ImageOrientationPatient (VMulti ["1"; "0"; "0"; "0"; "1"; "0"]);
         (tag_for_keyword PixelData, mkElem "OB" (VBytes [Byte.xff; Byte.xd8]))]
        ++ match number with
           | Some v => [elem InstanceNumber v]
           | None => []
           end)%list).

(** A reference with the five series fields. *)
Definition reference : Dataset :=
  mkDataset ∅
    (list_to_map
       [elem StudyInstanceUID (VStr "7.7.7");
        elem SeriesInstanceUID (VStr "7.7.7.1");
        elem SeriesNumber (VInt 9);
        elem ImagePositionPatient (VMulti ["5"; "5"; "5"]);
        elem ImageOrientationPatient (VMulti ["0"; "1"; "0"; "1"; "0"; "0"])]).

Definition files : gmap string File :=
  list_to_map
    [("/work/in/a.dcm", DicomFile (slice jpeg_baseline "1.1" (Some (VInt 3))));
     ("/work/in/b.txt", OtherFile "notes");
     ("/work/in/series1/img1.dcm", DicomFile (slice jpeg_baseline "1.1" None));
     ("/work/scan/s1.dcm", DicomFile (slice jpeg_baseline "1.1" (Some (VInt 1))));
     ("/work/scan/s2.dcm", DicomFile (slice jpeg_baseline "2.2" (Some (VInt 2))));
     ("/work/scan/bad.dcm", DicomFile (slice jpeg_baseline "1.1" (Some VNone)));
     ("/work/scan/plain.dcm", DicomFile (slice ExplicitVRLittleEndian "1.1" (Some (VInt 5))));
     ("/work/scan/broken.dcm", OtherFile "truncated");
     ("/work/d/a.dcm", DicomFile (slice jpeg_baseline "3.3" (Some (VInt 1))));
     ("/work/d/sub/a.dcm", DicomFile (slice ExplicitVRLittleEndian "4.4" (Some (VInt 8))))].

Definition world : World :=
  mkWorld files
    (list_to_set ["/"; "/work"; "/work/in"; "/work/in/series1"; "/work/scan";
                  "/work/d"; "/work/d/sub"])
    [] [].

Definition listing (top : string) : option DirTree :=
  if String.eqb top "in" then
    Some (Dir (SubDir "series1" (Dir NoDir ["img1.dcm"]) NoDir) ["a.dcm"; "b.txt"])
  else if String.eqb top "scan" then
    Some (Dir NoDir ["s1.dcm"; "s2.dcm"; "bad.dcm"; "plain.dcm"; "broken.dcm"])
  else if String.eqb top "d" then
    Some (Dir (SubDir "sub" (Dir NoDir ["a.dcm"]) NoDir) ["a.dcm"])
  else None.

(** The decoder of the sample: 16-bit samples out of every DICOM file. *)
Definition decode (f : File) : Result Array :=
  match f with
  | DicomFile _ => Ok (mkArray int16 [Byte.x01; Byte.x00; Byte.x02; Byte.x00])
  | OtherFile _ => Raise (mkExn "RuntimeError" "Unable to determine ImageIO reader")
  end.

Definition int_of (v : Value) : Result Z :=
  match v with
  | VInt z => Ok z
  | _ => Raise (mkExn "TypeError" "int() argument must be a string or a real number")
  end.

Definition externals : Externals := {|
  getcwd := "/work";
  getcwd_isabs := eq_refl;
  scan := fun _ top => listing top;
  sitk_decode := decode;
  py_int := int_of;
  save_fault := fun _ _ _ => None;
  makedirs_fault := fun _ _ => None
|}.

(** The dataset a successful conversion returned. *)
Definition returned (r : Result (option Dataset)) : Dataset :=
  match r with
  | Ok (Some ds) => ds
  | _ => reference
  end.

(** The dataset of the file at [loc]. *)
Definition dataset_at (w : World) (loc : string) : Dataset :=
  match fs w !! loc with
  | Some (DicomFile ds) => ds
  | _ => reference
  end.

End Sample.

(** ** The rest of the script: the logger and the entry point *)

(** The numeric value of a level, as [logging] has it. *)
Definition levelno (l : Level) : N :=
  match l with
  | DEBUG => 10
  | ERROR => 40
  end.

(** Configure logging level based on verbosity: the level given to
    [logging.basicConfig], [logging.DEBUG] (10) if [verbose], else
    [logging.INFO] (20). *)
Definition setup_logger (verbose : bool) : N :=
  if verbose then 10%N else 20%N.

(** The records the root logger lets through at [level]. *)
Definition emitted (level : N) (records : list (Level * string)) : list (Level * string) :=
  List.filter (fun r => (level <=? levelno r.1)%N) records.

Section Main.

Context `{Externals}.

(** [os.path.exists(p)] *)
Definition path_exists (p : string) : M bool :=
  fun w => (w, Ok (bool_decide (locate p ∈ dirs w)
                   || bool_decide (is_Some (fs w !! locate p)))).

(** The body of [if __name__ == "__main__":], the arguments parsed
    (lines 177-186).  [os.makedirs(output_dir)] is called only on a path
    that does not exist, where [exist_ok] makes no difference.
    [setup_logger(args.verbose)] changes no file: the level it sets
    decides which of the records of the run are shown ([console]). *)
Definition main (input_dir : string) (output_dir : option string) (verbose : bool)
  : M unit :=
  (match output_dir with
   | Some out =>
       if str_truthy output_dir then
         present <- path_exists out ;;
         if negb present then makedirs out else ret tt
       else ret tt
   | None => ret tt
   end) ;;;
  process_dicom_directory input_dir output_dir.

End Main.

(** ** More vocabulary *)

(** The (root, file) pairs of a walk, in the order of the two loops. *)
Definition pairs_of (entries : list (string * list string * list string))
  : list (string * string) :=
  flat_map (fun e => List.map (pair e.1.1) e.2) entries.

(** The visits of the two loops, one after the other: every visit but a
    last one that raises returns normally. *)
Inductive visits `{Externals} (input_dir : string) (output_dir : option string)
  : list (string * string) -> World -> World -> Result unit -> Prop :=
| visits_done w : visits input_dir output_dir [] w w (Ok tt)
| visits_next root file rest w w1 w2 r :
    process_file input_dir output_dir root file w = (w1, Ok tt) ->
    visits input_dir output_dir rest w1 w2 r ->
    visits input_dir output_dir ((root, file) :: rest) w w2 r
| visits_raise root file rest w w1 e :
    process_file input_dir output_dir root file w = (w1, Raise e) ->
    visits input_dir output_dir ((root, file) :: rest) w w1 (Raise e).

(** The records the walker and the functions it calls log about [fp]. *)
Inductive walker_record (fp : string) : Level * string -> Prop :=
| record_found : walker_record fp (DEBUG, "Compressed file found: " +:+ fp)
| record_saved op : walker_record fp (DEBUG, "Decompressed and saved file: " +:+ op)
| record_skipped : walker_record fp (DEBUG, "File is already uncompressed: " +:+ fp)
| record_unreadable e : walker_record fp (ERROR, read_error_message fp e)
| record_failed e : walker_record fp (ERROR, failure_message fp e).

(** The records logged since [w]. *)
Definition records_since (w w' : World) : list (Level * string) :=
  drop (length (log w)) (log w').

(** What the program shows of a run from [w] to [w']: the records the
    level set by [setup_logger verbose] lets through. *)
Definition console (verbose : bool) (w w' : World) : list (Level * string) :=
  emitted (setup_logger verbose) (records_since w w').

Definition is_error (r : Level * string) : bool :=
  match r.1 with
  | ERROR => true
  | DEBUG => false
  end.

(** Something, a directory or a file, is at [loc]. *)
Definition exists_at (w : World) (loc : string) : Prop :=
  loc ∈ dirs w \/ is_Some (fs w !! loc).

(** [l1] is an initial segment of [l2]. *)
Fixpoint is_prefix (l1 l2 : list string) : bool :=
  match l1, l2 with
  | [], _ => true
  | a :: l1', b :: l2' => String.eqb a b && is_prefix l1' l2'
  | _ :: _, [] => false
  end.

(** ** A second run, where things go wrong *)

Module Faulty.

Definition denied : Exn := mkExn "PermissionError" "[Errno 13] Permission denied".

Definition no_space : Exn := mkExn "OSError" "[Errno 28] No space left on device".

(** A reference that holds a series identifier and nothing else. *)
Definition partial_reference : Dataset :=
  mkDataset ∅ (list_to_map [Sample.elem SeriesInstanceUID (VStr "7.7.7.1")]).

(** The files of the sample, a directory [done] where nothing is
    compressed, a compressed file on the device that is full, and one in
    [d/sub/sub]. *)
Definition world : World :=
  mkWorld
    (<["/work/d/sub/sub/a.dcm" :=
         DicomFile (Sample.slice Sample.jpeg_baseline "8.8" (Some (VInt 1)))]>
    (<["/work/full/x.dcm" :=
         DicomFile (Sample.slice Sample.jpeg_baseline "6.6" (Some (VInt 1)))]>
    (<["/work/done/plain.dcm" :=
         DicomFile (Sample.slice ExplicitVRLittleEndian "5.5" (Some (VInt 1)))]>
       (<["/work/done/notes.txt" := OtherFile "notes"]>
          (<["/work/done/broken.dcm" := OtherFile "truncated"]> Sample.files)))))
    (dirs Sample.world ∪ {["/work/done"]} ∪ {["/work/full"]} ∪ {["/work/d/sub/sub"]})
    [] [].

Definition listing (top : string) : option DirTree :=
  if String.eqb top "done" then
    Some (Dir NoDir ["plain.dcm"; "notes.txt"; "broken.dcm"])
  else if String.eqb top "full" then Some (Dir NoDir ["x.dcm"])
  else if String.eqb top "d/sub" then
    Some (Dir (SubDir "sub" (Dir NoDir ["a.dcm"]) NoDir) ["a.dcm"])
  else Sample.listing top.

(** As in the sample, but no directory can be made under [ro], and a
    write under [full] breaks off when it gets to the pixel data, leaving
    the header and the elements before it. *)
Definition externals : Externals := {|
  getcwd := "/work";
  getcwd_isabs := eq_refl;
  scan := fun _ top => listing top;
  sitk_decode := Sample.decode;
  py_int := Sample.int_of;
  save_fault := fun _ _ output_path =>
    if pystr.startswith output_path "full"
    then Some (mkSaveFault no_space (Truncated (tag_for_keyword PixelData)))
    else None;
  makedirs_fault := fun _ name =>
    if pystr.startswith name "ro" then Some denied else None
|}.

End Faulty.

(** * Properties *)

(** ** The monad *)

Lemma bind_Ok {A B} (m : M A) (k : A -> M B) w w1 a :
  m w = (w1, Ok a) -> bind m k w = k a w1.
Proof. intros Hm. unfold bind. now rewrite Hm. Qed.

Lemma bind_Raise {A B} (m : M A) (k : A -> M B) w w1 e :
  m w = (w1, Raise e) -> bind m k w = (w1, Raise e).
Proof. intros Hm. unfold bind. now rewrite Hm. Qed.

Lemma bind_inv {A B} (m : M A) (k : A -> M B) w w' r :
  bind m k w = (w', r) ->
  (exists w1 a, m w = (w1, Ok a) /\ k a w1 = (w', r))
  \/ (exists e, m w = (w', Raise e) /\ r = Raise e).
Proof.
  unfold bind. destruct (m w) as [w1 [a|e]]; intros Hk.
  - left. eauto.
  - right. exists e. now inversion Hk.
Qed.

Lemma bind_inv_Ok {A B} (m : M A) (k : A -> M B) w w' b :
  bind m k w = (w', Ok b) ->
  exists w1 a, m w = (w1, Ok a) /\ k a w1 = (w', Ok b).
Proof.
  intros Hb. destruct (bind_inv _ _ _ _ _ Hb) as [Hok|[e [_ He]]]; [exact Hok|discriminate].
Qed.

Lemma lift_inv {A} (r : Result A) w w' r' : lift r w = (w', r') -> w' = w /\ r' = r.
Proof. unfold lift. intros Hl. now inversion Hl. Qed.

Lemma rbind_inv_Ok {A B} (r : Result A) (k : A -> Result B) b :
  rbind r k = Ok b -> exists a, r = Ok a /\ k a = Ok b.
Proof. destruct r as [a|e]; simpl; [eauto|discriminate]. Qed.

(** ** Elements *)

Lemma tag_for_keyword_inj k1 k2 : tag_for_keyword k1 = tag_for_keyword k2 -> k1 = k2.
Proof. destruct k1, k2; simpl; intros Heq; solve [reflexivity | discriminate Heq]. Qed.

Lemma setattr_lookup m k v :
  exists vr, setattr m k v !! tag_for_keyword k = Some (mkElem vr v).
Proof.
  unfold setattr. destruct (m !! tag_for_keyword k) as [e|].
  - exists (VR e). apply lookup_insert_eq.
  - exists (dictionary_VR k). apply lookup_insert_eq.
Qed.

Lemma setattr_lookup_ne m k v (t : Tag) :
  t <> tag_for_keyword k -> setattr m k v !! t = m !! t.
Proof.
  intros Hne. unfold setattr.
  destruct (m !! tag_for_keyword k); apply lookup_insert_ne; congruence.
Qed.

Lemma getattr_setattr m k v : getattr (setattr m k v) k = Ok v.
Proof. unfold getattr. destruct (setattr_lookup m k v) as [vr ->]. reflexivity. Qed.

Lemma getattr_setattr_ne m k k' v : k' <> k -> getattr (setattr m k v) k' = getattr m k'.
Proof.
  intros Hne. unfold getattr. rewrite setattr_lookup_ne; [reflexivity|].
  intros Heq. apply Hne. now apply tag_for_keyword_inj.
Qed.

Lemma contains_spec m k : contains m k = true <-> is_Some (m !! tag_for_keyword k).
Proof. unfold contains. apply bool_decide_eq_true. Qed.

Lemma getattr_Ok m k v :
  getattr m k = Ok v <-> exists e, m !! tag_for_keyword k = Some e /\ value e = v.
Proof.
  unfold getattr. destruct (m !! tag_for_keyword k) as [e|]; split.
  - intros Hv. exists e. split; [reflexivity|congruence].
  - intros [e' [He <-]]. congruence.
  - discriminate.
  - intros [e' [He _]]. discriminate.
Qed.

(** ** The blocks of the converter *)

Section Blocks.

Context `{Externals}.

Lemma set_pixel_data_eq ds a :
  set_pixel_data ds a =
  Ok (mkDataset (file_meta ds)
        (<[tag_for_keyword PixelData := mkElem (pixel_VR a) (VBytes (tobytes a))]>
           (elements ds))).
Proof.
  unfold set_pixel_data, pixel_VR. simpl elements. simpl file_meta.
  change (0x7FE0, 0x0010)%N with (tag_for_keyword PixelData).
  destruct (setattr_lookup (elements ds) PixelData (VBytes (tobytes a))) as [vr Hl].
  assert (Hins : forall vr',
    <[tag_for_keyword PixelData := mkElem vr' (VBytes (tobytes a))]>
      (setattr (elements ds) PixelData (VBytes (tobytes a)))
    = <[tag_for_keyword PixelData := mkElem vr' (VBytes (tobytes a))]> (elements ds)).
  { intros vr'. unfold setattr.
    destruct (elements ds !! tag_for_keyword PixelData); apply insert_insert_eq. }
  destruct (dtype_in (dtype a) ["uint16"; "int16"]);
    unfold set_VR; rewrite Hl; simpl; now rewrite Hins.
Qed.

Lemma stamp_reference_falsy ds ref :
  ref_truthy ref = false -> stamp_reference ds ref = Ok (ds, SameAsDs).
Proof.
  unfold ref_truthy, stamp_reference. destruct ref as [r|]; [|reflexivity].
  now intros ->.
Qed.

Lemma stamp_reference_given ds r ds' rv :
  truthy r = true ->
  stamp_reference ds (Some r) = Ok (ds', rv) ->
  rv = Given r /\ file_meta ds' = file_meta ds
  /\ (forall k, In k series_fields ->
        exists v, getattr (elements r) k = Ok v /\ getattr (elements ds') k = Ok v)
  /\ (forall t : Tag, (forall k, In k series_fields -> t <> tag_for_keyword k) ->
        elements ds' !! t = elements ds !! t).
Proof.
  intros Ht. unfold stamp_reference. rewrite Ht.
  intros Hs.
  apply rbind_inv_Ok in Hs as [v1 [H1 Hs]].
  apply rbind_inv_Ok in Hs as [v2 [H2 Hs]].
  apply rbind_inv_Ok in Hs as [v3 [H3 Hs]].
  apply rbind_inv_Ok in Hs as [v4 [H4 Hs]].
  apply rbind_inv_Ok in Hs as [v5 [H5 Hs]].
  inversion Hs; subst ds' rv; clear Hs. simpl.
  split; [reflexivity|]. split; [reflexivity|]. split.
  - intros k Hk. unfold series_fields in Hk. simpl in Hk.
    destruct Hk as [<-|[<-|[<-|[<-|[<-|[]]]]]].
    + exists v1. split; [assumption|].
      repeat (rewrite getattr_setattr_ne by discriminate). apply getattr_setattr.
    + exists v2. split; [assumption|].
      repeat (rewrite getattr_setattr_ne by discriminate). apply getattr_setattr.
    + exists v3. split; [assumption|].
      repeat (rewrite getattr_setattr_ne by discriminate). apply getattr_setattr.
    + exists v4. split; [assumption|].
      repeat (rewrite getattr_setattr_ne by discriminate). apply getattr_setattr.
    + exists v5. split; [assumption|]. apply getattr_setattr.
  - intros t Ht'.
    repeat (rewrite setattr_lookup_ne by (apply Ht'; simpl; tauto)). reflexivity.
Qed.

Lemma normalize_instance_number_Ok ds ds' :
  normalize_instance_number ds = Ok ds' ->
  file_meta ds' = file_meta ds
  /\ (exists n, getattr (elements ds') InstanceNumber = Ok (VInt n)
        /\ match elements ds !! tag_for_keyword InstanceNumber with
           | Some e => py_int (value e) = Ok n
           | None => n = 1%Z
           end)
  /\ (forall t : Tag, t <> tag_for_keyword InstanceNumber ->
        elements ds' !! t = elements ds !! t).
Proof.
  unfold normalize_instance_number, contains, getattr.
  destruct (elements ds !! tag_for_keyword InstanceNumber) as [e|] eqn:He.
  - rewrite bool_decide_eq_true_2 by eauto. simpl.
    intros Hn. apply rbind_inv_Ok in Hn as [n [Hn Hd]].
    inversion Hd; subst ds'; clear Hd. simpl.
    split; [reflexivity|]. split.
    + exists n. split; [apply getattr_setattr|assumption].
    + intros t Ht. now apply setattr_lookup_ne.
  - rewrite bool_decide_eq_false_2 by (intros [? ?]; discriminate).
    intros Hd. inversion Hd; subst ds'; clear Hd. simpl.
    split; [reflexivity|]. split.
    + exists 1%Z. split; [apply getattr_setattr|reflexivity].
    + intros t Ht. now apply setattr_lookup_ne.
Qed.

(** The payload survives the two later blocks. *)
Lemma stamp_reference_meta ds ref ds' rv :
  stamp_reference ds ref = Ok (ds', rv) -> file_meta ds' = file_meta ds.
Proof.
  destruct (ref_truthy ref) eqn:Ht.
  - destruct ref as [r|]; [|discriminate]. simpl in Ht.
    intros Hs. now destruct (stamp_reference_given _ _ _ _ Ht Hs) as (_ & Hm & _).
  - rewrite stamp_reference_falsy by assumption. intros Hs. now inversion Hs.
Qed.

Lemma stamp_reference_other ds ref ds' rv (t : Tag) :
  stamp_reference ds ref = Ok (ds', rv) ->
  (forall k, In k series_fields -> t <> tag_for_keyword k) ->
  elements ds' !! t = elements ds !! t.
Proof.
  destruct (ref_truthy ref) eqn:Ht.
  - destruct ref as [r|]; [|discriminate]. simpl in Ht.
    intros Hs. destruct (stamp_reference_given _ _ _ _ Ht Hs) as (_ & _ & _ & Ho).
    apply Ho.
  - rewrite stamp_reference_falsy by assumption. intros Hs. now inversion Hs.
Qed.

End Blocks.

(** ** The converter *)

Section Converter.

Context `{Externals}.

Lemma explicit_not_compressed :
  value_in (VStr ExplicitVRLittleEndian) compressed_uids = false.
Proof. reflexivity. Qed.

(** What a successful run of the [try] block went through. *)
Lemma decompress_try_Ok fp op ref w w' r :
  decompress_try fp op ref w = (w', Ok r) ->
  exists ds0 arr ds1 ds2 rv ds3,
    fs w !! locate fp = Some (DicomFile ds0)
    /\ sitk_decode (DicomFile ds0) = Ok arr
    /\ set_pixel_data ds0 arr = Ok ds1
    /\ stamp_reference ds1 ref = Ok (ds2, rv)
    /\ normalize_instance_number ds2 = Ok ds3
    /\ save_fault w (set_transfer_syntax ds3) op = None
    /\ w' = log_to (write_to w (locate op) (DicomFile (set_transfer_syntax ds3)))
              DEBUG ("Decompressed and saved file: " +:+ op)
    /\ r = Some (deref rv (set_transfer_syntax ds3)).
Proof.
  unfold decompress_try. intros Hd.
  apply bind_inv_Ok in Hd as (w1 & ds0 & Hread & Hd).
  unfold dcmread in Hread.
  destruct (fs w !! locate fp) as [[ds|c]|] eqn:Hfs; inversion Hread; subst w1 ds0; clear Hread.
  apply bind_inv_Ok in Hd as (w1 & arr & Hdec & Hd).
  unfold sitk_read_array in Hdec. rewrite Hfs in Hdec.
  inversion Hdec as [[Hw Harr]]; subst w1; clear Hdec.
  apply bind_inv_Ok in Hd as (w1 & ds1 & Hpix & Hd).
  apply lift_inv in Hpix as [-> Hpix].
  apply bind_inv_Ok in Hd as (w1 & [ds2 rv] & Hst & Hd).
  apply lift_inv in Hst as [-> Hst].
  apply bind_inv_Ok in Hd as (w1 & ds3 & Hn & Hd).
  apply lift_inv in Hn as [-> Hn].
  apply bind_inv_Ok in Hd as (w1 & [] & Hsave & Hd).
  unfold save_as in Hsave.
  destruct (save_fault w (set_transfer_syntax ds3) op) as [fault|] eqn:Hsf.
  { destruct (leftover_file _ _); discriminate Hsave. }
  inversion Hsave; subst w1; clear Hsave.
  unfold bind, logging_debug, logging_at, ret in Hd. inversion Hd; subst w' r; clear Hd.
  exists ds, arr, ds1, ds2, rv, ds3. repeat split; auto.
Qed.

(** What a write that broke off left is part of what was to be written. *)
Lemma leftover_file_dicom ds l ds' :
  leftover_file ds l = Some (DicomFile ds') ->
  file_meta ds' = file_meta ds
  /\ forall (t : Tag) e, elements ds' !! t = Some e -> elements ds !! t = Some e.
Proof.
  destruct l as [|content|upto]; simpl; intros Hl; inversion Hl; subst ds'; clear Hl.
  split; [reflexivity|]. intros t e He. simpl in He.
  now apply map_lookup_filter_Some in He as [He _].
Qed.

(** The [try] block changes the files only by saving: it raises before
    the write, with nothing changed, or in the write, every step before it
    having gone through. *)
Lemma decompress_try_Raise_before_save fp op ref w w1 e :
  decompress_try fp op ref w = (w1, Raise e) ->
  w1 = w
  \/ exists ds0 arr ds1 ds2 rv ds3 l f,
       fs w !! locate fp = Some (DicomFile ds0)
       /\ sitk_decode (DicomFile ds0) = Ok arr
       /\ set_pixel_data ds0 arr = Ok ds1
       /\ stamp_reference ds1 ref = Ok (ds2, rv)
       /\ normalize_instance_number ds2 = Ok ds3
       /\ save_fault w (set_transfer_syntax ds3) op = Some (mkSaveFault e l)
       /\ leftover_file (set_transfer_syntax ds3) l = Some f
       /\ w1 = write_to w (locate op) f.
Proof.
  unfold decompress_try. intros Hd.
  apply bind_inv in Hd as [(w2 & ds0 & Hread & Hd)|(e' & Hread & _)].
  2:{ left. unfold dcmread in Hread.
      destruct (fs w !! locate fp) as [[ds|c]|]; now inversion Hread. }
  unfold dcmread in Hread.
  destruct (fs w !! locate fp) as [[ds|c]|] eqn:Hfs; inversion Hread; subst w2 ds0; clear Hread.
  apply bind_inv in Hd as [(w2 & arr & Hdec & Hd)|(e' & Hdec & _)].
  2:{ left. unfold sitk_read_array in Hdec. rewrite Hfs in Hdec. now inversion Hdec. }
  assert (w2 = w /\ sitk_decode (DicomFile ds) = Ok arr) as [-> Harr].
  { unfold sitk_read_array in Hdec. rewrite Hfs in Hdec. now inversion Hdec. }
  apply bind_inv in Hd as [(w2 & ds1 & Hpix & Hd)|(e' & Hpix & _)].
  2:{ left. now apply lift_inv in Hpix as [-> _]. }
  apply lift_inv in Hpix as [-> Hpix].
  apply bind_inv in Hd as [(w2 & [ds2 rv] & Hst & Hd)|(e' & Hst & _)].
  2:{ left. now apply lift_inv in Hst as [-> _]. }
  apply lift_inv in Hst as [-> Hst].
  apply bind_inv in Hd as [(w2 & ds3 & Hn & Hd)|(e' & Hn & _)].
  2:{ left. now apply lift_inv in Hn as [-> _]. }
  apply lift_inv in Hn as [-> Hn].
  apply bind_inv in Hd as [(w2 & [] & Hsave & Hd)|(e' & Hsave & He)].
  - unfold bind, logging_debug, logging_at, ret in Hd. discriminate Hd.
  - inversion He; subst e'; clear He. unfold save_as in Hsave.
    destruct (save_fault w (set_transfer_syntax ds3) op) as [[e' l]|] eqn:Hsf;
      [|discriminate Hsave].
    simpl in Hsave.
    destruct (leftover_file (set_transfer_syntax ds3) l) as [f|] eqn:Hl;
      inversion Hsave; subst; [right|now left].
    exists ds, arr, ds1, ds2, rv, ds3, l, f. repeat split; auto.
Qed.

(** The steps at which the [try] block raises: the read, the decoding,
    the update of the metadata (the fields of the reference, the instance
    number), the write. *)
Lemma read_failure_raises fp op ref w e :
  dcmread fp false w = (w, Raise e) ->
  decompress_try fp op ref w = (w, Raise e).
Proof. intros Hr. unfold decompress_try. now rewrite (bind_Raise _ _ _ _ _ Hr). Qed.

Lemma dcmread_Ok fp w ds0 :
  fs w !! locate fp = Some (DicomFile ds0) -> dcmread fp false w = (w, Ok ds0).
Proof. intros Hfs. unfold dcmread. now rewrite Hfs. Qed.

Lemma sitk_read_array_eq fp w f :
  fs w !! locate fp = Some f -> sitk_read_array fp w = (w, sitk_decode f).
Proof. intros Hfs. unfold sitk_read_array. now rewrite Hfs. Qed.

Lemma decode_failure_raises fp op ref w ds0 e :
  fs w !! locate fp = Some (DicomFile ds0) ->
  sitk_decode (DicomFile ds0) = Raise e ->
  decompress_try fp op ref w = (w, Raise e).
Proof.
  intros Hfs Hdec. unfold decompress_try.
  rewrite (bind_Ok _ _ _ _ _ (dcmread_Ok _ _ _ Hfs)).
  apply bind_Raise. now rewrite (sitk_read_array_eq _ _ _ Hfs), Hdec.
Qed.

Lemma metadata_failure_raises fp op ref w ds0 arr ds1 e :
  fs w !! locate fp = Some (DicomFile ds0) ->
  sitk_decode (DicomFile ds0) = Ok arr ->
  set_pixel_data ds0 arr = Ok ds1 ->
  (stamp_reference ds1 ref = Raise e
   \/ exists ds2 rv, stamp_reference ds1 ref = Ok (ds2, rv)
                     /\ normalize_instance_number ds2 = Raise e) ->
  decompress_try fp op ref w = (w, Raise e).
Proof.
  intros Hfs Hdec Hpix Hmeta. unfold decompress_try.
  rewrite (bind_Ok _ _ _ _ _ (dcmread_Ok _ _ _ Hfs)).
  rewrite (bind_Ok _ _ w w arr) by now rewrite (sitk_read_array_eq _ _ _ Hfs), Hdec.
  rewrite (bind_Ok _ _ w w ds1) by (unfold lift; now rewrite Hpix).
  destruct Hmeta as [Hst|(ds2 & rv & Hst & Hn)].
  - apply bind_Raise. unfold lift. now rewrite Hst.
  - rewrite (bind_Ok _ _ w w (ds2, rv)) by (unfold lift; now rewrite Hst).
    apply bind_Raise. unfold lift. now rewrite Hn.
Qed.

Lemma write_failure_raises fp op ref w w1 ds0 arr ds1 ds2 rv ds3 e :
  fs w !! locate fp = Some (DicomFile ds0) ->
  sitk_decode (DicomFile ds0) = Ok arr ->
  set_pixel_data ds0 arr = Ok ds1 ->
  stamp_reference ds1 ref = Ok (ds2, rv) ->
  normalize_instance_number ds2 = Ok ds3 ->
  save_as (set_transfer_syntax ds3) op w = (w1, Raise e) ->
  decompress_try fp op ref w = (w1, Raise e).
Proof.
  intros Hfs Hdec Hpix Hst Hn Hsave. unfold decompress_try.
  rewrite (bind_Ok _ _ _ _ _ (dcmread_Ok _ _ _ Hfs)).
  rewrite (bind_Ok _ _ w w arr) by now rewrite (sitk_read_array_eq _ _ _ Hfs), Hdec.
  rewrite (bind_Ok _ _ w w ds1) by (unfold lift; now rewrite Hpix).
  rewrite (bind_Ok _ _ w w (ds2, rv)) by (unfold lift; now rewrite Hst).
  rewrite (bind_Ok _ _ w w ds3) by (unfold lift; now rewrite Hn).
  now apply bind_Raise.
Qed.

Lemma decompress_and_save_unfold fp op ref w :
  decompress_and_save_with_metadata fp op ref w =
  match decompress_try fp op ref (call_to w (mkCall fp op ref)) with
  | (w', Ok a) => (w', Ok a)
  | (w', Raise e) => (log_to w' ERROR (failure_message fp e), Ok None)
  end.
Proof. reflexivity. Qed.

(** The two ways the converter returns. *)
Lemma decompress_and_save_cases fp op ref w :
  let wc := call_to w (mkCall fp op ref) in
  (exists w' r, decompress_try fp op ref wc = (w', Ok (Some r))
                /\ decompress_and_save_with_metadata fp op ref w = (w', Ok (Some r)))
  \/ (exists w1 e, decompress_try fp op ref wc = (w1, Raise e)
                   /\ decompress_and_save_with_metadata fp op ref w
                      = (log_to w1 ERROR (failure_message fp e), Ok None)).
Proof.
  intros wc. subst wc. rewrite decompress_and_save_unfold.
  destruct (decompress_try fp op ref _) as [w' [r|e]] eqn:Hd.
  - left. destruct (decompress_try_Ok _ _ _ _ _ _ Hd) as (?&?&?&?&?&?&_&_&_&_&_&_&_&->).
    eauto.
  - right. exists w', e. split; reflexivity.
Qed.

Lemma decompress_and_save_Some fp op ref w w' r :
  decompress_and_save_with_metadata fp op ref w = (w', Ok (Some r)) ->
  decompress_try fp op ref (call_to w (mkCall fp op ref)) = (w', Ok (Some r)).
Proof.
  intros Hd.
  destruct (decompress_and_save_cases fp op ref w) as [(w2 & r2 & Ht & Hs)|(w2 & e & Ht & Hs)];
    rewrite Hs in Hd; inversion Hd; subst. exact Ht.
Qed.

(** On success: the input that was read and the dataset that was saved. *)
Lemma conversion_success fp op ref w w' r :
  decompress_and_save_with_metadata fp op ref w = (w', Ok (Some r)) ->
  exists ds0 arr ds1 ds2 rv ds3,
    fs w !! locate fp = Some (DicomFile ds0)
    /\ sitk_decode (DicomFile ds0) = Ok arr
    /\ set_pixel_data ds0 arr = Ok ds1
    /\ stamp_reference ds1 ref = Ok (ds2, rv)
    /\ normalize_instance_number ds2 = Ok ds3
    /\ fs w' = <[locate op := DicomFile (set_transfer_syntax ds3)]> (fs w)
    /\ r = deref rv (set_transfer_syntax ds3).
Proof.
  intros Hd. apply decompress_and_save_Some in Hd.
  apply decompress_try_Ok in Hd as (ds0&arr&ds1&ds2&rv&ds3&H0&H1&H2&H3&H4&_&Hw&Hr).
  exists ds0, arr, ds1, ds2, rv, ds3. repeat split; auto.
  - subst w'. reflexivity.
  - now inversion Hr.
Qed.

Lemma is_compressed_on_dicom fp w ds v :
  fs w !! locate fp = Some (DicomFile ds) ->
  getattr (file_meta ds) TransferSyntaxUID = Ok v ->
  is_compressed fp w = (w, Ok (value_in v compressed_uids)).
Proof.
  intros Hfs Hv. unfold is_compressed, try_except, bind, dcmread, lift, ret.
  rewrite Hfs. simpl. now rewrite Hv.
Qed.

(** C1. Whenever the converter succeeds, the file it wrote carries the
    explicit-VR little-endian transfer syntax, which is not one of the
    compressed identifiers: [is_compressed] answers no on the output. *)
Theorem converted_output_is_uncompressed fp op ref w w' r :
  decompress_and_save_with_metadata fp op ref w = (w', Ok (Some r)) ->
  exists ds',
    fs w' !! locate op = Some (DicomFile ds')
    /\ getattr (file_meta ds') TransferSyntaxUID = Ok (VStr ExplicitVRLittleEndian)
    /\ value_in (VStr ExplicitVRLittleEndian) compressed_uids = false
    /\ is_compressed op w' = (w', Ok false).
Proof.
  intros Hd. apply conversion_success in Hd as (ds0&arr&ds1&ds2&rv&ds3&_&_&_&_&_&Hfs&_).
  exists (set_transfer_syntax ds3).
  assert (Hl : fs w' !! locate op = Some (DicomFile (set_transfer_syntax ds3))).
  { rewrite Hfs. apply lookup_insert_eq. }
  assert (Hg : getattr (file_meta (set_transfer_syntax ds3)) TransferSyntaxUID
               = Ok (VStr ExplicitVRLittleEndian)).
  { unfold set_transfer_syntax. simpl. apply getattr_setattr. }
  split; [exact Hl|]. split; [exact Hg|]. split; [reflexivity|].
  rewrite (is_compressed_on_dicom _ _ _ _ Hl Hg). reflexivity.
Qed.

End Converter.

Section ConverterClaims.

Context `{Externals}.

Lemma pixel_VR_width a :
  pixel_VR a = if (itemsize_bits (dtype a) =? 16)%N then "OW" else "OB".
Proof. unfold pixel_VR. now destruct (dtype a). Qed.

Lemma sixteen_bit_dtypes d :
  itemsize_bits d = 16%N <-> d = uint16 \/ d = int16.
Proof.
  split.
  - destruct d; simpl; intros Hd; try discriminate Hd; auto.
  - now intros [-> | ->].
Qed.

Lemma series_tag_not_pixel k :
  In k series_fields -> tag_for_keyword PixelData <> tag_for_keyword k.
Proof.
  intros Hk Heq. apply tag_for_keyword_inj in Heq. subst k.
  simpl in Hk. intuition discriminate.
Qed.

Lemma series_tag_not_instance k :
  In k series_fields -> tag_for_keyword InstanceNumber <> tag_for_keyword k.
Proof.
  intros Hk Heq. apply tag_for_keyword_inj in Heq. subst k.
  simpl in Hk. intuition discriminate.
Qed.

(** C7. On success the payload element of the output holds the bytes of
    the decoded array, with VR "OW" when the samples are 16 bits wide
    (dtype uint16 or int16) and "OB" for every other width. *)
Theorem pixel_VR_follows_sample_width fp op ref w w' r :
  decompress_and_save_with_metadata fp op ref w = (w', Ok (Some r)) ->
  exists ds0 arr ds' e,
    fs w !! locate fp = Some (DicomFile ds0)
    /\ sitk_decode (DicomFile ds0) = Ok arr
    /\ fs w' !! locate op = Some (DicomFile ds')
    /\ elements ds' !! ((0x7FE0, 0x0010)%N : Tag) = Some e
    /\ value e = VBytes (tobytes arr)
    /\ VR e = (if (itemsize_bits (dtype arr) =? 16)%N then "OW" else "OB")
    /\ (itemsize_bits (dtype arr) = 16%N <-> dtype arr = uint16 \/ dtype arr = int16).
Proof.
  intros Hd.
  apply conversion_success in Hd as (ds0&arr&ds1&ds2&rv&ds3&H0&H1&H2&H3&H4&Hfs&_).
  exists ds0, arr, (set_transfer_syntax ds3),
         (mkElem (pixel_VR arr) (VBytes (tobytes arr))).
  split; [exact H0|]. split; [exact H1|].
  split; [rewrite Hfs; apply lookup_insert_eq|].
  split.
  - change (0x7FE0, 0x0010)%N with (tag_for_keyword PixelData).
    unfold set_transfer_syntax. simpl elements.
    destruct (normalize_instance_number_Ok _ _ H4) as (_ & _ & Hother).
    rewrite Hother by discriminate.
    rewrite (stamp_reference_other _ _ _ _ _ H3) by apply series_tag_not_pixel.
    rewrite set_pixel_data_eq in H2. inversion H2; subst ds1. simpl.
    apply lookup_insert_eq.
  - split; [reflexivity|]. split; [apply pixel_VR_width|apply sixteen_bit_dtypes].
Qed.

(** C6. On success the instance number of the output is an integer: the
    value [int] made of the input's instance number when the input had
    one, and 1 when it had none. *)
Theorem instance_number_is_integer fp op ref w w' r :
  decompress_and_save_with_metadata fp op ref w = (w', Ok (Some r)) ->
  exists ds0 ds' n,
    fs w !! locate fp = Some (DicomFile ds0)
    /\ fs w' !! locate op = Some (DicomFile ds')
    /\ getattr (elements ds') InstanceNumber = Ok (VInt n)
    /\ match elements ds0 !! tag_for_keyword InstanceNumber with
       | Some e => py_int (value e) = Ok n
       | None => n = 1%Z
       end.
Proof.
  intros Hd.
  apply conversion_success in Hd as (ds0&arr&ds1&ds2&rv&ds3&H0&H1&H2&H3&H4&Hfs&_).
  destruct (normalize_instance_number_Ok _ _ H4) as (_ & (n & Hn & Hin) & _).
  exists ds0, (set_transfer_syntax ds3), n.
  split; [exact H0|]. split; [rewrite Hfs; apply lookup_insert_eq|].
  split; [exact Hn|].
  rewrite (stamp_reference_other _ _ _ _ _ H3) in Hin by apply series_tag_not_instance.
  rewrite set_pixel_data_eq in H2. inversion H2; subst ds1. simpl in Hin.
  rewrite lookup_insert_ne in Hin by discriminate. exact Hin.
Qed.

(** A reference that holds a field passes the test [if reference_metadata:]. *)
Lemma snapshot_truthy given k :
  contains (elements given) k = true -> truthy given = true.
Proof.
  intros Hc. apply contains_spec in Hc as [e He].
  unfold truthy. apply negb_true_iff, bool_decide_eq_false. intros Hempty.
  rewrite Hempty, lookup_empty in He. discriminate.
Qed.

(** C5. On success, a call given a reference that passes the test
    [if reference_metadata:] (as every reference holding one of the series
    fields does, and every snapshot a conversion returned) returns that
    reference and writes a dataset whose five series fields hold the
    reference's values, every element other than these, the instance
    number and the payload being the input's; a call given no reference
    (or an empty one) returns the very dataset it wrote, whose series
    fields are the input's own. *)
Theorem reference_stamping fp op ref w w' r :
  decompress_and_save_with_metadata fp op ref w = (w', Ok (Some r)) ->
  exists ds0 ds',
    fs w !! locate fp = Some (DicomFile ds0)
    /\ fs w' !! locate op = Some (DicomFile ds')
    /\ (forall given k, ref = Some given -> In k series_fields ->
          contains (elements given) k = true -> ref_truthy ref = true)
    /\ ref_truthy (Some r) = true
    /\ match ref with
       | Some given =>
           if truthy given then
             r = given
             /\ (forall k, In k series_fields ->
                   exists v, getattr (elements given) k = Ok v
                             /\ getattr (elements ds') k = Ok v)
             /\ (forall t : Tag,
                   (forall k, In k series_fields -> t <> tag_for_keyword k) ->
                   t <> tag_for_keyword InstanceNumber ->
                   t <> tag_for_keyword PixelData ->
                   elements ds' !! t = elements ds0 !! t)
           else
             r = ds'
             /\ (forall k, In k series_fields ->
                   elements ds' !! tag_for_keyword k = elements ds0 !! tag_for_keyword k)
       | None =>
           r = ds'
           /\ (forall k, In k series_fields ->
                 elements ds' !! tag_for_keyword k = elements ds0 !! tag_for_keyword k)
       end.
Proof.
  intros Hd.
  apply conversion_success in Hd as (ds0&arr&ds1&ds2&rv&ds3&H0&H1&H2&H3&H4&Hfs&Hr).
  exists ds0, (set_transfer_syntax ds3).
  split; [exact H0|]. split; [rewrite Hfs; apply lookup_insert_eq|].
  split.
  { intros given k -> _ Hc. simpl. now apply (snapshot_truthy given k). }
  destruct (normalize_instance_number_Ok _ _ H4) as (_ & (n & Hnum & _) & Hn).
  split.
  { simpl. subst r. destruct (ref_truthy ref) eqn:Ht.
    - destruct ref as [given|]; [|discriminate Ht]. simpl in Ht.
      destruct (stamp_reference_given _ _ _ _ Ht H3) as (-> & _). exact Ht.
    - rewrite stamp_reference_falsy in H3 by exact Ht. inversion H3; subst ds2 rv.
      apply (snapshot_truthy _ InstanceNumber). apply contains_spec.
      apply getattr_Ok in Hnum as (e & He & _). unfold set_transfer_syntax. simpl. eauto. }
  rewrite set_pixel_data_eq in H2. inversion H2; subst ds1; clear H2.
  assert (Hown : ref_truthy ref = false ->
            r = set_transfer_syntax ds3
            /\ (forall k, In k series_fields ->
                  elements (set_transfer_syntax ds3) !! tag_for_keyword k
                  = elements ds0 !! tag_for_keyword k)).
  { intros Hf. rewrite stamp_reference_falsy in H3 by exact Hf.
    inversion H3; subst ds2 rv; clear H3. simpl in Hr.
    split; [exact Hr|].
    intros k Hk. unfold set_transfer_syntax. simpl elements.
    rewrite Hn.
    + simpl. apply lookup_insert_ne. now apply series_tag_not_pixel.
    + intros Heq. symmetry in Heq. now apply series_tag_not_instance in Heq. }
  destruct ref as [given|]; [|now apply Hown].
  destruct (truthy given) eqn:Ht; [|now apply Hown].
  destruct (stamp_reference_given _ _ _ _ Ht H3) as (-> & _ & Hfive & Hother).
  split; [exact Hr|]. split.
  - intros k Hk. destruct (Hfive k Hk) as (v & Hg & Hv).
    exists v. split; [exact Hg|].
    apply getattr_Ok in Hv as (e & He & Hval). apply getattr_Ok. exists e.
    split; [|exact Hval]. unfold set_transfer_syntax. simpl elements.
    rewrite Hn; [exact He|]. intros Heq. symmetry in Heq.
    now apply series_tag_not_instance in Heq.
  - intros t Hs Hi Hp. unfold set_transfer_syntax. simpl elements.
    rewrite Hn by exact Hi. rewrite Hother by exact Hs. simpl.
    now apply lookup_insert_ne.
Qed.

(** C10. When the input has an instance number [int] cannot make an
    integer of, the conversion fails as a whole: the converter returns
    [None] after logging one error, and no file is written; the error is
    the coercion error whenever the steps before it went through. *)
Theorem bad_instance_number_fails fp op ref w ds0 e0 err :
  fs w !! locate fp = Some (DicomFile ds0) ->
  elements ds0 !! tag_for_keyword InstanceNumber = Some e0 ->
  py_int (value e0) = Raise err ->
  exists w' e,
    decompress_and_save_with_metadata fp op ref w = (w', Ok None)
    /\ fs w' = fs w
    /\ log w' = (log w ++ [(ERROR, failure_message fp e)])%list
    /\ (forall arr ds1 ds2 rv,
          sitk_decode (DicomFile ds0) = Ok arr ->
          set_pixel_data ds0 arr = Ok ds1 ->
          stamp_reference ds1 ref = Ok (ds2, rv) ->
          e = err).
Proof.
  intros Hfs Hin Herr.
  rewrite decompress_and_save_unfold.
  set (wc := call_to w (mkCall fp op ref)).
  assert (Hfc : fs wc !! locate fp = Some (DicomFile ds0)) by exact Hfs.
  unfold decompress_try, bind at 1, dcmread. rewrite Hfc.
  unfold bind at 1, sitk_read_array. rewrite Hfc.
  destruct (sitk_decode (DicomFile ds0)) as [arr|e1] eqn:Hdec.
  2:{ exists (log_to wc ERROR (failure_message fp e1)), e1.
      repeat split; auto. intros; discriminate. }
  unfold bind at 1, lift.
  rewrite set_pixel_data_eq.
  set (ds1 := mkDataset _ _).
  unfold bind at 1.
  destruct (stamp_reference ds1 ref) as [[ds2 rv]|e2] eqn:Hst.
  2:{ exists (log_to wc ERROR (failure_message fp e2)), e2.
      repeat split; auto. intros arr' ds1' ds2' rv' Hd' Hp Hs.
      inversion Hd'; subst arr'.
      rewrite set_pixel_data_eq in Hp. fold ds1 in Hp. congruence. }
  assert (Hin2 : elements ds2 !! tag_for_keyword InstanceNumber = Some e0).
  { rewrite (stamp_reference_other _ _ _ _ _ Hst) by apply series_tag_not_instance.
    subst ds1. simpl. rewrite lookup_insert_ne by discriminate. exact Hin. }
  assert (Hnorm : normalize_instance_number ds2 = Raise err).
  { unfold normalize_instance_number, contains, getattr. rewrite Hin2.
    rewrite bool_decide_eq_true_2 by eauto. simpl. now rewrite Herr. }
  unfold bind at 1. rewrite Hnorm.
  exists (log_to wc ERROR (failure_message fp err)), err.
  repeat split; auto.
Qed.

(** An exception of the [try] block never leaves the converter. *)
Lemma converter_never_raises fp op ref w :
  exists w' r, decompress_and_save_with_metadata fp op ref w = (w', Ok r).
Proof.
  destruct (decompress_and_save_cases fp op ref w) as [(w'&r&_&Hs)|(w1&e&_&Hs)];
    rewrite Hs; eauto.
Qed.

(** The call is recorded first, and nothing else is added to [calls]. *)
Lemma decompress_and_save_calls fp op ref w w' r :
  decompress_and_save_with_metadata fp op ref w = (w', r) ->
  calls w' = (calls w ++ [mkCall fp op ref])%list /\ dirs w' = dirs w.
Proof.
  intros Hd.
  destruct (decompress_and_save_cases fp op ref w) as [(w2&r2&Ht&Hs)|(w2&e&Ht&Hs)];
    rewrite Hs in Hd; inversion Hd; subst; clear Hd.
  - apply decompress_try_Ok in Ht as (?&?&?&?&?&?&_&_&_&_&_&_&->&_). split; reflexivity.
  - apply decompress_try_Raise_before_save in Ht
      as [->|(?&?&?&?&?&?&?&f&_&_&_&_&_&_&_&->)]; split; reflexivity.
Qed.

(** The converter changes no file but the one at its output path. *)
Lemma decompress_and_save_frame fp op ref w w' r loc :
  decompress_and_save_with_metadata fp op ref w = (w', r) ->
  loc <> locate op -> fs w' !! loc = fs w !! loc.
Proof.
  intros Hd Hne.
  destruct (decompress_and_save_cases fp op ref w) as [(w2&r2&Ht&Hs)|(w2&e&Ht&Hs)];
    rewrite Hs in Hd; inversion Hd; subst; clear Hd.
  - apply decompress_try_Ok in Ht as (?&?&?&?&?&?&_&_&_&_&_&_&->&_). simpl.
    now apply lookup_insert_ne.
  - apply decompress_try_Raise_before_save in Ht
      as [->|(?&?&?&?&?&?&?&f&_&_&_&_&_&_&_&->)]; simpl;
      [reflexivity|now apply lookup_insert_ne].
Qed.

End ConverterClaims.

(** ** The classifier *)

Section Classifier.

Context `{Externals}.

Lemma value_in_true v l :
  value_in v l = true <-> exists s, v = VStr s /\ In s l.
Proof.
  destruct v; simpl; try (split; [discriminate|intros (s' & Hs & _); discriminate]).
  rewrite existsb_exists. split.
  - intros (x & Hx & Heq). apply String.eqb_eq in Heq. subst x. eauto.
  - intros (s' & Hs & Hin). inversion Hs; subst s'. exists s. split; [assumption|].
    apply String.eqb_refl.
Qed.

(** The three ways the classifier returns. *)
Lemma is_compressed_cases fp w :
  (exists ds v, fs w !! locate fp = Some (DicomFile ds)
                /\ getattr (file_meta ds) TransferSyntaxUID = Ok v
                /\ is_compressed fp w = (w, Ok (value_in v compressed_uids)))
  \/ (exists e, (forall ds v, fs w !! locate fp = Some (DicomFile ds) ->
                              getattr (file_meta ds) TransferSyntaxUID <> Ok v)
                /\ is_compressed fp w = (log_to w ERROR (read_error_message fp e), Ok false)).
Proof.
  unfold is_compressed, try_except, bind, dcmread, lift, ret, logging_error, logging_at,
    read_error_message.
  destruct (fs w !! locate fp) as [[ds|c]|] eqn:Hfs.
  - simpl file_meta.
    destruct (getattr (file_meta ds) TransferSyntaxUID) as [v|e] eqn:Hv.
    + left. exists ds, v. auto.
    + right. exists e. split; [|reflexivity].
      intros ds' v' Hds. inversion Hds; subst ds'. congruence.
  - right. eexists. split; [|reflexivity]. intros ds v Hds. discriminate.
  - right. eexists. split; [|reflexivity]. intros ds v Hds. discriminate.
Qed.

Lemma is_compressed_true fp w w' :
  is_compressed fp w = (w', Ok true) -> w' = w /\ compressed_at w (locate fp).
Proof.
  intros Hc.
  destruct (is_compressed_cases fp w) as [(ds & v & Hfs & Hv & Hi)|(e & _ & Hi)];
    rewrite Hi in Hc; [|discriminate Hc].
  injection Hc as Hw Hb. split; [now symmetry|].
  apply value_in_true in Hb as (uid & -> & Hin). exists ds, uid. auto.
Qed.

Lemma compressed_at_is_compressed fp w :
  compressed_at w (locate fp) -> is_compressed fp w = (w, Ok true).
Proof.
  intros (ds & uid & Hfs & Hv & Hin).
  rewrite (is_compressed_on_dicom _ _ _ _ Hfs Hv).
  assert (value_in (VStr uid) compressed_uids = true) as ->; [|reflexivity].
  apply value_in_true. eauto.
Qed.

(** The classifier never raises and touches nothing but the log. *)
Lemma is_compressed_total fp w :
  exists w' b, is_compressed fp w = (w', Ok b)
               /\ fs w' = fs w /\ calls w' = calls w /\ dirs w' = dirs w.
Proof.
  destruct (is_compressed_cases fp w) as [(ds & v & _ & _ & Hi)|(e & _ & Hi)];
    rewrite Hi; eauto 10.
Qed.

(** C2. [is_compressed] always returns, without touching a file.  It
    returns true exactly when the file parses, its header has a transfer
    syntax, and that identifier is in [compressed_uids]; when the header
    cannot be read (no such file, not a DICOM file, no transfer syntax in
    the header) it logs one error naming the path and returns false. *)
Theorem is_compressed_spec fp w :
  (exists w' b, is_compressed fp w = (w', Ok b) /\ fs w' = fs w)
  /\ ((exists w', is_compressed fp w = (w', Ok true)) <->
      (exists ds uid, fs w !! locate fp = Some (DicomFile ds)
                      /\ getattr (file_meta ds) TransferSyntaxUID = Ok (VStr uid)
                      /\ In uid compressed_uids))
  /\ ((forall ds v, fs w !! locate fp = Some (DicomFile ds) ->
                    getattr (file_meta ds) TransferSyntaxUID <> Ok v) ->
      exists e, is_compressed fp w
                = (log_to w ERROR ("Error reading file " +:+ fp +:+ ": " +:+ str_exn e),
                   Ok false)).
Proof.
  split; [|split].
  - destruct (is_compressed_total fp w) as (w' & b & Hi & Hfs & _). eauto.
  - split.
    + intros (w' & Hi). now apply is_compressed_true in Hi as [_ Hc].
    + intros Hc. exists w. now apply compressed_at_is_compressed.
  - intros Hno.
    destruct (is_compressed_cases fp w) as [(ds & v & Hfs & Hv & _)|(e & _ & Hi)].
    + exfalso. exact (Hno ds v Hfs Hv).
    + exists e. exact Hi.
Qed.

End Classifier.

(** ** The walker *)

Section Walker.

Context `{Externals}.

Lemma walked_refl P w : walked P w w.
Proof.
  exists []. rewrite app_nil_r. repeat split; auto.
Qed.

Lemma walked_trans P w1 w2 w3 :
  walked P w1 w2 -> walked P w2 w3 -> walked P w1 w3.
Proof.
  intros (cs1 & Hc1 & HP1 & Hf1 & Hm1) (cs2 & Hc2 & HP2 & Hf2 & Hm2).
  exists (cs1 ++ cs2)%list. split; [|split; [|split]].
  - rewrite Hc2, Hc1. now rewrite <- app_assoc.
  - apply Forall_app. auto.
  - intros loc Hloc. rewrite Hf2, Hf1; [reflexivity| |];
      intros c Hc; apply Hloc, in_or_app; auto.
  - auto.
Qed.

(** A change of the log or of the directories is no step at all. *)
Lemma walked_same P w w' :
  fs w' = fs w -> calls w' = calls w -> walked P w w'.
Proof.
  intros Hfs Hcalls. exists []. rewrite app_nil_r. repeat split; auto.
  - intros loc _. now rewrite Hfs.
  - unfold compressed_at. now rewrite Hfs.
Qed.

(** What the converter leaves at its output location: a file that, if
    it parses, has the uncompressed transfer syntax. *)
Lemma decompress_and_save_fs fp op ref w w' r :
  decompress_and_save_with_metadata fp op ref w = (w', r) ->
  fs w' = fs w
  \/ exists f, fs w' = <[locate op := f]> (fs w)
       /\ forall ds, f = DicomFile ds ->
            getattr (file_meta ds) TransferSyntaxUID = Ok (VStr ExplicitVRLittleEndian).
Proof.
  intros Hd.
  destruct (decompress_and_save_cases fp op ref w) as [(w2&r2&Ht&Hs)|(w2&e&Ht&Hs)];
    rewrite Hs in Hd; inversion Hd; subst; clear Hd.
  - apply decompress_try_Ok in Ht as (?&?&?&?&?&ds3&_&_&_&_&_&_&->&_).
    right. exists (DicomFile (set_transfer_syntax ds3)). split; [reflexivity|].
    intros ds Hds. inversion Hds; subst ds.
    unfold set_transfer_syntax. simpl. apply getattr_setattr.
  - apply decompress_try_Raise_before_save in Ht
      as [->|(?&?&?&?&?&ds3&l&f&_&_&_&_&_&_&Hl&->)].
    + now left.
    + right. exists f. split; [reflexivity|].
      intros ds Hds. subst f. apply leftover_file_dicom in Hl as [Hmeta _].
      rewrite Hmeta. unfold set_transfer_syntax. simpl. apply getattr_setattr.
Qed.

Lemma decompress_and_save_mono fp op ref w w' r loc :
  decompress_and_save_with_metadata fp op ref w = (w', r) ->
  compressed_at w' loc -> compressed_at w loc.
Proof.
  intros Hd (ds & uid & Hfs & Hv & Hin).
  apply decompress_and_save_fs in Hd as [Heq|(f & Heq & Hts)];
    rewrite Heq in Hfs.
  - exists ds, uid. auto.
  - destruct (decide (locate op = loc)) as [<-|Hne].
    + rewrite lookup_insert_eq in Hfs. inversion Hfs; subst f.
      rewrite (Hts ds eq_refl) in Hv. inversion Hv; subst uid.
      exfalso. revert Hin. clear. vm_compute. intuition discriminate.
    + rewrite lookup_insert_ne in Hfs by exact Hne. exists ds, uid. auto.
Qed.

Lemma output_path_of_inv input_dir output_dir fp w wo r :
  output_path_of input_dir output_dir fp w = (wo, r) ->
  fs wo = fs w /\ calls wo = calls w /\ log wo = log w
  /\ (str_truthy output_dir = false -> wo = w /\ r = Ok fp)
  /\ (forall op, r = Ok op ->
        mirrored_path input_dir output_dir fp = Some op
        /\ (str_truthy output_dir = true ->
              locate (posixpath.dirname op) ∈ dirs wo)).
Proof.
  unfold output_path_of, mirrored_path.
  destruct output_dir as [out|].
  2:{ intros Ho. inversion Ho; subst. repeat split; auto. congruence. discriminate. }
  destruct (str_truthy (Some out)) eqn:Ht.
  2:{ intros Ho. inversion Ho; subst. repeat split; auto. congruence. discriminate. }
  unfold relpath, bind at 1, lift.
  destruct (posixpath.relpath getcwd fp input_dir) as [rel|].
  2:{ intros Ho. inversion Ho; subst. repeat split; auto; discriminate. }
  unfold bind, makedirs, ret.
  destruct (makedirs_fault w _) as [e|].
  { intros Ho. inversion Ho; subst. repeat split; auto; discriminate. }
  intros Ho. inversion Ho; subst; clear Ho.
  split; [reflexivity|]. split; [reflexivity|]. split; [reflexivity|].
  split; [discriminate|].
  intros op Hop. inversion Hop; subst op; clear Hop. split; [reflexivity|].
  intros _. simpl. apply elem_of_union_r.
  apply elem_of_list_to_set. destruct (String.length _); simpl; left.
Qed.

(** The four ways one visit goes. *)
Lemma process_file_cases input_dir output_dir root file w :
  let fp := posixpath.join root file in
  (matches fp = false /\ process_file input_dir output_dir root file w = (w, Ok tt))
  \/ (matches fp = true
      /\ exists wi, is_compressed fp w = (wi, Ok false)
           /\ process_file input_dir output_dir root file w
              = (log_to wi DEBUG ("File is already uncompressed: " +:+ fp), Ok tt))
  \/ (matches fp = true
      /\ is_compressed fp w = (w, Ok true)
      /\ exists wo e,
           output_path_of input_dir output_dir fp
             (log_to w DEBUG ("Compressed file found: " +:+ fp)) = (wo, Raise e)
           /\ process_file input_dir output_dir root file w = (wo, Raise e))
  \/ (matches fp = true
      /\ is_compressed fp w = (w, Ok true)
      /\ exists wo op w' r,
           output_path_of input_dir output_dir fp
             (log_to w DEBUG ("Compressed file found: " +:+ fp)) = (wo, Ok op)
           /\ decompress_and_save_with_metadata fp op None wo = (w', Ok r)
           /\ process_file input_dir output_dir root file w = (w', Ok tt)).
Proof.
  intros fp. unfold process_file. fold fp. fold (matches fp).
  destruct (matches fp) eqn:Hm; [|left; auto].
  right.
  destruct (is_compressed_total fp w) as (wi & b & Hi & _).
  rewrite (bind_Ok _ _ _ _ _ Hi). destruct b.
  - right. apply is_compressed_true in Hi as Hw. destruct Hw as [-> _].
    rewrite (bind_Ok (logging_debug _) _ w _ tt eq_refl).
    destruct (output_path_of input_dir output_dir fp _) as [wo [op|e]] eqn:Ho.
    + right. split; [reflexivity|]. split; [exact Hi|].
      destruct (converter_never_raises fp op None wo) as (w' & r & Hd).
      exists wo, op, w', r. split; [reflexivity|]. split; [exact Hd|].
      rewrite (bind_Ok _ _ _ _ _ Ho). rewrite (bind_Ok _ _ _ _ _ Hd). reflexivity.
    + left. split; [reflexivity|]. split; [exact Hi|]. exists wo, e.
      split; [reflexivity|]. now rewrite (bind_Raise _ _ _ _ _ Ho).
  - left. split; [reflexivity|]. exists wi. auto.
Qed.

(** One visit is a step of the walk. *)
Lemma process_file_walked input_dir output_dir (E : string -> string -> Prop)
      w0 root file w w' r :
  E root file ->
  (forall loc, compressed_at w loc -> compressed_at w0 loc) ->
  process_file input_dir output_dir root file w = (w', r) ->
  walked (walker_call input_dir output_dir E w0) w w'.
Proof.
  intros HE Hmono Hp.
  destruct (process_file_cases input_dir output_dir root file w)
    as [(Hm & Hq)|[(Hm & wi & Hi & Hq)|[(Hm & Hi & wo & e & Ho & Hq)
       |(Hm & Hi & wo & op & w2 & r2 & Ho & Hd & Hq)]]];
    rewrite Hq in Hp; inversion Hp; subst; clear Hp.
  - apply walked_refl.
  - destruct (is_compressed_total (posixpath.join root file) w) as (wi' & b & Hi' & Hfs & Hc & _).
    rewrite Hi in Hi'. inversion Hi'; subst wi' b. now apply walked_same.
  - apply output_path_of_inv in Ho as (Hfs & Hc & _). now apply walked_same.
  - apply output_path_of_inv in Ho as (Hfs & Hc & _ & _ & Hop).
    destruct (Hop op eq_refl) as [Hmir _].
    destruct (decompress_and_save_calls _ _ _ _ _ _ Hd) as [Hcalls _].
    exists [mkCall (posixpath.join root file) op None]. split; [|split; [|split]].
    + rewrite Hcalls, Hc. reflexivity.
    + constructor; [|constructor]. exists root, file. simpl.
      apply is_compressed_true in Hi as [_ Hcomp]. repeat split; auto.
    + intros loc Hloc. rewrite (decompress_and_save_frame _ _ _ _ _ _ loc Hd).
      * now rewrite Hfs.
      * apply (Hloc (mkCall (posixpath.join root file) op None)). now left.
    + intros loc Hcomp. apply (decompress_and_save_mono _ _ _ _ _ _ _ Hd) in Hcomp.
      unfold compressed_at in *. now rewrite Hfs in Hcomp.
Qed.

Lemma walked_mono P w w' loc :
  walked P w w' -> compressed_at w' loc -> compressed_at w loc.
Proof. intros (cs & _ & _ & _ & Hm). apply Hm. Qed.

Lemma for_files_walked input_dir output_dir (E : string -> string -> Prop)
      w0 root files :
  forall w w' r,
    (forall file, In file files -> E root file) ->
    (forall loc, compressed_at w loc -> compressed_at w0 loc) ->
    for_files input_dir output_dir root files w = (w', r) ->
    walked (walker_call input_dir output_dir E w0) w w'.
Proof.
  induction files as [|file rest IH]; intros w w' r HE Hmono Hf; simpl in Hf.
  - inversion Hf; subst. apply walked_refl.
  - apply bind_inv in Hf as [(w1 & [] & Hp & Hf)|(e & Hp & _)].
    + apply (process_file_walked _ _ E w0) in Hp; [| apply HE; now left | exact Hmono].
      apply (walked_trans _ _ w1); [exact Hp|].
      apply (IH _ _ r); [intros f Hin; apply HE; now right| |exact Hf].
      intros loc Hc. apply Hmono. exact (walked_mono _ _ _ _ Hp Hc).
    + apply (process_file_walked _ _ E w0) in Hp; [exact Hp| apply HE; now left | exact Hmono].
Qed.

Lemma for_walk_walked input_dir output_dir (E : string -> string -> Prop)
      w0 entries :
  forall w w' r,
    (forall root file, enumerated entries root file -> E root file) ->
    (forall loc, compressed_at w loc -> compressed_at w0 loc) ->
    for_walk input_dir output_dir entries w = (w', r) ->
    walked (walker_call input_dir output_dir E w0) w w'.
Proof.
  induction entries as [|[[root ds] files] rest IH]; intros w w' r HE Hmono Hf; simpl in Hf.
  - inversion Hf; subst. apply walked_refl.
  - assert (HE1 : forall file, In file files -> E root file).
    { intros file Hin. apply HE. exists ds, files. split; [now left|exact Hin]. }
    apply bind_inv in Hf as [(w1 & [] & Hp & Hf)|(e & Hp & _)].
    + apply (for_files_walked _ _ E w0) in Hp; [|exact HE1|exact Hmono].
      apply (walked_trans _ _ w1); [exact Hp|].
      apply (IH _ _ r); [| |exact Hf].
      * intros root' file' (ds' & files' & Hin & Hin'). apply HE.
        exists ds', files'. split; [now right|exact Hin'].
      * intros loc Hc. apply Hmono. exact (walked_mono _ _ _ _ Hp Hc).
    + apply (for_files_walked _ _ E w0) in Hp; [exact Hp|exact HE1|exact Hmono].
Qed.

(** The whole run, from the world it starts in. *)
Lemma process_dicom_directory_walked input_dir output_dir w w' r :
  process_dicom_directory input_dir output_dir w = (w', r) ->
  walked (walker_call input_dir output_dir (enumerated (os_walk w input_dir)) w) w w'.
Proof.
  unfold process_dicom_directory. intros Hp.
  apply (for_walk_walked _ _ (enumerated (os_walk w input_dir)) w) in Hp; auto.
Qed.

End Walker.

(** ** Strings and paths *)

Section Strings.

Lemma append_cons c s t : String c s +:+ t = String c (s +:+ t).
Proof. reflexivity. Qed.

Lemma append_nil_l s : "" +:+ s = s.
Proof. reflexivity. Qed.

Lemma append_nil_r s : s +:+ "" = s.
Proof.
  induction s as [|c s IH]; [reflexivity|]. now rewrite append_cons, IH.
Qed.

Lemma append_assoc a b c : (a +:+ b) +:+ c = a +:+ (b +:+ c).
Proof.
  induction a as [|x a IH]; [reflexivity|]. now rewrite !append_cons, IH.
Qed.

Lemma length_append a b : String.length (a +:+ b) = String.length a + String.length b.
Proof.
  induction a as [|x a IH]; [reflexivity|]. rewrite append_cons. simpl. now rewrite IH.
Qed.

Lemma lower_append a b : pystr.lower (a +:+ b) = pystr.lower a +:+ pystr.lower b.
Proof.
  induction a as [|x a IH]; [reflexivity|]. rewrite append_cons. simpl.
  now rewrite IH, append_cons.
Qed.

Lemma substring_all p : String.substring 0 (String.length p) p = p.
Proof. induction p as [|x p IH]; simpl; [reflexivity|now rewrite IH]. Qed.

Lemma substring_skip a p :
  String.substring (String.length a) (String.length p) (a +:+ p) = p.
Proof.
  induction a as [|x a IH]; [apply substring_all|]. rewrite append_cons. exact IH.
Qed.

Lemma substring_split n m s :
  n + m = String.length s ->
  s = String.substring 0 n s +:+ String.substring n m s.
Proof.
  revert n. induction s as [|x s IH]; intros n Hn; simpl in Hn.
  - assert (n = 0) as -> by lia. assert (m = 0) as -> by lia. reflexivity.
  - destruct n as [|n].
    + simpl in Hn. subst m. change (String.substring 0 0 (String x s)) with "".
      rewrite append_nil_l. symmetry. apply (substring_all (String x s)).
    + simpl. rewrite append_cons. f_equal. apply IH. lia.
Qed.

(** [s.endswith(p)] holds exactly when [p] is a suffix of [s]. *)
Lemma endswith_spec s p :
  pystr.endswith s p = true <-> exists a, s = a +:+ p.
Proof.
  unfold pystr.endswith. rewrite andb_true_iff, Nat.leb_le, String.eqb_eq. split.
  - intros [Hle Hsub].
    exists (String.substring 0 (String.length s - String.length p) s).
    pose proof (substring_split (String.length s - String.length p) (String.length p) s
                  ltac:(lia)) as Hs.
    now rewrite Hsub in Hs.
  - intros [a ->]. rewrite length_append. split; [lia|].
    replace (String.length a + String.length p - String.length p) with (String.length a) by lia.
    apply substring_skip.
Qed.

(** Two ways of cutting one string. *)
Lemma append_eq_append u v a q :
  u +:+ v = a +:+ q ->
  (exists b, v = b +:+ q) \/ (exists t t', t' <> "" /\ u = t +:+ t' /\ q = t' +:+ v).
Proof.
  revert a. induction u as [|x u IH]; intros a Heq.
  - left. now exists a.
  - destruct a as [|y a]; rewrite ?append_cons, ?append_nil_l in Heq.
    + right. exists "", (String x u). repeat split; [discriminate|now symmetry].
    + inversion Heq; subst y. destruct (IH a H1) as [Hl|(t & t' & Hne & -> & ->)].
      * now left.
      * right. exists (String x t), t'. auto.
Qed.

End Strings.

Section Components.

Import posixpath.

Lemma plain_name_spec d :
  plain_name d = true -> d <> "" /\ d <> "." /\ d <> ".." /\ has_sep d = false.
Proof.
  unfold plain_name. rewrite !andb_true_iff, !negb_true_iff, !String.eqb_neq. tauto.
Qed.

Lemma isabs_cons c s : isabs (String c s) = Ascii.eqb c sep.
Proof.
  unfold isabs, pystr.startswith.
  change (String.prefix "/" (String c s))
    with (if ascii_dec "/"%char c then String.prefix "" s else false).
  destruct (ascii_dec "/"%char c) as [<-|Hne].
  - now destruct s.
  - symmetry. apply Ascii.eqb_neq. unfold sep. congruence.
Qed.

Lemma isabs_spec s : isabs s = true <-> exists t, s = String sep t.
Proof.
  destruct s as [|c s].
  - split; [discriminate|intros [t Ht]; discriminate].
  - rewrite isabs_cons, Ascii.eqb_eq. split.
    + intros ->. eauto.
    + intros [t Ht]. now inversion Ht.
Qed.

Lemma no_sep_not_abs d : has_sep d = false -> isabs d = false.
Proof.
  intros Hd. destruct (isabs d) eqn:Ha; [|reflexivity].
  apply isabs_spec in Ha as [t ->]. simpl in Hd. discriminate.
Qed.

Lemma has_sep_append a b : has_sep (a +:+ b) = has_sep a || has_sep b.
Proof.
  induction a as [|x a IH]; [reflexivity|]. rewrite append_cons. simpl.
  now rewrite IH, orb_assoc.
Qed.

(** *** [split] *)

Lemma split_nonempty c s : pystr.split c s <> [].
Proof.
  destruct s as [|a s]; simpl; [discriminate|].
  destruct (Ascii.eqb a c); [discriminate|]. now destruct (pystr.split c s).
Qed.

Lemma split_app_sep s1 s2 :
  pystr.split sep (s1 +:+ String sep s2) = (pystr.split sep s1 ++ pystr.split sep s2)%list.
Proof.
  induction s1 as [|a s1 IH]; [reflexivity|].
  rewrite append_cons. simpl. rewrite IH.
  destruct (Ascii.eqb a sep); [reflexivity|].
  destruct (pystr.split sep s1) as [|h t] eqn:Hs; [now apply split_nonempty in Hs|].
  reflexivity.
Qed.

Lemma split_no_sep s : has_sep s = false -> pystr.split sep s = [s].
Proof.
  induction s as [|a s IH]; [reflexivity|]. simpl.
  intros Hs. apply orb_false_iff in Hs as [Ha Hs]. rewrite Ha, (IH Hs). reflexivity.
Qed.

Lemma split_has_no_sep s : Forall (fun x => has_sep x = false) (pystr.split sep s).
Proof.
  induction s as [|a s IH]; simpl; [repeat constructor|].
  destruct (Ascii.eqb a sep) eqn:Ha; [constructor; auto|].
  destruct (pystr.split sep s) as [|h t]; [repeat constructor; simpl; now rewrite Ha|].
  inversion IH; subst. constructor; [|assumption]. simpl. now rewrite Ha.
Qed.

Lemma concat_cons2 x y l :
  String.concat "/" (x :: y :: l) = x +:+ String sep (String.concat "/" (y :: l)).
Proof. reflexivity. Qed.

Lemma split_concat comps :
  comps <> [] -> Forall (fun x => has_sep x = false) comps ->
  pystr.split sep (String.concat "/" comps) = comps.
Proof.
  induction comps as [|x l IH]; [congruence|]. intros _ Hall.
  inversion Hall as [|? ? Hx Hl]; subst.
  destruct l as [|y l]; [now apply split_no_sep|].
  rewrite concat_cons2, split_app_sep, (split_no_sep x Hx), IH; [reflexivity|discriminate|exact Hl].
Qed.

(** *** The loop of [normpath] *)

Lemma norm_comps_app n l1 l2 acc :
  norm_comps n (l1 ++ l2) acc = norm_comps n l2 (norm_comps n l1 acc).
Proof.
  revert acc. induction l1 as [|c l1 IH]; intros acc; [reflexivity|]. simpl.
  destruct (String.eqb c "" || String.eqb c "."); [apply IH|].
  destruct (negb (String.eqb c "..") || _ || _); apply IH.
Qed.

Lemma norm_comps_abs n l acc : n <> 0 -> norm_comps n l acc = norm_comps 1 l acc.
Proof.
  intros Hn. revert acc. induction l as [|c l IH]; intros acc; [reflexivity|]. simpl.
  destruct n as [|n]; [congruence|]. simpl. rewrite !IH. reflexivity.
Qed.

Lemma norm_comps_plain n d acc : plain_name d = true -> norm_comps n [d] acc = d :: acc.
Proof.
  intros Hd. apply plain_name_spec in Hd as (H1 & H2 & H3 & _). simpl.
  apply String.eqb_neq in H1, H2, H3. now rewrite H1, H2, H3.
Qed.

Lemma norm_comps_empty n acc : norm_comps n [""] acc = acc.
Proof. reflexivity. Qed.

Lemma norm_comps_ok n l acc :
  Forall (fun x => has_sep x = false) l -> Forall comp_ok acc ->
  Forall comp_ok (norm_comps n l acc).
Proof.
  revert acc. induction l as [|c l IH]; intros acc Hl Hacc; [exact Hacc|].
  inversion Hl; subst. simpl.
  destruct (String.eqb c "") eqn:Hc; simpl; [now apply IH|].
  destruct (String.eqb c "."); [now apply IH|].
  destruct (negb (String.eqb c "..") || _ || _).
  - apply IH; [assumption|]. constructor; [|assumption].
    split; [now apply String.eqb_neq|assumption].
  - apply IH; [assumption|]. destruct acc; [constructor|]. now inversion Hacc.
Qed.

(** *** [normpath] on absolute paths *)

Lemma initial_slashes_abs s : isabs s = true -> initial_slashes s = 1 \/ initial_slashes s = 2.
Proof.
  unfold isabs, initial_slashes. intros ->.
  destruct (pystr.startswith s "//" && negb (pystr.startswith s "///")); auto.
Qed.

Lemma normpath_abs s :
  isabs s = true ->
  exists pre, (pre = "" \/ pre = "/")
    /\ normpath s = String sep (pre +:+ String.concat "/" (rev (norm_comps 1 (pystr.split sep s) []))).
Proof.
  intros Ha. unfold normpath.
  destruct (String.eqb s "") eqn:Hs.
  { apply String.eqb_eq in Hs. subst s. discriminate. }
  destruct (initial_slashes_abs s Ha) as [Hn|Hn]; rewrite Hn.
  - exists "". split; [now left|]. reflexivity.
  - exists "/". split; [now right|]. rewrite (norm_comps_abs 2) by discriminate.
    reflexivity.
Qed.

Lemma filter_nonempty_ok l :
  Forall comp_ok l -> List.filter (fun x => negb (String.eqb x "")) l = l.
Proof.
  induction 1 as [|x l [Hx _] Hl IH]; [reflexivity|]. simpl.
  apply String.eqb_neq in Hx. rewrite Hx. simpl. now rewrite IH.
Qed.

Lemma nonempty_comps_normpath s :
  isabs s = true ->
  nonempty_comps (normpath s) = rev (norm_comps 1 (pystr.split sep s) []).
Proof.
  intros Ha. destruct (normpath_abs s Ha) as (pre & Hpre & ->).
  set (comps := rev (norm_comps 1 (pystr.split sep s) [])).
  assert (Hok : Forall comp_ok comps).
  { apply Forall_rev. apply norm_comps_ok; [apply split_has_no_sep|constructor]. }
  assert (Hsplit : List.filter (fun x => negb (String.eqb x ""))
                     (pystr.split sep (String.concat "/" comps)) = comps).
  { destruct comps as [|c comps'] eqn:Hc; [reflexivity|].
    rewrite split_concat; [now apply filter_nonempty_ok|discriminate|].
    eapply Forall_impl; [exact Hok|]. now intros x [_ Hx]. }
  unfold nonempty_comps.
  destruct Hpre as [-> | ->].
  - rewrite append_nil_l.
    change (String sep (String.concat "/" comps)) with ("" +:+ String sep (String.concat "/" comps)).
    rewrite split_app_sep. simpl. exact Hsplit.
  - change (String sep ("/" +:+ String.concat "/" comps))
      with ("" +:+ String sep ("" +:+ String sep (String.concat "/" comps))).
    rewrite !split_app_sep. simpl. exact Hsplit.
Qed.

End Components.

Section Joins.

Import posixpath.

Lemma join_not_abs a b :
  isabs b = false ->
  join a b = if String.eqb a "" || pystr.endswith a "/" then a +:+ b else a +:+ "/" +:+ b.
Proof. unfold join, isabs. now intros ->. Qed.

Lemma endswith_sep_append a p :
  p <> "" -> pystr.endswith (a +:+ p) "/" = pystr.endswith p "/".
Proof.
  intros Hp. apply eq_true_iff_eq. rewrite !endswith_spec. split.
  - intros [b Hb]. apply append_eq_append in Hb as [Hl|(t & t' & Hne & _ & Hq)]; [exact Hl|].
    destruct t' as [|x t']; [congruence|]. rewrite append_cons in Hq.
    inversion Hq as [[Hx Ht]]. destruct t' as [|y t']; [|discriminate Ht].
    rewrite append_nil_l in Ht. congruence.
  - intros [b ->]. exists (a +:+ b). now rewrite append_assoc.
Qed.

Lemma no_sep_endswith d : has_sep d = false -> pystr.endswith d "/" = false.
Proof.
  intros Hd. destruct (pystr.endswith d "/") eqn:He; [|reflexivity].
  apply endswith_spec in He as [a ->]. rewrite has_sep_append in Hd.
  apply orb_false_iff in Hd as [_ Hd]. discriminate.
Qed.

(** The last component a join adds. *)
Lemma comps_join a d :
  plain_name d = true ->
  norm_comps 1 (pystr.split sep (join a d)) [] = d :: norm_comps 1 (pystr.split sep a) [].
Proof.
  intros Hd. destruct (plain_name_spec d Hd) as (_ & _ & _ & Hsep).
  rewrite join_not_abs by now apply no_sep_not_abs.
  destruct (String.eqb a "") eqn:Ha; simpl orb.
  - apply String.eqb_eq in Ha. subst a. rewrite append_nil_l, split_no_sep by assumption.
    now apply norm_comps_plain.
  - destruct (pystr.endswith a "/") eqn:He.
    + apply endswith_spec in He as [a' ->].
      rewrite append_assoc. change ("/" +:+ d) with (String sep d).
      change (a' +:+ "/") with (a' +:+ String sep "").
      rewrite !split_app_sep, !norm_comps_app, split_no_sep by assumption.
      simpl pystr.split. rewrite norm_comps_empty. now apply norm_comps_plain.
    + change ("/" +:+ d) with (String sep d).
      rewrite split_app_sep, norm_comps_app, split_no_sep by assumption.
      now apply norm_comps_plain.
Qed.

Lemma join_nonempty a d : d <> "" -> join a d <> "".
Proof.
  intros Hd. unfold join.
  destruct (pystr.startswith d "/"); [exact Hd|].
  destruct (String.eqb a "" || pystr.endswith a "/"); destruct a; simpl;
    try discriminate; exact Hd.
Qed.

Lemma isabs_append a b : a <> "" -> isabs (a +:+ b) = isabs a.
Proof. destruct a as [|c a]; [congruence|]. intros _. now rewrite append_cons, !isabs_cons. Qed.

Lemma isabs_join a d : a <> "" -> isabs d = false -> isabs (join a d) = isabs a.
Proof.
  intros Ha Hd. rewrite join_not_abs by assumption.
  destruct (String.eqb a "" || pystr.endswith a "/"); now apply isabs_append.
Qed.

(** Joining in two steps. *)
Lemma join_join a b c :
  b <> "" -> isabs b = false -> isabs c = false ->
  join a (join b c) = join (join a b) c.
Proof.
  intros Hb Hab Hac.
  assert (Habc : isabs (join b c) = false) by now rewrite isabs_join.
  rewrite (join_not_abs a (join b c)) by assumption.
  rewrite (join_not_abs (join a b) c) by assumption.
  rewrite (join_not_abs a b) by assumption.
  rewrite (join_not_abs b c) by assumption.
  apply String.eqb_neq in Hb as Hb'. rewrite Hb'. simpl orb.
  assert (Hnz : forall x, String.eqb (x +:+ b) "" = false).
  { intros x. apply String.eqb_neq. destruct x; [exact Hb|discriminate]. }
  destruct (String.eqb a "" || pystr.endswith a "/").
  - rewrite Hnz. simpl orb. rewrite (endswith_sep_append a b Hb).
    destruct (pystr.endswith b "/"); now rewrite !append_assoc.
  - replace (a +:+ "/" +:+ b) with ((a +:+ "/") +:+ b) by apply append_assoc.
    rewrite Hnz. simpl orb. rewrite (endswith_sep_append (a +:+ "/") b Hb).
    destruct (pystr.endswith b "/"); now rewrite !append_assoc.
Qed.

End Joins.

Section Locations.

Context `{Externals}.
Import posixpath.

Lemma locate_absolute p : locate p = normpath (absolute p).
Proof. reflexivity. Qed.

Lemma getcwd_nonempty : getcwd <> "".
Proof. intros Heq. pose proof getcwd_isabs as Ha. rewrite Heq in Ha. discriminate. Qed.

Lemma absolute_isabs p : isabs (absolute p) = true.
Proof.
  unfold absolute. destruct (isabs p) eqn:Hp; [exact Hp|].
  rewrite join_not_abs by exact Hp.
  destruct (String.eqb getcwd "" || pystr.endswith getcwd "/");
    rewrite isabs_append by apply getcwd_nonempty; apply getcwd_isabs.
Qed.

Lemma absolute_join p d :
  plain_name d = true -> absolute (join p d) = join (absolute p) d.
Proof.
  intros Hd. destruct (plain_name_spec d Hd) as (Hne & _ & _ & Hsep).
  assert (Hdabs : isabs d = false) by now apply no_sep_not_abs.
  unfold absolute. destruct p as [|c p].
  - (* p = "" *)
    change (join "" d) with (if pystr.startswith d "/" then d else "" +:+ d).
    fold (isabs d). rewrite Hdabs, append_nil_l, Hdabs.
    change (isabs "") with false. cbv iota.
    rewrite (join_not_abs getcwd "") by reflexivity.
    rewrite (join_not_abs getcwd d) by assumption.
    pose proof getcwd_nonempty as Hc. apply String.eqb_neq in Hc as Hc'. rewrite Hc'. simpl orb.
    destruct (pystr.endswith getcwd "/") eqn:He.
    + rewrite append_nil_r. rewrite join_not_abs by assumption. now rewrite Hc', He.
    + rewrite append_nil_r. rewrite join_not_abs by assumption.
      assert (String.eqb (getcwd +:+ "/") "" = false) as ->.
      { apply String.eqb_neq. destruct getcwd; discriminate. }
      assert (pystr.endswith (getcwd +:+ "/") "/" = true) as ->.
      { apply endswith_spec. now exists getcwd. }
      simpl orb. now rewrite append_assoc.
  - rewrite isabs_join by (assumption || discriminate).
    destruct (isabs (String c p)) eqn:Hp; [reflexivity|].
    apply join_join; (assumption || discriminate).
Qed.

Lemma loc_comps_eq p :
  loc_comps p = rev (norm_comps 1 (pystr.split sep (absolute p)) []).
Proof.
  unfold loc_comps. rewrite locate_absolute.
  apply nonempty_comps_normpath, absolute_isabs.
Qed.

(** The components of a location, one join further. *)
Lemma loc_comps_join p d :
  plain_name d = true -> loc_comps (join p d) = (loc_comps p ++ [d])%list.
Proof.
  intros Hd. rewrite !loc_comps_eq, absolute_join, comps_join by assumption.
  reflexivity.
Qed.

End Locations.

Section Mirroring.

Context `{Externals}.
Import posixpath.

(** The roots of a walk lie under its top, and its names are plain. *)
Lemma walk_roots t :
  forall top root ds files,
    plain_tree t = true ->
    In (root, ds, files) (walk top t) ->
    (exists names, loc_comps root = (loc_comps top ++ names)%list /\ all_plain names)
    /\ all_plain files.
Proof.
  induction t using DirTree_ind2 with
    (P0 := fun f => forall top root ds files,
               plain_forest f = true ->
               In (root, ds, files) (walk_all top f) ->
               (exists names, loc_comps root = (loc_comps top ++ names)%list /\ all_plain names)
               /\ all_plain files).
  - intros top root ds fl Hp Hin. simpl in Hp. apply andb_true_iff in Hp as [Hf Hfiles].
    simpl in Hin. destruct Hin as [Heq|Hin].
    + inversion Heq; subst. split.
      * exists []. rewrite app_nil_r. split; [reflexivity|constructor].
      * apply Forall_forall. intros x Hx. apply list_elem_of_In in Hx.
        now apply (proj1 (forallb_forall _ _) Hfiles).
    + exact (IHt top root ds fl Hf Hin).
  - intros top root ds fl _ [].
  - intros top root ds fl Hp Hin. simpl in Hp.
    apply andb_true_iff in Hp as [Hp Hrest]. apply andb_true_iff in Hp as [Hname Ht].
    simpl in Hin. apply in_app_or in Hin as [Hin|Hin].
    + destruct (IHt (join top name) root ds fl Ht Hin) as [(names & Hc & Hn) Hfl].
      split; [|exact Hfl]. exists (name :: names). split.
      * rewrite Hc, loc_comps_join by exact Hname. now rewrite <- app_assoc.
      * now constructor.
    + exact (IHt0 top root ds fl Hrest Hin).
Qed.

Lemma commonprefix_len_app l x : commonprefix_len l (l ++ x) = length l.
Proof.
  induction l as [|a l IH]; [now destruct x|]. simpl. now rewrite String.eqb_refl, IH.
Qed.

(** The relative path of a file below the start directory. *)
Lemma relpath_under fp top names f :
  fp <> "" ->
  loc_comps fp = (loc_comps top ++ names ++ [f])%list ->
  relpath getcwd fp top = Some (String.concat "/" (names ++ [f])).
Proof.
  intros Hfp Hc. unfold relpath.
  apply String.eqb_neq in Hfp. rewrite Hfp.
  change (nonempty_comps (abspath getcwd top)) with (loc_comps top).
  change (nonempty_comps (abspath getcwd fp)) with (loc_comps fp).
  rewrite Hc, commonprefix_len_app, Nat.sub_diag, skipn_app, skipn_all, Nat.sub_diag.
  simpl. destruct (names ++ [f])%list eqn:Hn; [now destruct names|reflexivity].
Qed.

Lemma plain_not_abs d : plain_name d = true -> isabs d = false.
Proof. intros Hd. apply no_sep_not_abs. now apply plain_name_spec in Hd. Qed.

Lemma concat_not_abs l :
  l <> [] -> all_plain l -> isabs (String.concat "/" l) = false.
Proof.
  destruct l as [|x l]; [congruence|]. intros _ Hall. inversion Hall; subst.
  destruct l as [|y l]; [now apply plain_not_abs|].
  rewrite concat_cons2, isabs_append; [now apply plain_not_abs|].
  now apply plain_name_spec.
Qed.

Lemma concat_cons_join x l :
  plain_name x = true -> l <> [] -> all_plain l ->
  String.concat "/" (x :: l) = join x (String.concat "/" l).
Proof.
  intros Hx Hl Hall. destruct (plain_name_spec x Hx) as (Hne & _ & _ & Hsep).
  rewrite join_not_abs by now apply concat_not_abs.
  apply String.eqb_neq in Hne. rewrite Hne, (no_sep_endswith x Hsep). simpl.
  destruct l as [|y l]; [congruence|]. reflexivity.
Qed.

(** Where a relative path made of plain names leads. *)
Lemma loc_comps_join_concat names :
  forall a f,
    all_plain names -> plain_name f = true ->
    loc_comps (join a (String.concat "/" (names ++ [f])))
    = (loc_comps a ++ names ++ [f])%list.
Proof.
  induction names as [|x names IH]; intros a f Hall Hf.
  - simpl. now apply loc_comps_join.
  - inversion Hall as [|? ? Hx Hrest]; subst.
    assert (Hall' : all_plain (names ++ [f])%list).
    { apply Forall_app. split; [exact Hrest|now constructor]. }
    assert (Hne : (names ++ [f])%list <> []) by now destruct names.
    change ((x :: names) ++ [f])%list with (x :: (names ++ [f]))%list.
    rewrite concat_cons_join by assumption.
    rewrite join_join.
    + rewrite IH by assumption. rewrite loc_comps_join by exact Hx.
      now rewrite <- app_assoc.
    + now apply plain_name_spec.
    + now apply plain_not_abs.
    + now apply concat_not_abs.
Qed.

(** The test of the walker looks at the name only. *)
Lemma matches_join r f : plain_name f = true -> matches (join r f) = matches f.
Proof.
  intros Hf. destruct (plain_name_spec f Hf) as (Hne & _ & _ & Hsep).
  assert (Hj : exists X, join r f = X +:+ f /\ (X = "" \/ exists X', X = X' +:+ "/")).
  { rewrite join_not_abs by now apply no_sep_not_abs.
    destruct (String.eqb r "") eqn:Hr; simpl orb.
    - apply String.eqb_eq in Hr. subst r. exists "". auto.
    - destruct (pystr.endswith r "/") eqn:He.
      + apply endswith_spec in He as [r' ->]. exists (r' +:+ "/"). eauto.
      + exists (r +:+ "/"). split; [now rewrite append_assoc|eauto]. }
  destruct Hj as (X & -> & HX).
  unfold matches. apply eq_true_iff_eq. rewrite !endswith_spec, lower_append. split.
  - intros [a Ha].
    apply append_eq_append in Ha as [Hl|(t & t' & Hne' & Ht & Hq)]; [exact Hl|].
    exfalso. destruct HX as [-> | [X' ->]]; [destruct t, t'; discriminate || congruence|].
    rewrite lower_append in Ht. change (pystr.lower "/") with "/" in Ht.
    assert (He : pystr.endswith (t +:+ t') "/" = true).
    { apply endswith_spec. exists (pystr.lower X'). now symmetry. }
    rewrite endswith_sep_append in He by exact Hne'.
    apply endswith_spec in He as [t'' ->].
    apply (f_equal has_sep) in Hq. rewrite !has_sep_append in Hq.
    simpl in Hq. rewrite orb_true_r in Hq. discriminate.
  - intros [a ->]. exists (pystr.lower X +:+ a). now rewrite append_assoc.
Qed.

(** The last component of the output location of a call of the walker
    is the name of the file, which matches. *)
Lemma walker_output_name input_dir output_dir t w c :
  plain_tree t = true ->
  walker_call input_dir output_dir (enumerated (walk input_dir t)) w c ->
  exists X f, loc_comps (call_output_path c) = (X ++ [f])%list /\ matches f = true.
Proof.
  intros Hplain (root & file & (ds & files & Hin & Hfile) & Hfp & Hm & _ & _ & Hmir).
  destruct (walk_roots t _ _ _ _ Hplain Hin) as [(names & Hroot & Hnames) Hfiles].
  assert (Hf : plain_name file = true).
  { unfold all_plain in Hfiles. rewrite Forall_forall in Hfiles.
    apply Hfiles. now apply list_elem_of_In. }
  rewrite Hfp in Hm, Hmir. rewrite matches_join in Hm by exact Hf.
  assert (Hinplace : loc_comps (join root file) = (loc_comps root ++ [file])%list)
    by now apply loc_comps_join.
  unfold mirrored_path in Hmir.
  destruct output_dir as [out|].
  2:{ injection Hmir as Hop. rewrite <- Hop. eauto. }
  destruct (str_truthy (Some out)).
  2:{ injection Hmir as Hop. rewrite <- Hop. eauto. }
  rewrite (relpath_under _ input_dir names file) in Hmir.
  - injection Hmir as Hop. rewrite <- Hop.
    rewrite loc_comps_join_concat by assumption.
    exists (loc_comps out ++ names)%list, file. split; [now rewrite <- app_assoc|exact Hm].
  - apply join_nonempty. now apply plain_name_spec.
  - rewrite Hinplace, Hroot. now rewrite <- !app_assoc.
Qed.

End Mirroring.

(** ** The visits of a run *)

Section Visits.

Context `{Externals}.

Lemma pairs_of_enumerated entries root file :
  In (root, file) (pairs_of entries) <-> enumerated entries root file.
Proof.
  unfold pairs_of, enumerated. rewrite in_flat_map. split.
  - intros ([[root' ds] files] & Hin & Hmap). simpl in Hmap.
    apply in_map_iff in Hmap as (f & Heq & Hf). inversion Heq; subst.
    exists ds, files. auto.
  - intros (ds & files & Hin & Hf). exists (root, ds, files). split; [exact Hin|].
    simpl. apply in_map_iff. exists file. auto.
Qed.

Lemma visits_app input_dir output_dir ps1 ps2 w w1 w2 r :
  visits input_dir output_dir ps1 w w1 (Ok tt) ->
  visits input_dir output_dir ps2 w1 w2 r ->
  visits input_dir output_dir (ps1 ++ ps2) w w2 r.
Proof.
  intros H1. remember (Ok tt) as r1 eqn:Hr1. revert Hr1.
  induction H1 as [w|root file rest w wa wb r1 Hp Hv IH|root file rest w wa e Hp];
    intros Hr1 H2.
  - exact H2.
  - simpl. eapply visits_next; [exact Hp|]. now apply IH.
  - discriminate Hr1.
Qed.

Lemma visits_app_raise input_dir output_dir ps1 ps2 w w1 e :
  visits input_dir output_dir ps1 w w1 (Raise e) ->
  visits input_dir output_dir (ps1 ++ ps2) w w1 (Raise e).
Proof.
  intros H1. remember (Raise e) as r1 eqn:Hr1. revert Hr1.
  induction H1 as [w|root file rest w wa wb r1 Hp Hv IH|root file rest w wa e' Hp];
    intros Hr1.
  - discriminate Hr1.
  - simpl. eapply visits_next; [exact Hp|]. now apply IH.
  - inversion Hr1; subst e'. simpl. now apply visits_raise.
Qed.

(** The inner loop is a sequence of visits. *)
Lemma for_files_visits input_dir output_dir root files :
  forall w w' r,
    for_files input_dir output_dir root files w = (w', r) ->
    visits input_dir output_dir (List.map (pair root) files) w w' r.
Proof.
  induction files as [|file rest IH]; intros w w' r Hf; simpl in Hf.
  - inversion Hf; subst. constructor.
  - apply bind_inv in Hf as [(w1 & [] & Hp & Hf)|(e & Hp & ->)]; simpl.
    + eapply visits_next; [exact Hp|]. now apply IH.
    + now apply visits_raise.
Qed.

(** So is the whole walk. *)
Lemma for_walk_visits input_dir output_dir entries :
  forall w w' r,
    for_walk input_dir output_dir entries w = (w', r) ->
    visits input_dir output_dir (pairs_of entries) w w' r.
Proof.
  induction entries as [|[[root ds] files] rest IH]; intros w w' r Hf; simpl in Hf.
  - inversion Hf; subst. constructor.
  - change (pairs_of ((root, ds, files) :: rest))
      with (List.map (pair root) files ++ pairs_of rest)%list.
    apply bind_inv in Hf as [(w1 & [] & Hp & Hf)|(e & Hp & ->)].
    + apply for_files_visits in Hp. eapply visits_app; [exact Hp|]. now apply IH.
    + apply for_files_visits in Hp. now apply visits_app_raise.
Qed.

Lemma process_dicom_directory_visits input_dir output_dir w w' r :
  process_dicom_directory input_dir output_dir w = (w', r) ->
  visits input_dir output_dir (pairs_of (os_walk w input_dir)) w w' r.
Proof. apply for_walk_visits. Qed.

(** *** What one call of the converter logs *)

Lemma decompress_and_save_log fp op ref w w' r :
  decompress_and_save_with_metadata fp op ref w = (w', r) ->
  (exists d, r = Ok (Some d)
             /\ log w' = (log w ++ [(DEBUG, "Decompressed and saved file: " +:+ op)])%list)
  \/ (exists e, r = Ok None
                /\ log w' = (log w ++ [(ERROR, failure_message fp e)])%list).
Proof.
  intros Hd.
  destruct (decompress_and_save_cases fp op ref w) as [(w2&r2&Ht&Hs)|(w2&e&Ht&Hs)];
    rewrite Hs in Hd; inversion Hd; subst; clear Hd.
  - left. apply decompress_try_Ok in Ht as (?&?&?&?&?&?&_&_&_&_&_&_&->&_).
    eexists. split; reflexivity.
  - right. exists e. split; [reflexivity|].
    apply decompress_try_Raise_before_save in Ht
      as [->|(?&?&?&?&?&?&?&f&_&_&_&_&_&_&_&->)]; reflexivity.
Qed.

(** *** One visit *)

(** A visit with no output root returns normally. *)
Lemma process_file_in_place input_dir output_dir root file w w' r :
  str_truthy output_dir = false ->
  process_file input_dir output_dir root file w = (w', r) -> r = Ok tt.
Proof.
  intros Hout Hp.
  destruct (process_file_cases input_dir output_dir root file w)
    as [(Hm & Hq)|[(Hm & wi & Hi & Hq)|[(Hm & Hi & wo & e & Ho & Hq)
       |(Hm & Hi & wo & op & w2 & r2 & Ho & Hd & Hq)]]];
    rewrite Hq in Hp; inversion Hp; subst; clear Hp; try reflexivity.
  apply output_path_of_inv in Ho as (_ & _ & _ & Hin & _).
  destruct (Hin Hout) as [_ Hr]. discriminate Hr.
Qed.

(** The records of a visit. *)
Lemma process_file_log input_dir output_dir root file w w' r :
  process_file input_dir output_dir root file w = (w', r) ->
  exists l, log w' = (log w ++ l)%list
            /\ Forall (walker_record (posixpath.join root file)) l
            /\ (l <> [] -> matches (posixpath.join root file) = true).
Proof.
  intros Hp.
  destruct (process_file_cases input_dir output_dir root file w)
    as [(Hm & Hq)|[(Hm & wi & Hi & Hq)|[(Hm & Hi & wo & e & Ho & Hq)
       |(Hm & Hi & wo & op & w2 & r2 & Ho & Hd & Hq)]]];
    rewrite Hq in Hp; inversion Hp; subst; clear Hp.
  - exists []. rewrite app_nil_r. split; [reflexivity|]. split; [constructor|congruence].
  - destruct (is_compressed_cases (posixpath.join root file) w)
      as [(ds & v & _ & _ & Hi')|(e & _ & Hi')]; rewrite Hi' in Hi;
      [injection Hi as Hw Hb|injection Hi as Hw]; subst wi.
    + eexists [_]. split; [reflexivity|]. split; [|auto].
      repeat constructor.
    + eexists [_; _]. simpl. rewrite <- app_assoc. split; [reflexivity|]. split; [|auto].
      repeat constructor.
  - apply output_path_of_inv in Ho as (_ & _ & Hlog & _).
    eexists [_]. rewrite Hlog. split; [reflexivity|]. split; [|auto]. repeat constructor.
  - apply output_path_of_inv in Ho as (_ & _ & Hlog & _).
    apply decompress_and_save_log in Hd as [(d & _ & Hl)|(e & _ & Hl)];
      rewrite Hl, Hlog; eexists [_; _]; simpl; rewrite <- app_assoc;
      (split; [reflexivity|]); (split; [|auto]); repeat constructor.
Qed.

(** The calls of a visit: none, or one on the path of the visit. *)
Lemma process_file_calls input_dir output_dir root file w w' r :
  process_file input_dir output_dir root file w = (w', r) ->
  calls w' = calls w
  \/ exists op, calls w' = (calls w ++ [mkCall (posixpath.join root file) op None])%list.
Proof.
  intros Hp.
  destruct (process_file_cases input_dir output_dir root file w)
    as [(Hm & Hq)|[(Hm & wi & Hi & Hq)|[(Hm & Hi & wo & e & Ho & Hq)
       |(Hm & Hi & wo & op & w2 & r2 & Ho & Hd & Hq)]]];
    rewrite Hq in Hp; inversion Hp; subst; clear Hp.
  - now left.
  - left. destruct (is_compressed_total (posixpath.join root file) w) as (wi' & b & Hi' & _ & Hc & _).
    rewrite Hi in Hi'. inversion Hi'; subst. exact Hc.
  - left. now apply output_path_of_inv in Ho as (_ & Hc & _).
  - right. exists op. apply output_path_of_inv in Ho as (_ & Hc & _).
    apply decompress_and_save_calls in Hd as [Hd _]. now rewrite Hd, Hc.
Qed.

(** Nothing is removed: a visit only adds directories and writes files. *)
Lemma output_path_of_dirs input_dir output_dir fp w wo r :
  output_path_of input_dir output_dir fp w = (wo, r) -> dirs w ⊆ dirs wo.
Proof.
  unfold output_path_of. destruct output_dir as [out|].
  2:{ intros Ho. now inversion Ho. }
  destruct (str_truthy (Some out)).
  2:{ intros Ho. now inversion Ho. }
  unfold relpath, bind at 1, lift.
  destruct (posixpath.relpath getcwd fp input_dir) as [rel|].
  2:{ intros Ho. now inversion Ho. }
  unfold bind, makedirs, ret. destruct (makedirs_fault w _) as [e|].
  { intros Ho. now inversion Ho. }
  intros Ho. inversion Ho; subst; clear Ho. simpl. apply union_subseteq_l.
Qed.

Lemma process_file_grows input_dir output_dir root file w w' r :
  process_file input_dir output_dir root file w = (w', r) ->
  forall loc, exists_at w loc -> exists_at w' loc.
Proof.
  intros Hp.
  destruct (process_file_cases input_dir output_dir root file w)
    as [(Hm & Hq)|[(Hm & wi & Hi & Hq)|[(Hm & Hi & wo & e & Ho & Hq)
       |(Hm & Hi & wo & op & w2 & r2 & Ho & Hd & Hq)]]];
    rewrite Hq in Hp; inversion Hp; subst; clear Hp.
  - auto.
  - destruct (is_compressed_total (posixpath.join root file) w) as (wi' & b & Hi' & Hfs & _ & Hd).
    rewrite Hi in Hi'. inversion Hi'; subst. unfold exists_at. simpl. now rewrite Hfs, Hd.
  - apply output_path_of_dirs in Ho as Hdirs.
    apply output_path_of_inv in Ho as (Hfs & _). unfold exists_at. rewrite Hfs.
    simpl in Hdirs. intros loc [Hl|Hl]; [left; apply Hdirs, Hl|now right].
  - apply output_path_of_dirs in Ho as Hdirs.
    apply output_path_of_inv in Ho as (Hfs & _).
    apply decompress_and_save_calls in Hd as Hc. destruct Hc as [_ Hd2].
    apply decompress_and_save_fs in Hd as Hw.
    unfold exists_at. rewrite Hd2. simpl in Hdirs, Hfs.
    intros loc [Hl|Hl]; [left; apply Hdirs, Hl|right].
    rewrite <- Hfs in Hl.
    destruct Hw as [->|(f & -> & _)]; [exact Hl|].
    destruct (decide (locate op = loc)) as [<-|Hne];
      [rewrite lookup_insert_eq; eauto|now rewrite lookup_insert_ne].
Qed.

(** A visit in place that logs no error leaves its file uncompressed. *)
Lemma process_file_clean input_dir output_dir root file w w' r :
  str_truthy output_dir = false ->
  process_file input_dir output_dir root file w = (w', r) ->
  forallb (fun x => negb (is_error x)) (records_since w w') = true ->
  matches (posixpath.join root file) = true ->
  ~ compressed_at w' (locate (posixpath.join root file)).
Proof.
  intros Hout Hp Hclean Hmatch.
  destruct (process_file_cases input_dir output_dir root file w)
    as [(Hm & Hq)|[(Hm & wi & Hi & Hq)|[(Hm & Hi & wo & e & Ho & Hq)
       |(Hm & Hi & wo & op & w2 & r2 & Ho & Hd & Hq)]]];
    rewrite Hq in Hp; inversion Hp; subst; clear Hp.
  - congruence.
  - destruct (is_compressed_total (posixpath.join root file) w) as (wi' & b & Hi' & Hfs & _).
    rewrite Hi in Hi'. inversion Hi'; subst wi' b.
    intros Hc. assert (Hc' : compressed_at w (locate (posixpath.join root file))).
    { unfold compressed_at in *. simpl in Hc. now rewrite Hfs in Hc. }
    apply compressed_at_is_compressed in Hc'. rewrite Hi in Hc'. discriminate Hc'.
  - apply output_path_of_inv in Ho as (_ & _ & _ & Hin & _).
    destruct (Hin Hout) as [_ Hr]. discriminate Hr.
  - apply output_path_of_inv in Ho as (Hfs & _ & Hlog & Hin & _).
    destruct (Hin Hout) as [-> Hop]. inversion Hop; subst op; clear Hop.
    unfold records_since in Hclean.
    apply decompress_and_save_log in Hd as Hl.
    destruct Hl as [(d & Hr & Hl)|(e & _ & Hl)]; [injection Hr as ->|].
    2:{ exfalso. rewrite Hl in Hclean. simpl in Hclean.
        rewrite <- app_assoc, drop_app_length in Hclean. discriminate Hclean. }
    intros (ds & uid & Hfs' & Hv & Huid).
    apply conversion_success in Hd as (?&?&?&?&?&ds3&_&_&_&_&_&Hw&_).
    rewrite Hw, lookup_insert_eq in Hfs'. inversion Hfs'; subst ds.
    unfold set_transfer_syntax in Hv. simpl in Hv. rewrite getattr_setattr in Hv.
    inversion Hv; subst uid. revert Huid. clear. vm_compute. intuition discriminate.
Qed.

End Visits.

(** ** A run as a whole *)

Section Runs.

Context `{Externals}.

(** Why a visit raises: the directory of the output could not be made. *)
Lemma process_file_raise_inv input_dir output_dir root file w w' e :
  process_file input_dir output_dir root file w = (w', Raise e) ->
  let fp := posixpath.join root file in
  exists out rel,
    output_dir = Some out /\ out <> ""
    /\ matches fp = true
    /\ compressed_at w (locate fp)
    /\ posixpath.relpath getcwd fp input_dir = Some rel
    /\ makedirs_fault w' (posixpath.dirname (posixpath.join out rel)) = Some e
    /\ w' = log_to w DEBUG ("Compressed file found: " +:+ fp).
Proof.
  intros Hp fp.
  destruct (process_file_cases input_dir output_dir root file w)
    as [(Hm & Hq)|[(Hm & wi & Hi & Hq)|[(Hm & Hi & wo & e' & Ho & Hq)
       |(Hm & Hi & wo & op & w2 & r2 & Ho & Hd & Hq)]]];
    rewrite Hq in Hp; inversion Hp; subst; clear Hp.
  apply is_compressed_true in Hi as [_ Hc]. fold fp in Ho, Hm, Hc.
  unfold output_path_of in Ho. destruct output_dir as [out|]; [|discriminate Ho].
  destruct (str_truthy (Some out)) eqn:Ht; [|discriminate Ho].
  assert (Hne : out <> "").
  { intros ->. discriminate Ht. }
  unfold relpath, bind at 1, lift in Ho.
  destruct (posixpath.relpath getcwd fp input_dir) as [rel|] eqn:Hrel.
  2:{ exfalso. unfold posixpath.relpath in Hrel.
      destruct (String.eqb fp "") eqn:Hfp; [|destruct (_ ++ _)%list; discriminate Hrel].
      apply String.eqb_eq in Hfp. rewrite Hfp in Hm. discriminate Hm. }
  unfold bind, makedirs, ret in Ho.
  destruct (makedirs_fault _ _) as [e0|] eqn:Hf; inversion Ho; subst; clear Ho.
  exists out, rel. repeat split; auto.
Qed.

Lemma visits_in_place input_dir output_dir ps w w' r :
  str_truthy output_dir = false ->
  visits input_dir output_dir ps w w' r -> r = Ok tt.
Proof.
  intros Hout Hv. induction Hv as [w|root file rest w wa wb r Hp Hv IH|root file rest w wa e Hp].
  - reflexivity.
  - exact IH.
  - now apply (process_file_in_place _ _ _ _ _ _ _ Hout) in Hp.
Qed.

Lemma visits_mono input_dir output_dir ps w w' r :
  visits input_dir output_dir ps w w' r ->
  forall loc, compressed_at w' loc -> compressed_at w loc.
Proof.
  intros Hv. induction Hv as [w|root file rest w wa wb r Hp Hv IH|root file rest w wa e Hp];
    intros loc Hc.
  - exact Hc.
  - apply (process_file_walked _ _ (fun _ _ => True) w) in Hp; auto.
    exact (walked_mono _ _ _ _ Hp (IH _ Hc)).
  - apply (process_file_walked _ _ (fun _ _ => True) w) in Hp; auto.
    exact (walked_mono _ _ _ _ Hp Hc).
Qed.

Lemma visits_grows input_dir output_dir ps w w' r :
  visits input_dir output_dir ps w w' r ->
  forall loc, exists_at w loc -> exists_at w' loc.
Proof.
  intros Hv. induction Hv as [w|root file rest w wa wb r Hp Hv IH|root file rest w wa e Hp];
    intros loc He.
  - exact He.
  - apply IH. exact (process_file_grows _ _ _ _ _ _ _ Hp _ He).
  - exact (process_file_grows _ _ _ _ _ _ _ Hp _ He).
Qed.

(** The records of a visit are about its path, which matches. *)
Lemma process_file_records input_dir output_dir root file w w' r :
  process_file input_dir output_dir root file w = (w', r) ->
  exists l, log w' = (log w ++ l)%list
    /\ Forall (fun rec => matches (posixpath.join root file) = true
                          /\ walker_record (posixpath.join root file) rec) l.
Proof.
  intros Hp. apply process_file_log in Hp as (l & Hl & HF & Hm).
  exists l. split; [exact Hl|]. destruct l as [|x l]; [constructor|].
  assert (Hmatch : matches (posixpath.join root file) = true) by now apply Hm.
  eapply Forall_impl; [exact HF|]. auto.
Qed.

(** The records of a run are about the matching files it visits. *)
Lemma visits_log input_dir output_dir ps w w' r :
  visits input_dir output_dir ps w w' r ->
  exists l, log w' = (log w ++ l)%list
    /\ Forall (fun rec => exists root file,
                 In (root, file) ps
                 /\ matches (posixpath.join root file) = true
                 /\ walker_record (posixpath.join root file) rec) l.
Proof.
  intros Hv. induction Hv as [w|root file rest w wa wb r Hp Hv IH|root file rest w wa e Hp].
  - exists []. rewrite app_nil_r. split; [reflexivity|constructor].
  - destruct IH as (l2 & Hl2 & HF2).
    apply process_file_records in Hp as (l1 & Hl1 & HF1).
    exists (l1 ++ l2)%list. split; [now rewrite Hl2, Hl1, <- app_assoc|].
    apply Forall_app. split.
    + eapply Forall_impl; [exact HF1|]. intros rec [Hm Hrec]. exists root, file.
      split; [now left|auto].
    + eapply Forall_impl; [exact HF2|]. intros rec (root' & file' & Hin & Hrec).
      exists root', file'. split; [now right|exact Hrec].
  - apply process_file_records in Hp as (l1 & Hl1 & HF1).
    exists l1. split; [exact Hl1|].
    eapply Forall_impl; [exact HF1|]. intros rec [Hm Hrec]. exists root, file.
    split; [now left|auto].
Qed.

Lemma records_since_app w w' l :
  log w' = (log w ++ l)%list -> records_since w w' = l.
Proof. intros Hl. unfold records_since. rewrite Hl. apply drop_app_length. Qed.

(** The calls of a run follow the order of the walk, one at most per
    file, each without reference. *)
Lemma visits_calls input_dir output_dir ps w w' r :
  visits input_dir output_dir ps w w' r ->
  exists cs, calls w' = (calls w ++ cs)%list
    /\ List.map call_file_path cs
       `sublist_of` List.map (fun p => posixpath.join p.1 p.2) ps
    /\ Forall (fun c => call_reference c = None) cs.
Proof.
  intros Hv. induction Hv as [w|root file rest w wa wb r Hp Hv IH|root file rest w wa e Hp].
  - exists []. rewrite app_nil_r. split; [reflexivity|]. split; constructor.
  - destruct IH as (cs & Hcs & Hsub & Href).
    apply process_file_calls in Hp as [Hc|(op & Hc)].
    + exists cs. split; [now rewrite Hcs, Hc|]. split; [|exact Href].
      simpl. now apply sublist_cons.
    + exists (mkCall (posixpath.join root file) op None :: cs).
      split; [rewrite Hcs, Hc; now rewrite <- app_assoc|]. split.
      * simpl. now apply sublist_skip.
      * now constructor.
  - apply process_file_calls in Hp as [Hc|(op & Hc)].
    + exists []. rewrite app_nil_r. split; [exact Hc|]. split; [|constructor].
      apply sublist_nil_l.
    + exists [mkCall (posixpath.join root file) op None]. split; [exact Hc|]. split.
      * simpl. apply sublist_skip, sublist_nil_l.
      * now repeat constructor.
Qed.


(** Where a run raises. *)
Lemma visits_raise_inv input_dir output_dir ps w w' e :
  visits input_dir output_dir ps w w' (Raise e) ->
  exists root file w0,
    In (root, file) ps
    /\ process_file input_dir output_dir root file w0 = (w', Raise e)
    /\ (forall loc, compressed_at w0 loc -> compressed_at w loc).
Proof.
  intros Hv. remember (Raise e) as r eqn:Hr. revert Hr.
  induction Hv as [w|root file rest w wa wb r Hp Hv IH|root file rest w wa e' Hp]; intros Hr.
  - discriminate Hr.
  - destruct (IH Hr) as (root' & file' & w0 & Hin & Hq & Hmono).
    exists root', file', w0. split; [now right|]. split; [exact Hq|].
    intros loc Hc. apply Hmono in Hc.
    apply (process_file_walked _ _ (fun _ _ => True) w) in Hp; auto.
    exact (walked_mono _ _ _ _ Hp Hc).
  - inversion Hr; subst e'. exists root, file, w. split; [now left|]. auto.
Qed.

(** After a run in place that logged no error, no matching file of the
    walk is compressed. *)
Lemma visits_clean input_dir output_dir ps w w' r :
  str_truthy output_dir = false ->
  visits input_dir output_dir ps w w' r ->
  forallb (fun x => negb (is_error x)) (records_since w w') = true ->
  forall root file,
    In (root, file) ps -> matches (posixpath.join root file) = true ->
    ~ compressed_at w' (locate (posixpath.join root file)).
Proof.
  intros Hout Hv.
  induction Hv as [w|root file rest w wa wb r Hp Hv IH|root file rest w wa e Hp];
    intros Hclean root' file' Hin Hm.
  - destruct Hin.
  - apply process_file_log in Hp as Hlog. destruct Hlog as (l1 & Hl1 & _).
    apply visits_log in Hv as Hlog. destruct Hlog as (l2 & Hl2 & _).
    rewrite (records_since_app w wb (l1 ++ l2)) in Hclean
      by now rewrite Hl2, Hl1, <- app_assoc.
    rewrite forallb_app in Hclean. apply andb_true_iff in Hclean as [Hc1 Hc2].
    rewrite <- (records_since_app _ _ _ Hl1) in Hc1.
    rewrite <- (records_since_app _ _ _ Hl2) in Hc2.
    destruct Hin as [Heq|Hin].
    + inversion Heq; subst root' file'. intros Hc.
      apply (visits_mono _ _ _ _ _ _ Hv) in Hc.
      exact (process_file_clean _ _ _ _ _ _ _ Hout Hp Hc1 Hm Hc).
    + now apply IH.
  - apply (process_file_in_place _ _ _ _ _ _ _ Hout) in Hp. discriminate Hp.
Qed.

(** When no matching file of the walk is compressed, there is nothing to
    convert: the walk only logs. *)
Lemma visits_idle input_dir output_dir ps w w' r :
  visits input_dir output_dir ps w w' r ->
  (forall root file,
     In (root, file) ps -> matches (posixpath.join root file) = true ->
     ~ compressed_at w (locate (posixpath.join root file))) ->
  r = Ok tt /\ fs w' = fs w /\ calls w' = calls w /\ dirs w' = dirs w.
Proof.
  intros Hv. induction Hv as [w|root file rest w wa wb r Hp Hv IH|root file rest w wa e Hp];
    intros Hidle.
  - auto.
  - assert (Hstep : fs wa = fs w /\ calls wa = calls w /\ dirs wa = dirs w).
    { destruct (process_file_cases input_dir output_dir root file w)
        as [(Hm & Hq)|[(Hm & wi & Hi & Hq)|[(Hm & Hi & wo & e' & Ho & Hq)
           |(Hm & Hi & wo & op & w2 & r2 & Ho & Hd & Hq)]]];
        rewrite Hq in Hp; inversion Hp; subst; clear Hp.
      - auto.
      - destruct (is_compressed_total (posixpath.join root file) w)
          as (wi' & b & Hi' & Hfs & Hc & Hd).
        rewrite Hi in Hi'. inversion Hi'; subst. auto.
      - exfalso. apply is_compressed_true in Hi as [_ Hc].
        exact (Hidle root file (or_introl eq_refl) Hm Hc). }
    destruct Hstep as (Hfs & Hc & Hd).
    destruct IH as (-> & Hfs2 & Hc2 & Hd2).
    { intros root' file' Hin Hm Hcomp. apply (Hidle root' file'); [now right|exact Hm|].
      unfold compressed_at in *. now rewrite Hfs in Hcomp. }
    repeat split; congruence.
  - exfalso. apply process_file_raise_inv in Hp as (out & rel & _ & _ & Hm & Hc & _).
    exact (Hidle root file (or_introl eq_refl) Hm Hc).
Qed.

End Runs.


(** ** Where the outputs go *)

Section MirroredPaths.

Context `{Externals}.
Import posixpath.

Lemma is_prefix_app l1 : forall l2 x y,
  (l1 ++ x = l2 ++ y)%list -> is_prefix l1 l2 = true \/ is_prefix l2 l1 = true.
Proof.
  induction l1 as [|a l1 IH]; intros l2 x y Heq; [now left|].
  destruct l2 as [|b l2]; [now right|].
  simpl in Heq. inversion Heq; subst b. simpl. rewrite String.eqb_refl. simpl.
  now apply (IH l2 x y).
Qed.

(** Where the output of a file of the walk goes: as far below the output
    root as the file is below the input root. *)
Lemma mirrored_path_comps input_dir out t root ds files file :
  plain_tree t = true -> out <> "" ->
  In (root, ds, files) (walk input_dir t) -> In file files ->
  exists names op,
    all_plain names /\ plain_name file = true
    /\ loc_comps (join root file) = (loc_comps input_dir ++ names ++ [file])%list
    /\ mirrored_path input_dir (Some out) (join root file) = Some op
    /\ loc_comps op = (loc_comps out ++ names ++ [file])%list.
Proof.
  intros Hplain Hout Hin Hfile.
  destruct (walk_roots t _ _ _ _ Hplain Hin) as [(names & Hroot & Hnames) Hfiles].
  assert (Hf : plain_name file = true).
  { unfold all_plain in Hfiles. rewrite Forall_forall in Hfiles.
    apply Hfiles. now apply list_elem_of_In. }
  assert (Hfp : loc_comps (join root file) = (loc_comps input_dir ++ names ++ [file])%list).
  { rewrite loc_comps_join, Hroot by exact Hf. now rewrite <- app_assoc. }
  exists names, (join out (String.concat "/" (names ++ [file]))).
  split; [exact Hnames|]. split; [exact Hf|]. split; [exact Hfp|]. split.
  - unfold mirrored_path, str_truthy. apply String.eqb_neq in Hout. rewrite Hout. simpl.
    rewrite (relpath_under _ input_dir names file); [reflexivity| |exact Hfp].
    apply join_nonempty. now apply plain_name_spec.
  - now apply loc_comps_join_concat.
Qed.

(** With roots that do not overlap, no output of a walk is a file of the
    walk. *)
Lemma separate_roots_frame input_dir out t w w' r :
  scan w input_dir = Some t -> plain_tree t = true -> out <> "" ->
  is_prefix (loc_comps out) (loc_comps input_dir) = false ->
  is_prefix (loc_comps input_dir) (loc_comps out) = false ->
  process_dicom_directory input_dir (Some out) w = (w', r) ->
  forall root file,
    enumerated (os_walk w input_dir) root file ->
    fs w' !! locate (join root file) = fs w !! locate (join root file).
Proof.
  intros Hscan Hplain Hout Hpre1 Hpre2 Hp root file HE.
  apply process_dicom_directory_walked in Hp as (cs & _ & HP & Hframe & _).
  rewrite Forall_forall in HP. apply Hframe. intros c Hc Heq.
  apply list_elem_of_In in Hc.
  destruct (HP c Hc) as (root' & file' & HE' & Hfp' & _ & _ & _ & Hmir').
  unfold os_walk in HE, HE'. rewrite Hscan in HE, HE'.
  destruct HE as (ds & files & Hin & Hfile).
  destruct HE' as (ds' & files' & Hin' & Hfile').
  destruct (mirrored_path_comps input_dir out t root ds files file Hplain Hout Hin Hfile)
    as (names & _ & _ & _ & Hfp & _).
  destruct (mirrored_path_comps input_dir out t root' ds' files' file' Hplain Hout Hin' Hfile')
    as (names' & op' & _ & _ & _ & Hmir & Hop).
  rewrite Hfp' in Hmir'. rewrite Hmir in Hmir'. inversion Hmir'; subst op'.
  assert (Hcomps : loc_comps (join root file) = loc_comps (call_output_path c)).
  { unfold loc_comps. now rewrite Heq. }
  rewrite Hfp, Hop in Hcomps.
  apply is_prefix_app in Hcomps as [Hc1|Hc2]; congruence.
Qed.

End MirroredPaths.

Section WalkerClaims.

Context `{Externals}.


Lemma for_walk_cons input_dir output_dir root ds files entries :
  for_walk input_dir output_dir ((root, ds, files) :: entries)
  = (for_files input_dir output_dir root files ;;;
     for_walk input_dir output_dir entries).
Proof. reflexivity. Qed.




(** C4. An exception raised anywhere in the converter's [try] block is
    caught: the converter logs an error that names the path and returns
    [None]; and the walk goes on with the files after the one that
    failed, in the same directory and in the rest of the walk. *)
Theorem conversion_failure_is_contained fp op ref w w1 e :
  decompress_try fp op ref (call_to w (mkCall fp op ref)) = (w1, Raise e) ->
  let w' := log_to w1 ERROR ("Failed to decompress file " +:+ fp +:+ ": " +:+ str_exn e) in
  decompress_and_save_with_metadata fp op ref w = (w', Ok None)
  /\ (forall input_dir output_dir root ds file rest entries w0,
        fp = posixpath.join root file ->
        ref = None ->
        pystr.endswith (pystr.lower fp) ".dcm" = true ->
        is_compressed fp w0 = (w0, Ok true) ->
        output_path_of input_dir output_dir fp
          (log_to w0 DEBUG ("Compressed file found: " +:+ fp)) = (w, Ok op) ->
        for_files input_dir output_dir root (file :: rest) w0
        = for_files input_dir output_dir root rest w'
        /\ for_walk input_dir output_dir ((root, ds, file :: rest) :: entries) w0
           = for_walk input_dir output_dir ((root, ds, rest) :: entries) w').
Proof.
  intros Ht w'.
  assert (Hd : decompress_and_save_with_metadata fp op ref w = (w', Ok None)).
  { rewrite decompress_and_save_unfold, Ht. reflexivity. }
  split; [exact Hd|].
  intros input_dir output_dir root ds file rest entries w0 -> -> Hm Hi Ho.
  assert (Hp : process_file input_dir output_dir root file w0 = (w', Ok tt)).
  { unfold process_file. rewrite Hm.
    rewrite (bind_Ok _ _ _ _ _ Hi).
    rewrite (bind_Ok (logging_debug _) _ w0 _ tt eq_refl).
    rewrite (bind_Ok _ _ _ _ _ Ho). rewrite (bind_Ok _ _ _ _ _ Hd). reflexivity. }
  assert (Hf : for_files input_dir output_dir root (file :: rest) w0
               = for_files input_dir output_dir root rest w').
  { simpl. now rewrite (bind_Ok _ _ _ _ _ Hp). }
  split; [exact Hf|].
  rewrite !for_walk_cons. unfold bind. now rewrite Hf.
Qed.

(** Every call of a walk is made without a reference. *)
Lemma walker_passes_no_reference input_dir output_dir w w' r :
  process_dicom_directory input_dir output_dir w = (w', r) ->
  exists cs, calls w' = (calls w ++ cs)%list
             /\ Forall (fun c => call_reference c = None) cs.
Proof.
  intros Hp. apply process_dicom_directory_walked in Hp as (cs & Hc & HP & _).
  exists cs. split; [exact Hc|].
  eapply Forall_impl; [exact HP|]. now intros c (root & file & _ & _ & _ & _ & Hr & _).
Qed.

End WalkerClaims.

Section Frame.

Context `{Externals}.

Lemma output_or_elsewhere (cs : list Call) loc :
  (exists c, In c cs /\ loc = locate (call_output_path c))
  \/ (forall c, In c cs -> loc <> locate (call_output_path c)).
Proof.
  induction cs as [|c cs IH].
  - right. intros c [].
  - destruct (string_dec loc (locate (call_output_path c))) as [Heq|Hne].
    + left. exists c. split; [now left|exact Heq].
    + destruct IH as [(c' & Hin & Heq)|Hall].
      * left. exists c'. split; [now right|exact Heq].
      * right. intros c' [<-|Hin]; auto.
Qed.

(** C9, as amended.  A run changes a file only at the computed output
    path of an enumerated file that matches ".dcm" and was compressed when
    the run began.  Hence every non-matching file is left as it was (the
    names a directory scan returns being plain); with no output root, so
    is every file that was not compressed; and with an output root that
    does not overlap the input root (it is not the input root, nor inside
    it, nor above it) so is every file of the walk, matching or not,
    compressed or not. *)
Theorem walk_changes_only_outputs input_dir output_dir w w' r :
  process_dicom_directory input_dir output_dir w = (w', r) ->
  (forall loc, fs w' !! loc <> fs w !! loc ->
     exists root file op,
       enumerated (os_walk w input_dir) root file
       /\ pystr.endswith (pystr.lower (posixpath.join root file)) ".dcm" = true
       /\ compressed_at w (locate (posixpath.join root file))
       /\ mirrored_path input_dir output_dir (posixpath.join root file) = Some op
       /\ loc = locate op)
  /\ (forall t root file,
        scan w input_dir = Some t -> plain_tree t = true ->
        enumerated (os_walk w input_dir) root file ->
        pystr.endswith (pystr.lower (posixpath.join root file)) ".dcm" = false ->
        fs w' !! locate (posixpath.join root file)
        = fs w !! locate (posixpath.join root file))
  /\ (str_truthy output_dir = false ->
      forall loc, ~ compressed_at w loc -> fs w' !! loc = fs w !! loc)
  /\ (forall out t,
        output_dir = Some out -> out <> "" ->
        scan w input_dir = Some t -> plain_tree t = true ->
        is_prefix (loc_comps out) (loc_comps input_dir) = false ->
        is_prefix (loc_comps input_dir) (loc_comps out) = false ->
        forall root file,
          enumerated (os_walk w input_dir) root file ->
          fs w' !! locate (posixpath.join root file)
          = fs w !! locate (posixpath.join root file)).
Proof.
  intros Hp.
  assert (Hsep : forall out t,
             output_dir = Some out -> out <> "" ->
             scan w input_dir = Some t -> plain_tree t = true ->
             is_prefix (loc_comps out) (loc_comps input_dir) = false ->
             is_prefix (loc_comps input_dir) (loc_comps out) = false ->
             forall root file,
               enumerated (os_walk w input_dir) root file ->
               fs w' !! locate (posixpath.join root file)
               = fs w !! locate (posixpath.join root file)).
  { intros out t -> Hout Hscan Hplain Hp1 Hp2.
    exact (separate_roots_frame input_dir out t w w' r Hscan Hplain Hout Hp1 Hp2 Hp). }
  apply process_dicom_directory_walked in Hp as (cs & Hcalls & HP & Hframe & _).
  rewrite Forall_forall in HP.
  split; [|split; [|split; [|exact Hsep]]].
  - intros loc Hloc.
    destruct (output_or_elsewhere cs loc) as [(c & Hin & Heq)|Hall].
    + apply list_elem_of_In in Hin.
      destruct (HP c Hin) as (root & file & HE & Hfp & Hm & Hc & _ & Hmir).
      exists root, file, (call_output_path c). rewrite <- Hfp. auto.
    + exfalso. apply Hloc. now apply Hframe.
  - intros t root file Hscan Hplain HE Hm.
    apply Hframe. intros c Hin Heq. apply list_elem_of_In in Hin.
    pose proof (HP c Hin) as Hcall.
    unfold os_walk in Hcall, HE. rewrite Hscan in Hcall, HE.
    destruct (walker_output_name _ _ _ _ _ Hplain Hcall) as (X & f & Hout & Hf).
    destruct HE as (ds & files & Hentry & Hfile).
    destruct (walk_roots t _ _ _ _ Hplain Hentry) as [_ Hfiles].
    assert (Hpl : plain_name file = true).
    { unfold all_plain in Hfiles. rewrite Forall_forall in Hfiles.
      apply Hfiles. now apply list_elem_of_In. }
    fold (matches (posixpath.join root file)) in Hm. rewrite matches_join in Hm by exact Hpl.
    assert (Hcomps : loc_comps (posixpath.join root file) = loc_comps (call_output_path c)).
    { unfold loc_comps. now rewrite Heq. }
    rewrite loc_comps_join, Hout in Hcomps by exact Hpl.
    apply app_inj_tail in Hcomps as [_ ->]. congruence.
  - intros Hfalsy loc Hnot. apply Hframe. intros c Hin Heq. apply list_elem_of_In in Hin.
    destruct (HP c Hin) as (root & file & _ & _ & _ & Hc & _ & Hmir).
    unfold mirrored_path in Hmir. destruct output_dir as [out|].
    + rewrite Hfalsy in Hmir. injection Hmir as Hop. apply Hnot. now rewrite Heq, <- Hop.
    + injection Hmir as Hop. apply Hnot. now rewrite Heq, <- Hop.
Qed.

End Frame.

(** ** The path functions on examples *)

Example lower_ex : pystr.lower "in/IMG.DcM" = "in/img.dcm".
Proof. reflexivity. Qed.
Example split_ex : pystr.split "/" "a/b/" = ["a"; "b"; ""].
Proof. reflexivity. Qed.
Example join_ex : posixpath.join "in" "a.dcm" = "in/a.dcm" /\ posixpath.join "in/" "a.dcm" = "in/a.dcm"
  /\ posixpath.join "" "a" = "a" /\ posixpath.join "a" "/b" = "/b" /\ posixpath.join "a" "" = "a/".
Proof. repeat split; reflexivity. Qed.
Example norm_ex : posixpath.normpath "//a/./b/../c//" = "//a/c" /\ posixpath.normpath "///a" = "/a"
  /\ posixpath.normpath "a/../.." = ".." /\ posixpath.normpath "/.." = "/" /\ posixpath.normpath "" = ".".
Proof. repeat split; reflexivity. Qed.
Example dirname_ex : posixpath.dirname "out/s/a.dcm" = "out/s" /\ posixpath.dirname "a.dcm" = ""
  /\ posixpath.dirname "/a" = "/" /\ posixpath.dirname "//a" = "//" /\ posixpath.dirname "a//b" = "a".
Proof. repeat split; reflexivity. Qed.
Example relpath_ex : posixpath.relpath "/w" "in/series1/img1.dcm" "in" = Some "series1/img1.dcm"
  /\ posixpath.relpath "/w" "in" "in" = Some "." /\ posixpath.relpath "/w" "a/b" "a/c/d" = Some "../../b".
Proof. repeat split; reflexivity. Qed.

(** ** The sample run *)

Section Examples.

#[local] Existing Instance Sample.externals.

(** The first scenario: [a.dcm] is converted in place, [b.txt] is left. *)
Example scenario_in_place :
  let run := process_dicom_directory "in" None Sample.world in
  run.2 = Ok tt
  /\ getattr (file_meta (Sample.dataset_at run.1 "/work/in/a.dcm")) TransferSyntaxUID
     = Ok (VStr "1.2.840.10008.1.2.1")
  /\ fs run.1 !! "/work/in/b.txt" = Some (OtherFile "notes").
Proof. intros run. repeat apply conj; vm_compute; reflexivity. Qed.

(** The second scenario: the output mirrors the input tree, the input
    stays. *)
Example scenario_output_dir :
  let run := process_dicom_directory "in" (Some "out") Sample.world in
  run.2 = Ok tt
  /\ List.map call_output_path (calls run.1) = ["out/a.dcm"; "out/series1/img1.dcm"]
  /\ getattr (file_meta (Sample.dataset_at run.1 "/work/out/series1/img1.dcm"))
       TransferSyntaxUID = Ok (VStr "1.2.840.10008.1.2.1")
  /\ field_at run.1 "/work/out/series1/img1.dcm" InstanceNumber = Some (VInt 1)
  /\ fs run.1 !! "/work/in/series1/img1.dcm" = fs Sample.world !! "/work/in/series1/img1.dcm".
Proof. intros run. repeat apply conj; vm_compute; reflexivity. Qed.

(** A file with a corrupted header: the classifier logs the error and
    says no, and the walk goes on. *)
Example scenario_corrupted_header :
  let run := is_compressed "scan/broken.dcm" Sample.world in
  run.2 = Ok false
  /\ log run.1
     = [(ERROR, "Error reading file scan/broken.dcm: File is missing DICOM File Meta Information header")]
  /\ (process_dicom_directory "scan" None Sample.world).2 = Ok tt.
Proof. intros run. repeat apply conj; vm_compute; reflexivity. Qed.

(** C3, on the code.  Two compressed slices of different series are
    converted in one walk: the second conversion is called without the
    reference of the first and the second output keeps its own series
    identifier, "2.2", where the first output has "1.1".  The converter
    itself, given the snapshot the first conversion returned, writes
    "1.1" into the second slice. *)
Theorem walker_drops_reference :
  let run := process_dicom_directory "scan" None Sample.world in
  let first := decompress_and_save_with_metadata "scan/s1.dcm" "scan/s1.dcm" None
                 Sample.world in
  let second := decompress_and_save_with_metadata "scan/s2.dcm" "scan/s2.dcm"
                  (Some (Sample.returned first.2)) first.1 in
  run.2 = Ok tt
  /\ field_at second.1 "/work/scan/s2.dcm" SeriesInstanceUID = Some (VStr "1.1")
  /\ List.map (fun c => (call_file_path c, call_reference c)) (calls run.1)
     = [("scan/s1.dcm", None); ("scan/s2.dcm", None); ("scan/bad.dcm", None)]
  /\ field_at run.1 "/work/scan/s1.dcm" SeriesInstanceUID = Some (VStr "1.1")
  /\ field_at run.1 "/work/scan/s2.dcm" SeriesInstanceUID = Some (VStr "2.2")
  /\ (is_compressed "scan/s1.dcm" run.1).2 = Ok false
  /\ (is_compressed "scan/s2.dcm" run.1).2 = Ok false.
Proof. intros run first second. repeat apply conj; vm_compute; reflexivity. Qed.

(** C9 as stated fails here: [d/sub/a.dcm] is an input file of the walk
    of [d], it is already uncompressed, an output root is given, and the
    run overwrites it with the conversion of [d/a.dcm]. *)
Lemma uncompressed_input_overwritten :
  let run := process_dicom_directory "d" (Some "d/sub") Sample.world in
  run.2 = Ok tt
  /\ enumerated (os_walk Sample.world "d") "d/sub" "a.dcm"
  /\ (is_compressed (posixpath.join "d/sub" "a.dcm") Sample.world).2 = Ok false
  /\ locate (posixpath.join "d/sub" "a.dcm") = "/work/d/sub/a.dcm"
  /\ field_at Sample.world "/work/d/sub/a.dcm" SeriesInstanceUID = Some (VStr "4.4")
  /\ field_at run.1 "/work/d/sub/a.dcm" SeriesInstanceUID = Some (VStr "3.3")
  /\ fs run.1 !! "/work/d/sub/a.dcm" <> fs Sample.world !! "/work/d/sub/a.dcm".
Proof.
  intros run. split; [vm_compute; reflexivity|]. split.
  { exists [], ["a.dcm"]. split; [vm_compute; auto|now left]. }
  split; [vm_compute; reflexivity|]. split; [vm_compute; reflexivity|].
  split; [vm_compute; reflexivity|]. split; [vm_compute; reflexivity|].
  intros Heq.
  assert (Hf : field_at run.1 "/work/d/sub/a.dcm" SeriesInstanceUID
               = field_at Sample.world "/work/d/sub/a.dcm" SeriesInstanceUID).
  { unfold field_at. now rewrite Heq. }
  vm_compute in Hf. discriminate Hf.
Qed.

End Examples.

(** ** The theorems at work on the sample run *)

Section Witnesses.

#[local] Existing Instance Sample.externals.

Lemma converted_output_is_uncompressed_witness :
  let fp := "in/a.dcm" in
  let op := "out/a.dcm" in
  let ref := @None Dataset in
  let w := Sample.world in
  let w' := (decompress_and_save_with_metadata fp op ref w).1 in
  let r := Sample.returned (decompress_and_save_with_metadata fp op ref w).2 in
  decompress_and_save_with_metadata fp op ref w = (w', Ok (Some r))
  /\ exists ds',
       fs w' !! locate op = Some (DicomFile ds')
       /\ getattr (file_meta ds') TransferSyntaxUID = Ok (VStr ExplicitVRLittleEndian)
       /\ value_in (VStr ExplicitVRLittleEndian) compressed_uids = false
       /\ is_compressed op w' = (w', Ok false).
Proof.
  intros fp op ref w w' r.
  assert (Hrun : decompress_and_save_with_metadata fp op ref w = (w', Ok (Some r)))
    by (vm_compute; reflexivity).
  split; [exact Hrun|]. exact (converted_output_is_uncompressed fp op ref w w' r Hrun).
Defined.

Lemma reference_stamping_witness :
  let fp := "in/a.dcm" in
  let op := "out/x.dcm" in
  let ref := Some Sample.reference in
  let w := Sample.world in
  let w' := (decompress_and_save_with_metadata fp op ref w).1 in
  let r := Sample.returned (decompress_and_save_with_metadata fp op ref w).2 in
  decompress_and_save_with_metadata fp op ref w = (w', Ok (Some r))
  /\ exists ds0 ds',
       fs w !! locate fp = Some (DicomFile ds0)
       /\ fs w' !! locate op = Some (DicomFile ds')
       /\ (forall given k, ref = Some given -> In k series_fields ->
             contains (elements given) k = true -> ref_truthy ref = true)
       /\ ref_truthy (Some r) = true
       /\ match ref with
          | Some given =>
              if truthy given then
                r = given
                /\ (forall k, In k series_fields ->
                      exists v, getattr (elements given) k = Ok v
                                /\ getattr (elements ds') k = Ok v)
                /\ (forall t : Tag,
                      (forall k, In k series_fields -> t <> tag_for_keyword k) ->
                      t <> tag_for_keyword InstanceNumber ->
                      t <> tag_for_keyword PixelData ->
                      elements ds' !! t = elements ds0 !! t)
              else
                r = ds'
                /\ (forall k, In k series_fields ->
                      elements ds' !! tag_for_keyword k = elements ds0 !! tag_for_keyword k)
          | None =>
              r = ds'
              /\ (forall k, In k series_fields ->
                    elements ds' !! tag_for_keyword k = elements ds0 !! tag_for_keyword k)
          end.
Proof.
  intros fp op ref w w' r.
  assert (Hrun : decompress_and_save_with_metadata fp op ref w = (w', Ok (Some r)))
    by (vm_compute; reflexivity).
  split; [exact Hrun|]. exact (reference_stamping fp op ref w w' r Hrun).
Defined.

Lemma instance_number_is_integer_witness :
  let fp := "in/series1/img1.dcm" in
  let op := "out/img1.dcm" in
  let ref := @None Dataset in
  let w := Sample.world in
  let w' := (decompress_and_save_with_metadata fp op ref w).1 in
  let r := Sample.returned (decompress_and_save_with_metadata fp op ref w).2 in
  decompress_and_save_with_metadata fp op ref w = (w', Ok (Some r))
  /\ exists ds0 ds' n,
       fs w !! locate fp = Some (DicomFile ds0)
       /\ fs w' !! locate op = Some (DicomFile ds')
       /\ getattr (elements ds') InstanceNumber = Ok (VInt n)
       /\ match elements ds0 !! tag_for_keyword InstanceNumber with
          | Some e => py_int (value e) = Ok n
          | None => n = 1%Z
          end.
Proof.
  intros fp op ref w w' r.
  assert (Hrun : decompress_and_save_with_metadata fp op ref w = (w', Ok (Some r)))
    by (vm_compute; reflexivity).
  split; [exact Hrun|]. exact (instance_number_is_integer fp op ref w w' r Hrun).
Defined.

Lemma pixel_VR_follows_sample_width_witness :
  let fp := "in/a.dcm" in
  let op := "in/a.dcm" in
  let ref := @None Dataset in
  let w := Sample.world in
  let w' := (decompress_and_save_with_metadata fp op ref w).1 in
  let r := Sample.returned (decompress_and_save_with_metadata fp op ref w).2 in
  decompress_and_save_with_metadata fp op ref w = (w', Ok (Some r))
  /\ exists ds0 arr ds' e,
       fs w !! locate fp = Some (DicomFile ds0)
       /\ sitk_decode (DicomFile ds0) = Ok arr
       /\ fs w' !! locate op = Some (DicomFile ds')
       /\ elements ds' !! ((0x7FE0, 0x0010)%N : Tag) = Some e
       /\ value e = VBytes (tobytes arr)
       /\ VR e = (if (itemsize_bits (dtype arr) =? 16)%N then "OW" else "OB")
       /\ (itemsize_bits (dtype arr) = 16%N <-> dtype arr = uint16 \/ dtype arr = int16).
Proof.
  intros fp op ref w w' r.
  assert (Hrun : decompress_and_save_with_metadata fp op ref w = (w', Ok (Some r)))
    by (vm_compute; reflexivity).
  split; [exact Hrun|]. exact (pixel_VR_follows_sample_width fp op ref w w' r Hrun).
Defined.

Lemma bad_instance_number_fails_witness :
  let fp := "scan/bad.dcm" in
  let op := "out/bad.dcm" in
  let ref := @None Dataset in
  let w := Sample.world in
  let ds0 := Sample.slice Sample.jpeg_baseline "1.1" (Some VNone) in
  let e0 := mkElem "IS" VNone in
  let err := mkExn "TypeError" "int() argument must be a string or a real number" in
  (fs w !! locate fp = Some (DicomFile ds0)
   /\ elements ds0 !! tag_for_keyword InstanceNumber = Some e0
   /\ py_int (value e0) = Raise err)
  /\ exists w' e,
       decompress_and_save_with_metadata fp op ref w = (w', Ok None)
       /\ fs w' = fs w
       /\ log w' = (log w ++ [(ERROR, failure_message fp e)])%list
       /\ (forall arr ds1 ds2 rv,
             sitk_decode (DicomFile ds0) = Ok arr ->
             set_pixel_data ds0 arr = Ok ds1 ->
             stamp_reference ds1 ref = Ok (ds2, rv) ->
             e = err).
Proof.
  intros fp op ref w ds0 e0 err.
  assert (H1 : fs w !! locate fp = Some (DicomFile ds0)) by (vm_compute; reflexivity).
  assert (H2 : elements ds0 !! tag_for_keyword InstanceNumber = Some e0)
    by (vm_compute; reflexivity).
  assert (H3 : py_int (value e0) = Raise err) by (vm_compute; reflexivity).
  split; [auto|]. exact (bad_instance_number_fails fp op ref w ds0 e0 err H1 H2 H3).
Defined.

Lemma conversion_failure_is_contained_witness :
  let fp := "scan/bad.dcm" in
  let op := "scan/bad.dcm" in
  let ref := @None Dataset in
  let w := log_to Sample.world DEBUG "Compressed file found: scan/bad.dcm" in
  let w1 := call_to w (mkCall fp op ref) in
  let e := mkExn "TypeError" "int() argument must be a string or a real number" in
  decompress_try fp op ref (call_to w (mkCall fp op ref)) = (w1, Raise e)
  /\ let w' := log_to w1 ERROR ("Failed to decompress file " +:+ fp +:+ ": " +:+ str_exn e) in
     decompress_and_save_with_metadata fp op ref w = (w', Ok None)
     /\ for_files "scan" None "scan" ["bad.dcm"; "plain.dcm"] Sample.world
        = for_files "scan" None "scan" ["plain.dcm"] w'.
Proof.
  intros fp op ref w w1 e.
  assert (Hrun : decompress_try fp op ref (call_to w (mkCall fp op ref)) = (w1, Raise e))
    by (vm_compute; reflexivity).
  split; [exact Hrun|].
  destruct (conversion_failure_is_contained fp op ref w w1 e Hrun) as [Hconv Hwalk].
  split; [exact Hconv|].
  apply (Hwalk "scan" None "scan" [] "bad.dcm" ["plain.dcm"] [] Sample.world);
    vm_compute; reflexivity.
Defined.


Lemma walk_changes_only_outputs_witness :
  let input_dir := "in" in
  let output_dir := Some "out" in
  let w := Sample.world in
  let w' := (process_dicom_directory input_dir output_dir w).1 in
  let r := (process_dicom_directory input_dir output_dir w).2 in
  process_dicom_directory input_dir output_dir w = (w', r)
  /\ (forall loc, fs w' !! loc <> fs w !! loc ->
        exists root file op,
          enumerated (os_walk w input_dir) root file
          /\ pystr.endswith (pystr.lower (posixpath.join root file)) ".dcm" = true
          /\ compressed_at w (locate (posixpath.join root file))
          /\ mirrored_path input_dir output_dir (posixpath.join root file) = Some op
          /\ loc = locate op)
  /\ (forall t root file,
        scan w input_dir = Some t -> plain_tree t = true ->
        enumerated (os_walk w input_dir) root file ->
        pystr.endswith (pystr.lower (posixpath.join root file)) ".dcm" = false ->
        fs w' !! locate (posixpath.join root file)
        = fs w !! locate (posixpath.join root file))
  /\ (str_truthy output_dir = false ->
      forall loc, ~ compressed_at w loc -> fs w' !! loc = fs w !! loc)
  /\ (forall out t,
        output_dir = Some out -> out <> "" ->
        scan w input_dir = Some t -> plain_tree t = true ->
        is_prefix (loc_comps out) (loc_comps input_dir) = false ->
        is_prefix (loc_comps input_dir) (loc_comps out) = false ->
        forall root file,
          enumerated (os_walk w input_dir) root file ->
          fs w' !! locate (posixpath.join root file)
          = fs w !! locate (posixpath.join root file)).
Proof.
  intros input_dir output_dir w w' r.
  assert (Hrun : process_dicom_directory input_dir output_dir w = (w', r))
    by (vm_compute; reflexivity).
  split; [exact Hrun|].
  exact (walk_changes_only_outputs input_dir output_dir w w' r Hrun).
Defined.

End Witnesses.

(** * Further properties *)

Section RunProperties.

Context `{Externals}.

(** X1. A run with no output root never raises: whatever goes wrong with a
    file is logged by the classifier or the converter, and the walk goes
    on to the end. *)
Theorem in_place_run_returns input_dir output_dir w :
  str_truthy output_dir = false ->
  (process_dicom_directory input_dir output_dir w).2 = Ok tt.
Proof.
  intros Hout.
  destruct (process_dicom_directory input_dir output_dir w) as [w' r] eqn:Hp.
  apply process_dicom_directory_visits in Hp.
  exact (visits_in_place _ _ _ _ _ _ Hout Hp).
Qed.

(** X2. A run raises only when an output root is given and the directory of
    the output of a compressed ".dcm" file of the walk cannot be made: the
    exception is the one of [os.makedirs], the walk stops right after
    logging that it found the file, and the files after it are not
    visited. *)
Theorem run_raises_only_from_makedirs input_dir output_dir w w' e :
  process_dicom_directory input_dir output_dir w = (w', Raise e) ->
  exists out root file rel,
    output_dir = Some out /\ out <> ""
    /\ enumerated (os_walk w input_dir) root file
    /\ matches (posixpath.join root file) = true
    /\ compressed_at w (locate (posixpath.join root file))
    /\ posixpath.relpath getcwd (posixpath.join root file) input_dir = Some rel
    /\ makedirs_fault w' (posixpath.dirname (posixpath.join out rel)) = Some e
    /\ last (log w')
       = Some (DEBUG, "Compressed file found: " +:+ posixpath.join root file).
Proof.
  intros Hp. apply process_dicom_directory_visits in Hp.
  apply visits_raise_inv in Hp as (root & file & w0 & Hin & Hq & Hmono).
  apply process_file_raise_inv in Hq as (out & rel & Hout & Hne & Hm & Hc & Hrel & Hf & Hw).
  exists out, root, file, rel. apply pairs_of_enumerated in Hin.
  repeat split; auto. subst w'. simpl. apply last_snoc.
Qed.

(** X3. A run never makes a file compressed: every file with a compressed
    transfer syntax after the run had one before. *)
Theorem run_never_compresses input_dir output_dir w w' r :
  process_dicom_directory input_dir output_dir w = (w', r) ->
  forall loc, compressed_at w' loc -> compressed_at w loc.
Proof.
  intros Hp. apply process_dicom_directory_visits in Hp.
  exact (visits_mono _ _ _ _ _ _ Hp).
Qed.

(** X4. After a run in place that logged no error, no ".dcm" file of the walk
    is compressed any more; and a second run over the same listing finds
    nothing to do: it makes no call and changes no file. *)
Theorem clean_in_place_run_converts_all input_dir output_dir w w' r :
  str_truthy output_dir = false ->
  process_dicom_directory input_dir output_dir w = (w', r) ->
  forallb (fun x => negb (is_error x)) (records_since w w') = true ->
  (forall root file,
     enumerated (os_walk w input_dir) root file ->
     matches (posixpath.join root file) = true ->
     ~ compressed_at w' (locate (posixpath.join root file)))
  /\ (forall w'' r',
        scan w' input_dir = scan w input_dir ->
        process_dicom_directory input_dir output_dir w' = (w'', r') ->
        r' = Ok tt /\ fs w'' = fs w' /\ calls w'' = calls w').
Proof.
  intros Hout Hp Hclean. apply process_dicom_directory_visits in Hp.
  assert (Hdone : forall root file,
             enumerated (os_walk w input_dir) root file ->
             matches (posixpath.join root file) = true ->
             ~ compressed_at w' (locate (posixpath.join root file))).
  { intros root file HE. apply pairs_of_enumerated in HE.
    exact (visits_clean _ _ _ _ _ _ Hout Hp Hclean root file HE). }
  split; [exact Hdone|].
  intros w'' r' Hscan Hq. apply process_dicom_directory_visits in Hq.
  assert (Hwalk : os_walk w' input_dir = os_walk w input_dir).
  { unfold os_walk. now rewrite Hscan. }
  rewrite Hwalk in Hq.
  apply visits_idle in Hq as (Hr & Hfs & Hc & _); [auto|].
  intros root file Hin. apply pairs_of_enumerated in Hin. now apply Hdone.
Qed.

(** X5. An uncompressed file is neither converted nor copied: when no ".dcm"
    file of the walk is compressed the run returns normally, calls the
    converter on nothing, writes no file and makes no directory, with or
    without an output root. *)
Theorem nothing_compressed_nothing_written input_dir output_dir w w' r :
  (forall root file,
     enumerated (os_walk w input_dir) root file ->
     matches (posixpath.join root file) = true ->
     ~ compressed_at w (locate (posixpath.join root file))) ->
  process_dicom_directory input_dir output_dir w = (w', r) ->
  r = Ok tt /\ fs w' = fs w /\ calls w' = calls w /\ dirs w' = dirs w.
Proof.
  intros Hidle Hp. apply process_dicom_directory_visits in Hp.
  apply visits_idle in Hp; [exact Hp|].
  intros root file Hin. apply pairs_of_enumerated in Hin. now apply Hidle.
Qed.

(** X6. The converter is called in the order of the walk, at most once per
    file, and never with a reference. *)
Theorem calls_follow_walk_order input_dir output_dir w w' r :
  process_dicom_directory input_dir output_dir w = (w', r) ->
  exists cs,
    calls w' = (calls w ++ cs)%list
    /\ List.map call_file_path cs
       `sublist_of` List.map (fun p => posixpath.join p.1 p.2)
                      (pairs_of (os_walk w input_dir))
    /\ Forall (fun c => call_reference c = None) cs.
Proof.
  intros Hp. apply process_dicom_directory_visits in Hp.
  exact (visits_calls _ _ _ _ _ _ Hp).
Qed.

End RunProperties.

(** ** The entry point *)

Section EntryPoint.

Context `{Externals}.

Lemma path_exists_spec p w :
  exists b, path_exists p w = (w, Ok b) /\ (b = true <-> exists_at w (locate p)).
Proof.
  unfold path_exists, exists_at. eexists. split; [reflexivity|].
  rewrite orb_true_iff, !bool_decide_eq_true. reflexivity.
Qed.

(** A directory that was made is there. *)
Lemma makedirs_Ok name w w' :
  makedirs name w = (w', Ok tt) ->
  w' = mkdirs_to w (parents (String.length (locate name)) (locate name))
  /\ locate name ∈ dirs w'.
Proof.
  unfold makedirs. destruct (makedirs_fault w name); intros Hm; inversion Hm; subst.
  split; [reflexivity|]. simpl. apply elem_of_union_r, elem_of_list_to_set.
  destruct (String.length _); simpl; left.
Qed.

(** The ways the entry point begins: no output root, an output root that
    exists, one that cannot be made, one that is made. *)
Lemma main_cases input_dir output_dir verbose w :
  (str_truthy output_dir = false
   /\ main input_dir output_dir verbose w = process_dicom_directory input_dir output_dir w)
  \/ (exists out, output_dir = Some out /\ out <> ""
        /\ exists_at w (locate out)
        /\ main input_dir output_dir verbose w
           = process_dicom_directory input_dir output_dir w)
  \/ (exists out e, output_dir = Some out /\ out <> ""
        /\ ~ exists_at w (locate out)
        /\ makedirs_fault w out = Some e
        /\ main input_dir output_dir verbose w = (w, Raise e))
  \/ (exists out w1, output_dir = Some out /\ out <> ""
        /\ ~ exists_at w (locate out)
        /\ makedirs out w = (w1, Ok tt)
        /\ main input_dir output_dir verbose w
           = process_dicom_directory input_dir output_dir w1).
Proof.
  unfold main. destruct output_dir as [out|]; [|left; auto].
  destruct (str_truthy (Some out)) eqn:Ht; [|left; auto].
  right. assert (Hne : out <> "") by (intros ->; discriminate Ht).
  destruct (path_exists_spec out w) as (b & Hb & Hspec).
  unfold bind. rewrite Hb. destruct b.
  - change (negb true) with false. cbv iota. unfold ret.
    left. exists out. split; [reflexivity|]. split; [exact Hne|].
    split; [now apply Hspec|]. reflexivity.
  - change (negb false) with true. cbv iota.
    right. assert (Hno : ~ exists_at w (locate out)).
    { intros He. apply Hspec in He. discriminate He. }
    unfold makedirs. cbv beta. destruct (makedirs_fault w out) as [e|] eqn:Hf.
    + left. exists out, e. split; [reflexivity|]. split; [exact Hne|].
      split; [exact Hno|]. split; [exact Hf|reflexivity].
    + right.
      exists out, (mkdirs_to w (parents (String.length (locate out)) (locate out))).
      split; [reflexivity|]. split; [exact Hne|].
      split; [exact Hno|]. split; [|reflexivity].
      unfold makedirs. now rewrite Hf.
Qed.

(** Before the walk begins only directories were made. *)
Lemma main_inv input_dir output_dir verbose w w' r :
  main input_dir output_dir verbose w = (w', r) ->
  (exists e, r = Raise e /\ w' = w
             /\ exists out, output_dir = Some out /\ out <> ""
                  /\ ~ exists_at w (locate out) /\ makedirs_fault w out = Some e)
  \/ exists w1,
       fs w1 = fs w /\ log w1 = log w /\ calls w1 = calls w
       /\ (forall loc, exists_at w loc -> exists_at w1 loc)
       /\ (forall out, output_dir = Some out -> out <> "" -> exists_at w1 (locate out))
       /\ process_dicom_directory input_dir output_dir w1 = (w', r).
Proof.
  intros Hm.
  destruct (main_cases input_dir output_dir verbose w)
    as [(Ht & Hq)|[(out & Hout & Hne & He & Hq)|[(out & e & Hout & Hne & He & Hf & Hq)
       |(out & w1 & Hout & Hne & He & Hmk & Hq)]]]; rewrite Hq in Hm; clear Hq.
  - right. exists w. repeat split; auto.
    intros out -> Hne. exfalso. apply Hne. simpl in Ht.
    apply negb_false_iff in Ht. now apply String.eqb_eq in Ht.
  - right. exists w. repeat split; auto.
    intros out' Hout' _. congruence.
  - left. inversion Hm; subst. exists e. repeat split; eauto 10.
  - right. exists w1. apply makedirs_Ok in Hmk as [Hw1 Hin]. subst w1.
    repeat split; auto.
    + intros loc [Hl|Hl]; [left|now right]. simpl. now apply elem_of_union_l.
    + intros out' Hout' _. left. congruence.
Qed.

(** X7. When the entry point returns normally and an output root was given,
    the output root exists, whether or not anything was converted; when the
    output root does not exist and cannot be made, the exception of
    [os.makedirs] ends the program before any file is read: nothing is
    logged, called or written. *)
Theorem main_output_root input_dir out verbose w w' r :
  out <> "" ->
  main input_dir (Some out) verbose w = (w', r) ->
  (r = Ok tt -> exists_at w' (locate out))
  /\ (forall e, ~ exists_at w (locate out) -> makedirs_fault w out = Some e ->
        r = Raise e /\ w' = w).
Proof.
  intros Hne Hm. split.
  - intros ->. apply main_inv in Hm as [(e & Hr & _)|(w1 & _ & _ & _ & _ & Hroot & Hp)];
      [discriminate Hr|].
    apply process_dicom_directory_visits in Hp.
    apply (visits_grows _ _ _ _ _ _ Hp). now apply Hroot.
  - intros e Hno Hf.
    destruct (main_cases input_dir (Some out) verbose w)
      as [(Ht & Hq)|[(o & Hout & _ & He & Hq)|[(o & e' & Hout & _ & He & Hf' & Hq)
         |(o & w1 & Hout & _ & He & Hmk & Hq)]]].
    + exfalso. apply Hne. simpl in Ht. apply negb_false_iff in Ht.
      now apply String.eqb_eq in Ht.
    + inversion Hout; subst o. contradiction.
    + inversion Hout; subst o. rewrite Hq in Hm. inversion Hm; subst.
      split; [congruence|reflexivity].
    + inversion Hout; subst o. unfold makedirs in Hmk. rewrite Hf in Hmk. discriminate Hmk.
Qed.

Lemma walker_record_level fp rec :
  walker_record fp rec ->
  (is_error rec = false /\ levelno rec.1 = 10%N)
  \/ (is_error rec = true /\ levelno rec.1 = 40%N
      /\ exists e, rec = (ERROR, read_error_message fp e)
                   \/ rec = (ERROR, failure_message fp e)).
Proof.
  intros [ |op| |e|e].
  - left. split; reflexivity.
  - left. split; reflexivity.
  - left. split; reflexivity.
  - right. split; [reflexivity|]. split; [reflexivity|]. exists e. now left.
  - right. split; [reflexivity|]. split; [reflexivity|]. exists e. now right.
Qed.

Lemma emitted_verbose l : emitted (setup_logger true) l = l.
Proof.
  unfold emitted, setup_logger. induction l as [|[[] msg] l IH]; simpl; congruence.
Qed.

Lemma emitted_quiet l : emitted (setup_logger false) l = List.filter is_error l.
Proof.
  unfold emitted, setup_logger. induction l as [|[[] msg] l IH]; simpl; congruence.
Qed.

(** X8. What the program prints.  Every record of a run is one of the five
    messages of the walker, the classifier and the converter, about a
    ".dcm" file of the walk.  With [-v] all of them are shown; without,
    the level is INFO and exactly the error records are shown, which are
    the read errors of the classifier and the failures of the converter:
    which files were found, converted or skipped is not shown. *)
Theorem main_console input_dir output_dir verbose w w' r :
  main input_dir output_dir verbose w = (w', r) ->
  log w' = (log w ++ records_since w w')%list
  /\ (exists w1,
        fs w1 = fs w
        /\ Forall (fun rec => exists root file,
                     enumerated (os_walk w1 input_dir) root file
                     /\ matches (posixpath.join root file) = true
                     /\ walker_record (posixpath.join root file) rec)
             (records_since w w'))
  /\ console verbose w w'
     = (if verbose then records_since w w'
        else List.filter is_error (records_since w w'))
  /\ Forall (fun rec => exists fp e,
               rec = (ERROR, read_error_message fp e)
               \/ rec = (ERROR, failure_message fp e))
       (console false w w').
Proof.
  intros Hm.
  assert (Hfacts : exists w1 l,
             fs w1 = fs w /\ log w' = (log w ++ l)%list
             /\ Forall (fun rec => exists root file,
                          enumerated (os_walk w1 input_dir) root file
                          /\ matches (posixpath.join root file) = true
                          /\ walker_record (posixpath.join root file) rec) l).
  { apply main_inv in Hm as [(e & _ & -> & _)|(w1 & Hfs & Hlog & _ & _ & _ & Hp)].
    { exists w, []. rewrite app_nil_r. repeat split; auto; constructor. }
    apply process_dicom_directory_visits in Hp. apply visits_log in Hp as (l & Hl & HF).
    exists w1, l. split; [exact Hfs|]. split; [now rewrite Hl, Hlog|].
    eapply Forall_impl; [exact HF|]. intros rec (root & file & Hin & Hrec).
    exists root, file. split; [now apply pairs_of_enumerated|exact Hrec]. }
  destruct Hfacts as (w1 & l & Hfs & Hl & HF).
  rewrite (records_since_app _ _ _ Hl). unfold console.
  rewrite (records_since_app _ _ _ Hl).
  split; [exact Hl|]. split; [eauto|]. split.
  - destruct verbose; [apply emitted_verbose|apply emitted_quiet].
  - rewrite emitted_quiet. apply Forall_forall. intros rec Hin.
    apply list_elem_of_In, filter_In in Hin as [Hin Herr].
    rewrite Forall_forall in HF. apply list_elem_of_In in Hin.
    destruct (HF rec Hin) as (root & file & _ & _ & Hrec).
    apply walker_record_level in Hrec as [[Hno _]|(_ & _ & e & Hrec)]; [congruence|].
    eauto.
Qed.

End EntryPoint.

(** ** More on the converter *)

Section ConverterProperties.

Context `{Externals}.


(** X10. A conversion touches the metadata it is written to touch and no
    other: in the header of the output everything but the transfer syntax
    is the input's, and so is every element but the payload, the instance
    number and, when a reference is given, the five series fields.  No
    other file changes and no directory is made. *)
Theorem conversion_keeps_other_metadata fp op ref w w' r :
  decompress_and_save_with_metadata fp op ref w = (w', Ok (Some r)) ->
  exists ds0 ds',
    fs w !! locate fp = Some (DicomFile ds0)
    /\ fs w' !! locate op = Some (DicomFile ds')
    /\ (forall t : Tag, t <> tag_for_keyword TransferSyntaxUID ->
          file_meta ds' !! t = file_meta ds0 !! t)
    /\ (forall t : Tag,
          t <> tag_for_keyword PixelData -> t <> tag_for_keyword InstanceNumber ->
          (ref_truthy ref = true -> forall k, In k series_fields -> t <> tag_for_keyword k) ->
          elements ds' !! t = elements ds0 !! t)
    /\ (forall loc, loc <> locate op -> fs w' !! loc = fs w !! loc)
    /\ dirs w' = dirs w.
Proof.
  intros Hd.
  pose proof (decompress_and_save_calls _ _ _ _ _ _ Hd) as [_ Hdirs].
  pose proof (fun loc => decompress_and_save_frame _ _ _ _ _ _ loc Hd) as Hframe.
  apply conversion_success in Hd as (ds0&arr&ds1&ds2&rv&ds3&H0&H1&H2&H3&H4&Hfs&_).
  exists ds0, (set_transfer_syntax ds3).
  split; [exact H0|]. split; [rewrite Hfs; apply lookup_insert_eq|].
  destruct (normalize_instance_number_Ok _ _ H4) as (Hm4 & _ & Ho4).
  pose proof (stamp_reference_meta _ _ _ _ H3) as Hm3.
  rewrite set_pixel_data_eq in H2. inversion H2; subst ds1; clear H2.
  split; [|split; [|split; [exact Hframe|exact Hdirs]]].
  - intros t Ht. unfold set_transfer_syntax. simpl file_meta.
    rewrite setattr_lookup_ne by exact Ht. now rewrite Hm4, Hm3.
  - intros t Hp Hi Hs. unfold set_transfer_syntax. simpl elements.
    rewrite Ho4 by exact Hi.
    destruct (ref_truthy ref) eqn:Hr.
    + rewrite (stamp_reference_other _ _ _ _ _ H3) by (apply Hs; reflexivity).
      simpl. now apply lookup_insert_ne.
    + rewrite stamp_reference_falsy in H3 by exact Hr. inversion H3; subst ds2.
      simpl. now apply lookup_insert_ne.
Qed.

(** X11. Series consistency, as the converter provides it: a conversion given
    the dataset an earlier conversion without reference returned writes the
    five series fields of the earlier output into its own, and returns that
    same dataset for the next one. *)
Theorem chained_conversions_share_series fp1 op1 fp2 op2 w w1 w2 r1 r2 :
  decompress_and_save_with_metadata fp1 op1 None w = (w1, Ok (Some r1)) ->
  decompress_and_save_with_metadata fp2 op2 (Some r1) w1 = (w2, Ok (Some r2)) ->
  r2 = r1
  /\ fs w1 !! locate op1 = Some (DicomFile r1)
  /\ exists ds2,
       fs w2 !! locate op2 = Some (DicomFile ds2)
       /\ forall k, In k series_fields ->
            exists v, getattr (elements r1) k = Ok v /\ getattr (elements ds2) k = Ok v.
Proof.
  intros Hd1 Hd2.
  apply conversion_success in Hd1 as (ds0&arr&ds1&ds2&rv&ds3&_&_&_&H3&H4&Hfs&Hr).
  change (stamp_reference ds1 None) with (Ok (ds1, SameAsDs)) in H3.
  inversion H3; subst ds2 rv; clear H3. simpl in Hr.
  assert (Htruthy : truthy r1 = true).
  { subst r1. destruct (normalize_instance_number_Ok _ _ H4) as (_ & (n & Hn & _) & _).
    apply getattr_Ok in Hn as (e & He & _).
    unfold truthy, set_transfer_syntax. simpl elements.
    apply negb_true_iff, bool_decide_eq_false. intros Hempty.
    rewrite Hempty, lookup_empty in He. discriminate He. }
  apply conversion_success in Hd2 as (ds0'&arr'&ds1'&ds2'&rv'&ds3'&_&_&_&H3'&H4'&Hfs'&Hr').
  destruct (stamp_reference_given _ _ _ _ Htruthy H3') as (-> & _ & Hfive & _).
  simpl in Hr'. split; [exact Hr'|].
  split; [rewrite Hfs, Hr; apply lookup_insert_eq|].
  exists (set_transfer_syntax ds3'). split; [rewrite Hfs'; apply lookup_insert_eq|].
  intros k Hk. destruct (Hfive k Hk) as (v & Hg & Hv). exists v. split; [exact Hg|].
  destruct (normalize_instance_number_Ok _ _ H4') as (_ & _ & Ho).
  apply getattr_Ok in Hv as (e & He & Hval). apply getattr_Ok. exists e.
  split; [|exact Hval]. unfold set_transfer_syntax. simpl elements.
  rewrite Ho; [exact He|].
  intros Heq. apply tag_for_keyword_inj in Heq. subst k. simpl in Hk. intuition discriminate.
Qed.

(** X12. A reference that holds something but lacks one of the five series
    fields makes every conversion fail: reading the missing attribute
    raises inside the [try] block, before the write, so the converter
    returns [None] and no file is changed. *)
Theorem incomplete_reference_fails fp op given k w :
  truthy given = true ->
  In k series_fields ->
  contains (elements given) k = false ->
  exists w',
    decompress_and_save_with_metadata fp op (Some given) w = (w', Ok None)
    /\ fs w' = fs w.
Proof.
  intros Ht Hk Hmiss.
  assert (Hno : forall ds ds' rv, stamp_reference ds (Some given) <> Ok (ds', rv)).
  { intros ds ds' rv Hs.
    destruct (stamp_reference_given _ _ _ _ Ht Hs) as (_ & _ & Hfive & _).
    destruct (Hfive k Hk) as (v & Hg & _).
    apply getattr_Ok in Hg as (e & He & _).
    assert (Hc : contains (elements given) k = true) by (apply contains_spec; eauto).
    congruence. }
  destruct (decompress_and_save_cases fp op (Some given) w)
    as [(w2&r2&Hd&Hs)|(w2&e&Hd&Hs)].
  - exfalso. apply decompress_try_Ok in Hd as (?&?&?&?&?&?&_&_&_&H3&_).
    exact (Hno _ _ _ H3).
  - rewrite Hs. eexists. split; [reflexivity|].
    apply decompress_try_Raise_before_save in Hd as [->|(?&?&?&?&?&?&?&?&_&_&_&H3&_)].
    + reflexivity.
    + exfalso. exact (Hno _ _ _ H3).
Qed.

End ConverterProperties.

(** ** More on one visit *)

Section VisitProperties.

Context `{Externals}.

(** X13. A ".dcm" file whose header cannot be read is reported twice: the
    classifier logs the read error, and the walker, taking the answer
    [False] for "not compressed", then logs that the file is already
    uncompressed.  The file is not converted and nothing else happens. *)
Theorem unreadable_file_logged_as_uncompressed input_dir output_dir root file w :
  let fp := posixpath.join root file in
  matches fp = true ->
  (forall ds v, fs w !! locate fp = Some (DicomFile ds) ->
                getattr (file_meta ds) TransferSyntaxUID <> Ok v) ->
  exists e,
    process_file input_dir output_dir root file w
    = (log_to (log_to w ERROR (read_error_message fp e))
         DEBUG ("File is already uncompressed: " +:+ fp), Ok tt).
Proof.
  intros fp Hm Hbad.
  destruct (is_compressed_cases fp w) as [(ds & v & Hfs & Hv & _)|(e & _ & Hi)].
  { exfalso. exact (Hbad ds v Hfs Hv). }
  exists e. unfold process_file. fold fp. fold (matches fp). rewrite Hm.
  now rewrite (bind_Ok _ _ _ _ _ Hi).
Qed.

End VisitProperties.

(** ** The output tree *)

Section OutputTree.

Context `{Externals}.
Import posixpath.

(** X14. The output tree mirrors the input tree: the output of a file that
    lies under the input root by the directories [names] lies under the
    output root by the same directories, under the same name. *)
Theorem output_mirrors_input_tree input_dir out t root ds files file w wo op :
  plain_tree t = true ->
  In (root, ds, files) (walk input_dir t) -> In file files ->
  output_path_of input_dir (Some out) (join root file) w = (wo, Ok op) ->
  out <> "" ->
  exists names,
    loc_comps (join root file) = (loc_comps input_dir ++ names ++ [file])%list
    /\ loc_comps op = (loc_comps out ++ names ++ [file])%list
    /\ locate (dirname op) ∈ dirs wo.
Proof.
  intros Hplain Hin Hfile Ho Hout.
  destruct (mirrored_path_comps input_dir out t root ds files file Hplain Hout Hin Hfile)
    as (names & op' & _ & _ & Hfp & Hmir & Hop).
  apply output_path_of_inv in Ho as (_ & _ & _ & _ & Hres).
  destruct (Hres op eq_refl) as [Hmir' Hdir].
  rewrite Hmir in Hmir'. inversion Hmir'; subst op'.
  exists names. split; [exact Hfp|]. split; [exact Hop|].
  apply Hdir. unfold str_truthy. apply String.eqb_neq in Hout. now rewrite Hout.
Qed.

(** X15. With an output root that is neither the input root, nor inside it,
    nor above it, a run leaves every file of the walk as it was. *)
Theorem separate_output_root_keeps_inputs input_dir out t w w' r :
  scan w input_dir = Some t -> plain_tree t = true -> out <> "" ->
  is_prefix (loc_comps out) (loc_comps input_dir) = false ->
  is_prefix (loc_comps input_dir) (loc_comps out) = false ->
  process_dicom_directory input_dir (Some out) w = (w', r) ->
  forall root file,
    enumerated (os_walk w input_dir) root file ->
    fs w' !! locate (join root file) = fs w !! locate (join root file).
Proof.
  intros Hscan Hplain Hout Hpre1 Hpre2 Hp.
  exact (separate_roots_frame input_dir out t w w' r Hscan Hplain Hout Hpre1 Hpre2 Hp).
Qed.

End OutputTree.

(** ** Locations from components *)

Section Slashes.

Import posixpath.

Lemma startswith_cons c s c' p :
  pystr.startswith (String c s) (String c' p)
  = Ascii.eqb c' c && pystr.startswith s p.
Proof.
  unfold pystr.startswith.
  change (String.prefix (String c' p) (String c s))
    with (if ascii_dec c' c then String.prefix p s else false).
  destruct (ascii_dec c' c) as [->|Hne].
  - now rewrite Ascii.eqb_refl.
  - apply Ascii.eqb_neq in Hne. now rewrite Hne.
Qed.

Lemma startswith_nil s : pystr.startswith s "" = true.
Proof. now destruct s. Qed.

Lemma startswith_of_nil c p : pystr.startswith "" (String c p) = false.
Proof. reflexivity. Qed.

(** The leading slashes [normpath] keeps, read off the first characters. *)
Lemma initial_slashes_cons c s :
  initial_slashes (String c s)
  = if Ascii.eqb "/" c then
      match s with
      | String c2 s2 =>
          if Ascii.eqb "/" c2 then
            match s2 with
            | String c3 _ => if Ascii.eqb "/" c3 then 1 else 2
            | EmptyString => 2
            end
          else 1
      | EmptyString => 1
      end
    else 0.
Proof.
  unfold initial_slashes. rewrite !startswith_cons, startswith_nil, andb_true_r.
  destruct (Ascii.eqb "/" c); [|reflexivity]. simpl andb.
  destruct s as [|c2 s2]; [reflexivity|].
  rewrite !startswith_cons, startswith_nil, andb_true_r.
  destruct (Ascii.eqb "/" c2); [|reflexivity]. simpl andb.
  destruct s2 as [|c3 s3]; [reflexivity|].
  rewrite startswith_cons, startswith_nil, andb_true_r.
  now destruct (Ascii.eqb "/" c3).
Qed.

(** Appending something that does not begin with a slash keeps them. *)
Lemma initial_slashes_append a b :
  isabs a = true -> isabs b = false -> (b = "" -> False) ->
  initial_slashes (a +:+ b) = initial_slashes a.
Proof.
  intros Ha Hb Hne.
  destruct a as [|c a]; [discriminate Ha|].
  destruct b as [|x b]; [contradiction|].
  rewrite isabs_cons in Hb.
  assert (Hx : Ascii.eqb "/" x = false) by (rewrite Ascii.eqb_sym; exact Hb).
  rewrite append_cons, !initial_slashes_cons.
  destruct (Ascii.eqb "/" c); [|reflexivity].
  destruct a as [|c2 a]; [rewrite append_nil_l; now rewrite Hx|].
  rewrite append_cons. destruct (Ascii.eqb "/" c2); [|reflexivity].
  destruct a as [|c3 a]; [rewrite append_nil_l; now rewrite Hx|].
  now rewrite append_cons.
Qed.

Lemma initial_slashes_append_sep a b :
  isabs a = true -> pystr.endswith a "/" = false ->
  initial_slashes (a +:+ String sep b) = initial_slashes a.
Proof.
  intros Ha He.
  destruct a as [|c a]; [discriminate Ha|].
  rewrite append_cons, !initial_slashes_cons.
  destruct (Ascii.eqb "/" c) eqn:Hc; [|reflexivity].
  destruct a as [|c2 a].
  { exfalso. apply Ascii.eqb_eq in Hc. subst c. discriminate He. }
  rewrite append_cons. destruct (Ascii.eqb "/" c2) eqn:Hc2; [|reflexivity].
  destruct a as [|c3 a].
  { exfalso. apply Ascii.eqb_eq in Hc2. subst c2.
    assert (Hend : pystr.endswith (String c "/") "/" = true)
      by (apply endswith_spec; now exists (String c "")).
    congruence. }
  now rewrite append_cons.
Qed.

Lemma initial_slashes_join a d :
  isabs a = true -> plain_name d = true ->
  initial_slashes (join a d) = initial_slashes a.
Proof.
  intros Ha Hd. destruct (plain_name_spec d Hd) as (Hne & _ & _ & Hsep).
  assert (Hdabs : isabs d = false) by now apply no_sep_not_abs.
  rewrite join_not_abs by exact Hdabs.
  destruct (String.eqb a "") eqn:Hempty.
  { apply String.eqb_eq in Hempty. subst a. discriminate Ha. }
  simpl orb. destruct (pystr.endswith a "/") eqn:He.
  - now apply initial_slashes_append.
  - change ("/" +:+ d) with (String sep d). now apply initial_slashes_append_sep.
Qed.

(** A normal absolute path is its leading slashes and its components. *)
Lemma normpath_abs_eq s :
  isabs s = true ->
  normpath s
  = (if Nat.eqb (initial_slashes s) 2 then "//" else "/")
    +:+ String.concat "/" (nonempty_comps (normpath s)).
Proof.
  intros Ha. rewrite (nonempty_comps_normpath s Ha). unfold normpath.
  destruct (String.eqb s "") eqn:Hs.
  { apply String.eqb_eq in Hs. subst s. discriminate. }
  destruct (initial_slashes_abs s Ha) as [Hn|Hn]; rewrite Hn.
  - reflexivity.
  - rewrite (norm_comps_abs 2) by discriminate. reflexivity.
Qed.

End Slashes.

Section DistinctOutputs.

Context `{Externals}.
Import posixpath.

Lemma locate_eq p :
  locate p
  = (if Nat.eqb (initial_slashes (absolute p)) 2 then "//" else "/")
    +:+ String.concat "/" (loc_comps p).
Proof. unfold loc_comps. rewrite locate_absolute. apply normpath_abs_eq, absolute_isabs. Qed.

(** The roots of a walk begin with as many slashes as its top. *)
Lemma walk_slashes t :
  forall top root ds files,
    plain_tree t = true ->
    In (root, ds, files) (walk top t) ->
    initial_slashes (absolute root) = initial_slashes (absolute top).
Proof.
  induction t using DirTree_ind2 with
    (P0 := fun f => forall top root ds files,
               plain_forest f = true ->
               In (root, ds, files) (walk_all top f) ->
               initial_slashes (absolute root) = initial_slashes (absolute top)).
  - intros top root ds fl Hp Hin. simpl in Hp. apply andb_true_iff in Hp as [Hf _].
    simpl in Hin. destruct Hin as [Heq|Hin].
    + now inversion Heq.
    + exact (IHt top root ds fl Hf Hin).
  - intros top root ds fl _ [].
  - intros top root ds fl Hp Hin. simpl in Hp.
    apply andb_true_iff in Hp as [Hp Hrest]. apply andb_true_iff in Hp as [Hname Ht].
    simpl in Hin. apply in_app_or in Hin as [Hin|Hin].
    + rewrite (IHt (join top name) root ds fl Ht Hin).
      rewrite absolute_join by exact Hname.
      apply initial_slashes_join; [apply absolute_isabs|exact Hname].
    + exact (IHt0 top root ds fl Hrest Hin).
Qed.

(** Two files of a walk at the same place below the input root are one
    file. *)
Lemma walk_location_inj input_dir t root1 ds1 files1 file1 root2 ds2 files2 file2 :
  plain_tree t = true ->
  In (root1, ds1, files1) (walk input_dir t) -> In file1 files1 ->
  In (root2, ds2, files2) (walk input_dir t) -> In file2 files2 ->
  loc_comps (join root1 file1) = loc_comps (join root2 file2) ->
  locate (join root1 file1) = locate (join root2 file2).
Proof.
  intros Hplain Hin1 Hf1 Hin2 Hf2 Hcomps.
  assert (Hsl : forall root ds files file,
             In (root, ds, files) (walk input_dir t) -> In file files ->
             initial_slashes (absolute (join root file))
             = initial_slashes (absolute input_dir)).
  { intros root ds files file Hin Hf.
    destruct (walk_roots t _ _ _ _ Hplain Hin) as [_ Hfiles].
    assert (Hpl : plain_name file = true).
    { unfold all_plain in Hfiles. rewrite Forall_forall in Hfiles.
      apply Hfiles. now apply list_elem_of_In. }
    rewrite absolute_join by exact Hpl.
    rewrite initial_slashes_join by (apply absolute_isabs || exact Hpl).
    exact (walk_slashes t _ _ _ _ Hplain Hin). }
  rewrite (locate_eq (join root1 file1)), (locate_eq (join root2 file2)).
  now rewrite (Hsl _ _ _ _ Hin1 Hf1), (Hsl _ _ _ _ Hin2 Hf2), Hcomps.
Qed.

(** X16. No two files of a walk share an output: the outputs computed for two
    files of the walk at different locations are at different
    locations. *)
Theorem distinct_files_distinct_outputs input_dir output_dir t
        root1 ds1 files1 file1 root2 ds2 files2 file2 w1 wo1 op1 w2 wo2 op2 :
  plain_tree t = true ->
  In (root1, ds1, files1) (walk input_dir t) -> In file1 files1 ->
  In (root2, ds2, files2) (walk input_dir t) -> In file2 files2 ->
  output_path_of input_dir output_dir (join root1 file1) w1 = (wo1, Ok op1) ->
  output_path_of input_dir output_dir (join root2 file2) w2 = (wo2, Ok op2) ->
  locate (join root1 file1) <> locate (join root2 file2) ->
  locate op1 <> locate op2.
Proof.
  intros Hplain Hin1 Hf1 Hin2 Hf2 Ho1 Ho2 Hdiff Heq. apply Hdiff.
  apply output_path_of_inv in Ho1 as (_ & _ & _ & Hplace1 & Hres1).
  apply output_path_of_inv in Ho2 as (_ & _ & _ & Hplace2 & Hres2).
  destruct (str_truthy output_dir) eqn:Ht.
  2:{ destruct (Hplace1 eq_refl) as [_ Hr1]. destruct (Hplace2 eq_refl) as [_ Hr2].
      inversion Hr1; inversion Hr2; subst. exact Heq. }
  destruct output_dir as [out|]; [|discriminate Ht].
  assert (Hout : out <> "") by (intros ->; discriminate Ht).
  destruct (Hres1 op1 eq_refl) as [Hmir1 _]. destruct (Hres2 op2 eq_refl) as [Hmir2 _].
  destruct (mirrored_path_comps input_dir out t _ _ _ _ Hplain Hout Hin1 Hf1)
    as (names1 & op1' & _ & _ & Hfp1 & Hm1 & Hop1).
  destruct (mirrored_path_comps input_dir out t _ _ _ _ Hplain Hout Hin2 Hf2)
    as (names2 & op2' & _ & _ & Hfp2 & Hm2 & Hop2).
  rewrite Hm1 in Hmir1. rewrite Hm2 in Hmir2.
  inversion Hmir1; inversion Hmir2; subst op1' op2'.
  apply (walk_location_inj input_dir t _ _ _ _ _ _ _ _ Hplain Hin1 Hf1 Hin2 Hf2).
  rewrite Hfp1, Hfp2. f_equal.
  assert (Hc : loc_comps op1 = loc_comps op2) by (unfold loc_comps; now rewrite Heq).
  rewrite Hop1, Hop2 in Hc. now apply app_inv_head in Hc.
Qed.

End DistinctOutputs.

Section SameRoot.

Context `{Externals}.
Import posixpath.

Lemma slashes_join_concat names :
  forall a f,
    all_plain names -> plain_name f = true ->
    initial_slashes (absolute (join a (String.concat "/" (names ++ [f]))))
    = initial_slashes (absolute a).
Proof.
  induction names as [|x names IH]; intros a f Hall Hf.
  - simpl. rewrite absolute_join by exact Hf.
    apply initial_slashes_join; [apply absolute_isabs|exact Hf].
  - inversion Hall as [|? ? Hx Hrest]; subst.
    assert (Hall' : all_plain (names ++ [f])%list).
    { apply Forall_app. split; [exact Hrest|now constructor]. }
    assert (Hne : (names ++ [f])%list <> []) by now destruct names.
    change ((x :: names) ++ [f])%list with (x :: (names ++ [f]))%list.
    rewrite concat_cons_join by assumption.
    rewrite join_join.
    + rewrite IH by assumption. rewrite absolute_join by exact Hx.
      apply initial_slashes_join; [apply absolute_isabs|exact Hx].
    + now apply plain_name_spec.
    + now apply plain_not_abs.
    + now apply concat_not_abs.
Qed.

(** X17. Joining the relative path of a file of the walk back to the input
    root leads to the file: with the input root given as output root the
    output of every file is the file itself, as in a run in place. *)
Theorem same_root_is_in_place input_dir t root ds files file w wo op :
  plain_tree t = true ->
  In (root, ds, files) (walk input_dir t) -> In file files ->
  input_dir <> "" ->
  output_path_of input_dir (Some input_dir) (join root file) w = (wo, Ok op) ->
  exists rel,
    relpath getcwd (join root file) input_dir = Some rel
    /\ op = join input_dir rel
    /\ locate op = locate (join root file).
Proof.
  intros Hplain Hin Hfile Hne Ho.
  destruct (walk_roots t _ _ _ _ Hplain Hin) as [(names & Hroot & Hnames) Hfiles].
  assert (Hf : plain_name file = true).
  { unfold all_plain in Hfiles. rewrite Forall_forall in Hfiles.
    apply Hfiles. now apply list_elem_of_In. }
  assert (Hfp : loc_comps (join root file) = (loc_comps input_dir ++ names ++ [file])%list).
  { rewrite loc_comps_join, Hroot by exact Hf. now rewrite <- app_assoc. }
  assert (Hrel : relpath getcwd (join root file) input_dir
                 = Some (String.concat "/" (names ++ [file]))).
  { apply relpath_under; [|exact Hfp]. apply join_nonempty. now apply plain_name_spec. }
  apply output_path_of_inv in Ho as (_ & _ & _ & _ & Hres).
  destruct (Hres op eq_refl) as [Hmir _].
  unfold mirrored_path, str_truthy in Hmir.
  apply String.eqb_neq in Hne. rewrite Hne, Hrel in Hmir. simpl in Hmir.
  inversion Hmir; subst op; clear Hmir.
  exists (String.concat "/" (names ++ [file])).
  split; [exact Hrel|]. split; [reflexivity|].
  rewrite (locate_eq (join root file)), (locate_eq (join input_dir _)).
  rewrite slashes_join_concat, loc_comps_join_concat, Hfp by assumption.
  rewrite absolute_join by exact Hf.
  rewrite initial_slashes_join by (apply absolute_isabs || exact Hf).
  now rewrite (walk_slashes t _ _ _ _ Hplain Hin).
Qed.

End SameRoot.

(** ** More of the sample run *)

Section MoreExamples.

#[local] Existing Instance Sample.externals.

(** Without [-v] the run over [scan] shows two lines: the conversion that
    failed and the file that could not be read. *)
Example scenario_quiet_console :
  let run := main "scan" None false Sample.world in
  run.2 = Ok tt
  /\ console false Sample.world run.1
     = [(ERROR, "Failed to decompress file scan/bad.dcm: int() argument must be a string or a real number");
        (ERROR, "Error reading file scan/broken.dcm: File is missing DICOM File Meta Information header")].
Proof. intros run. repeat apply conj; vm_compute; reflexivity. Qed.

(** The output root is made even when the input root cannot be listed. *)
Example scenario_empty_walk :
  let run := main "nowhere" (Some "out") false Sample.world in
  run.2 = Ok tt /\ "/work/out" ∈ dirs run.1 /\ calls run.1 = [].
Proof.
  intros run. split; [vm_compute; reflexivity|]. split; [|vm_compute; reflexivity].
  assert (Hd : bool_decide ("/work/out" ∈ dirs run.1) = true) by (vm_compute; reflexivity).
  now apply bool_decide_eq_true in Hd.
Qed.

End MoreExamples.

Section FaultyExamples.

#[local] Existing Instance Faulty.externals.

(** A write that breaks off in a run in place: the header and the
    elements before the pixel data have replaced the compressed original,
    and a second run takes the file for an uncompressed one. *)
Example scenario_write_breaks_off :
  let run := process_dicom_directory "full" None Faulty.world in
  let again := process_dicom_directory "full" None run.1 in
  run.2 = Ok tt
  /\ field_at Faulty.world "/work/full/x.dcm" PixelData
     = Some (VBytes [Byte.xff; Byte.xd8])
  /\ field_at run.1 "/work/full/x.dcm" PixelData = None
  /\ field_at run.1 "/work/full/x.dcm" SeriesInstanceUID = Some (VStr "6.6")
  /\ log run.1
     = [(DEBUG, "Compressed file found: full/x.dcm");
        (ERROR, "Failed to decompress file full/x.dcm: [Errno 28] No space left on device")]
  /\ calls again.1 = calls run.1
  /\ last (log again.1) = Some (DEBUG, "File is already uncompressed: full/x.dcm").
Proof. intros run again. repeat apply conj; vm_compute; reflexivity. Qed.

(** An output root above the input root: the output of
    [d/sub/sub/a.dcm] is [d/sub/a.dcm], a file of the walk. *)
Example scenario_output_root_above :
  let run := process_dicom_directory "d/sub" (Some "d") Faulty.world in
  run.2 = Ok tt
  /\ is_prefix (loc_comps "d") (loc_comps "d/sub") = true
  /\ field_at Faulty.world "/work/d/sub/a.dcm" SeriesInstanceUID = Some (VStr "4.4")
  /\ field_at run.1 "/work/d/sub/a.dcm" SeriesInstanceUID = Some (VStr "8.8").
Proof. intros run. repeat apply conj; vm_compute; reflexivity. Qed.


(** A directory that cannot be made ends the run at the first compressed
    file. *)
Example scenario_denied :
  let run := process_dicom_directory "in" (Some "ro/out") Faulty.world in
  run.2 = Raise Faulty.denied
  /\ calls run.1 = []
  /\ log run.1 = [(DEBUG, "Compressed file found: in/a.dcm")].
Proof. intros run. repeat apply conj; vm_compute; reflexivity. Qed.

End FaultyExamples.

(** ** The further properties at work on the sample run *)

Section MoreWitnesses.

#[local] Existing Instance Sample.externals.

Lemma in_place_run_returns_witness :
  str_truthy None = false
  /\ (process_dicom_directory "scan" None Sample.world).2 = Ok tt.
Proof.
  split; [reflexivity|].
  exact (in_place_run_returns "scan" None Sample.world eq_refl).
Defined.

Lemma run_never_compresses_witness :
  let input_dir := "scan" in
  let output_dir := @None string in
  let w := Sample.world in
  let w' := (process_dicom_directory input_dir output_dir w).1 in
  let r := (process_dicom_directory input_dir output_dir w).2 in
  process_dicom_directory input_dir output_dir w = (w', r)
  /\ forall loc, compressed_at w' loc -> compressed_at w loc.
Proof.
  intros input_dir output_dir w w' r.
  assert (Hrun : process_dicom_directory input_dir output_dir w = (w', r))
    by (vm_compute; reflexivity).
  split; [exact Hrun|].
  exact (run_never_compresses input_dir output_dir w w' r Hrun).
Defined.

Lemma clean_in_place_run_converts_all_witness :
  let input_dir := "in" in
  let output_dir := @None string in
  let w := Sample.world in
  let w' := (process_dicom_directory input_dir output_dir w).1 in
  let r := (process_dicom_directory input_dir output_dir w).2 in
  (str_truthy output_dir = false
   /\ process_dicom_directory input_dir output_dir w = (w', r)
   /\ forallb (fun x => negb (is_error x)) (records_since w w') = true)
  /\ (forall root file,
        enumerated (os_walk w input_dir) root file ->
        matches (posixpath.join root file) = true ->
        ~ compressed_at w' (locate (posixpath.join root file)))
  /\ (forall w'' r',
        scan w' input_dir = scan w input_dir ->
        process_dicom_directory input_dir output_dir w' = (w'', r') ->
        r' = Ok tt /\ fs w'' = fs w' /\ calls w'' = calls w').
Proof.
  intros input_dir output_dir w w' r.
  assert (Hout : str_truthy output_dir = false) by reflexivity.
  assert (Hrun : process_dicom_directory input_dir output_dir w = (w', r))
    by (vm_compute; reflexivity).
  assert (Hclean : forallb (fun x => negb (is_error x)) (records_since w w') = true)
    by (vm_compute; reflexivity).
  split; [auto|].
  exact (clean_in_place_run_converts_all input_dir output_dir w w' r Hout Hrun Hclean).
Defined.

Lemma calls_follow_walk_order_witness :
  let input_dir := "in" in
  let output_dir := Some "out" in
  let w := Sample.world in
  let w' := (process_dicom_directory input_dir output_dir w).1 in
  let r := (process_dicom_directory input_dir output_dir w).2 in
  process_dicom_directory input_dir output_dir w = (w', r)
  /\ exists cs,
       calls w' = (calls w ++ cs)%list
       /\ List.map call_file_path cs
          `sublist_of` List.map (fun p => posixpath.join p.1 p.2)
                         (pairs_of (os_walk w input_dir))
       /\ Forall (fun c => call_reference c = None) cs.
Proof.
  intros input_dir output_dir w w' r.
  assert (Hrun : process_dicom_directory input_dir output_dir w = (w', r))
    by (vm_compute; reflexivity).
  split; [exact Hrun|].
  exact (calls_follow_walk_order input_dir output_dir w w' r Hrun).
Defined.

Lemma main_output_root_witness :
  let input_dir := "in" in
  let out := "out" in
  let w := Sample.world in
  let w' := (main input_dir (Some out) false w).1 in
  let r := (main input_dir (Some out) false w).2 in
  (out <> "" /\ main input_dir (Some out) false w = (w', r))
  /\ (r = Ok tt -> exists_at w' (locate out))
  /\ (forall e, ~ exists_at w (locate out) -> makedirs_fault w out = Some e ->
        r = Raise e /\ w' = w).
Proof.
  intros input_dir out w w' r.
  assert (Hne : out <> "") by discriminate.
  assert (Hrun : main input_dir (Some out) false w = (w', r))
    by (vm_compute; reflexivity).
  split; [auto|].
  exact (main_output_root input_dir out false w w' r Hne Hrun).
Defined.

Lemma main_console_witness :
  let input_dir := "scan" in
  let output_dir := @None string in
  let verbose := false in
  let w := Sample.world in
  let w' := (main input_dir output_dir verbose w).1 in
  let r := (main input_dir output_dir verbose w).2 in
  main input_dir output_dir verbose w = (w', r)
  /\ log w' = (log w ++ records_since w w')%list
  /\ (exists w1,
        fs w1 = fs w
        /\ Forall (fun rec => exists root file,
                     enumerated (os_walk w1 input_dir) root file
                     /\ matches (posixpath.join root file) = true
                     /\ walker_record (posixpath.join root file) rec)
             (records_since w w'))
  /\ console verbose w w'
     = (if verbose then records_since w w'
        else List.filter is_error (records_since w w'))
  /\ Forall (fun rec => exists fp e,
               rec = (ERROR, read_error_message fp e)
               \/ rec = (ERROR, failure_message fp e))
       (console false w w').
Proof.
  intros input_dir output_dir verbose w w' r.
  assert (Hrun : main input_dir output_dir verbose w = (w', r))
    by (vm_compute; reflexivity).
  split; [exact Hrun|].
  exact (main_console input_dir output_dir verbose w w' r Hrun).
Defined.

Lemma conversion_keeps_other_metadata_witness :
  let fp := "in/a.dcm" in
  let op := "out/a.dcm" in
  let ref := Some Sample.reference in
  let w := Sample.world in
  let w' := (decompress_and_save_with_metadata fp op ref w).1 in
  let r := Sample.returned (decompress_and_save_with_metadata fp op ref w).2 in
  decompress_and_save_with_metadata fp op ref w = (w', Ok (Some r))
  /\ exists ds0 ds',
       fs w !! locate fp = Some (DicomFile ds0)
       /\ fs w' !! locate op = Some (DicomFile ds')
       /\ (forall t : Tag, t <> tag_for_keyword TransferSyntaxUID ->
             file_meta ds' !! t = file_meta ds0 !! t)
       /\ (forall t : Tag,
             t <> tag_for_keyword PixelData -> t <> tag_for_keyword InstanceNumber ->
             (ref_truthy ref = true ->
              forall k, In k series_fields -> t <> tag_for_keyword k) ->
             elements ds' !! t = elements ds0 !! t)
       /\ (forall loc, loc <> locate op -> fs w' !! loc = fs w !! loc)
       /\ dirs w' = dirs w.
Proof.
  intros fp op ref w w' r.
  assert (Hrun : decompress_and_save_with_metadata fp op ref w = (w', Ok (Some r)))
    by (vm_compute; reflexivity).
  split; [exact Hrun|].
  exact (conversion_keeps_other_metadata fp op ref w w' r Hrun).
Defined.

Lemma chained_conversions_share_series_witness :
  let w := Sample.world in
  let first := decompress_and_save_with_metadata "scan/s1.dcm" "out/s1.dcm" None w in
  let w1 := first.1 in
  let r1 := Sample.returned first.2 in
  let second := decompress_and_save_with_metadata "scan/s2.dcm" "out/s2.dcm" (Some r1) w1 in
  let w2 := second.1 in
  let r2 := Sample.returned second.2 in
  (decompress_and_save_with_metadata "scan/s1.dcm" "out/s1.dcm" None w = (w1, Ok (Some r1))
   /\ decompress_and_save_with_metadata "scan/s2.dcm" "out/s2.dcm" (Some r1) w1
      = (w2, Ok (Some r2)))
  /\ r2 = r1
  /\ fs w1 !! locate "out/s1.dcm" = Some (DicomFile r1)
  /\ exists ds2,
       fs w2 !! locate "out/s2.dcm" = Some (DicomFile ds2)
       /\ forall k, In k series_fields ->
            exists v, getattr (elements r1) k = Ok v /\ getattr (elements ds2) k = Ok v.
Proof.
  intros w first w1 r1 second w2 r2.
  assert (Hrun1 : decompress_and_save_with_metadata "scan/s1.dcm" "out/s1.dcm" None w
                  = (w1, Ok (Some r1))) by (vm_compute; reflexivity).
  assert (Hrun2 : decompress_and_save_with_metadata "scan/s2.dcm" "out/s2.dcm" (Some r1) w1
                  = (w2, Ok (Some r2))) by (vm_compute; reflexivity).
  split; [auto|].
  exact (chained_conversions_share_series _ _ _ _ w w1 w2 r1 r2 Hrun1 Hrun2).
Defined.

Lemma unreadable_file_logged_as_uncompressed_witness :
  let input_dir := "scan" in
  let output_dir := @None string in
  let root := "scan" in
  let file := "broken.dcm" in
  let w := Sample.world in
  let fp := posixpath.join root file in
  (matches fp = true
   /\ forall ds v, fs w !! locate fp = Some (DicomFile ds) ->
                   getattr (file_meta ds) TransferSyntaxUID <> Ok v)
  /\ exists e,
       process_file input_dir output_dir root file w
       = (log_to (log_to w ERROR (read_error_message fp e))
            DEBUG ("File is already uncompressed: " +:+ fp), Ok tt).
Proof.
  intros input_dir output_dir root file w fp.
  assert (Hm : matches fp = true) by (vm_compute; reflexivity).
  assert (Hbad : forall ds v, fs w !! locate fp = Some (DicomFile ds) ->
                              getattr (file_meta ds) TransferSyntaxUID <> Ok v).
  { intros ds v Hfs. vm_compute in Hfs. discriminate Hfs. }
  split; [auto|].
  exact (unreadable_file_logged_as_uncompressed input_dir output_dir root file w Hm Hbad).
Defined.

Lemma output_mirrors_input_tree_witness :
  let input_dir := "in" in
  let out := "out" in
  let t := Dir (SubDir "series1" (Dir NoDir ["img1.dcm"]) NoDir) ["a.dcm"; "b.txt"] in
  let root := "in/series1" in
  let file := "img1.dcm" in
  let w := Sample.world in
  let wo := (output_path_of input_dir (Some out) (posixpath.join root file) w).1 in
  let op := "out/series1/img1.dcm" in
  (plain_tree t = true
   /\ In (root, [], [file]) (walk input_dir t) /\ In file [file]
   /\ output_path_of input_dir (Some out) (posixpath.join root file) w = (wo, Ok op)
   /\ out <> "")
  /\ exists names,
       loc_comps (posixpath.join root file) = (loc_comps input_dir ++ names ++ [file])%list
       /\ loc_comps op = (loc_comps out ++ names ++ [file])%list
       /\ locate (posixpath.dirname op) ∈ dirs wo.
Proof.
  intros input_dir out t root file w wo op.
  assert (Hplain : plain_tree t = true) by reflexivity.
  assert (Hin : In (root, [], [file]) (walk input_dir t)) by (right; left; reflexivity).
  assert (Hfile : In file [file]) by (left; reflexivity).
  assert (Hrun : output_path_of input_dir (Some out) (posixpath.join root file) w
                 = (wo, Ok op)) by (vm_compute; reflexivity).
  assert (Hne : out <> "") by discriminate.
  split; [auto 6|].
  exact (output_mirrors_input_tree input_dir out t root [] [file] file w wo op
           Hplain Hin Hfile Hrun Hne).
Defined.

Lemma separate_output_root_keeps_inputs_witness :
  let input_dir := "in" in
  let out := "out" in
  let t := Dir (SubDir "series1" (Dir NoDir ["img1.dcm"]) NoDir) ["a.dcm"; "b.txt"] in
  let w := Sample.world in
  let w' := (process_dicom_directory input_dir (Some out) w).1 in
  let r := (process_dicom_directory input_dir (Some out) w).2 in
  (scan w input_dir = Some t /\ plain_tree t = true /\ out <> ""
   /\ is_prefix (loc_comps out) (loc_comps input_dir) = false
   /\ is_prefix (loc_comps input_dir) (loc_comps out) = false
   /\ process_dicom_directory input_dir (Some out) w = (w', r))
  /\ forall root file,
       enumerated (os_walk w input_dir) root file ->
       fs w' !! locate (posixpath.join root file) = fs w !! locate (posixpath.join root file).
Proof.
  intros input_dir out t w w' r.
  assert (Hscan : scan w input_dir = Some t) by reflexivity.
  assert (Hplain : plain_tree t = true) by reflexivity.
  assert (Hne : out <> "") by discriminate.
  assert (Hp1 : is_prefix (loc_comps out) (loc_comps input_dir) = false)
    by (vm_compute; reflexivity).
  assert (Hp2 : is_prefix (loc_comps input_dir) (loc_comps out) = false)
    by (vm_compute; reflexivity).
  assert (Hrun : process_dicom_directory input_dir (Some out) w = (w', r))
    by (vm_compute; reflexivity).
  split; [auto 7|].
  exact (separate_output_root_keeps_inputs input_dir out t w w' r
           Hscan Hplain Hne Hp1 Hp2 Hrun).
Defined.

Lemma distinct_files_distinct_outputs_witness :
  let input_dir := "in" in
  let output_dir := Some "out" in
  let t := Dir (SubDir "series1" (Dir NoDir ["img1.dcm"]) NoDir) ["a.dcm"; "b.txt"] in
  let w := Sample.world in
  let wo1 := (output_path_of input_dir output_dir (posixpath.join "in" "a.dcm") w).1 in
  let wo2 := (output_path_of input_dir output_dir
                (posixpath.join "in/series1" "img1.dcm") w).1 in
  (plain_tree t = true
   /\ In ("in", ["series1"], ["a.dcm"; "b.txt"]) (walk input_dir t)
   /\ In "a.dcm" ["a.dcm"; "b.txt"]
   /\ In ("in/series1", [], ["img1.dcm"]) (walk input_dir t)
   /\ In "img1.dcm" ["img1.dcm"]
   /\ output_path_of input_dir output_dir (posixpath.join "in" "a.dcm") w
      = (wo1, Ok "out/a.dcm")
   /\ output_path_of input_dir output_dir (posixpath.join "in/series1" "img1.dcm") w
      = (wo2, Ok "out/series1/img1.dcm")
   /\ locate (posixpath.join "in" "a.dcm")
      <> locate (posixpath.join "in/series1" "img1.dcm"))
  /\ locate "out/a.dcm" <> locate "out/series1/img1.dcm".
Proof.
  intros input_dir output_dir t w wo1 wo2.
  assert (Hplain : plain_tree t = true) by reflexivity.
  assert (Hin1 : In ("in", ["series1"], ["a.dcm"; "b.txt"]) (walk input_dir t))
    by (left; reflexivity).
  assert (Hf1 : In "a.dcm" ["a.dcm"; "b.txt"]) by (left; reflexivity).
  assert (Hin2 : In ("in/series1", [], ["img1.dcm"]) (walk input_dir t))
    by (right; left; reflexivity).
  assert (Hf2 : In "img1.dcm" ["img1.dcm"]) by (left; reflexivity).
  assert (Ho1 : output_path_of input_dir output_dir (posixpath.join "in" "a.dcm") w
                = (wo1, Ok "out/a.dcm")) by (vm_compute; reflexivity).
  assert (Ho2 : output_path_of input_dir output_dir
                  (posixpath.join "in/series1" "img1.dcm") w
                = (wo2, Ok "out/series1/img1.dcm")) by (vm_compute; reflexivity).
  assert (Hdiff : locate (posixpath.join "in" "a.dcm")
                  <> locate (posixpath.join "in/series1" "img1.dcm"))
    by (vm_compute; discriminate).
  split; [auto 9|].
  exact (distinct_files_distinct_outputs input_dir output_dir t _ _ _ _ _ _ _ _
           w wo1 "out/a.dcm" w wo2 "out/series1/img1.dcm"
           Hplain Hin1 Hf1 Hin2 Hf2 Ho1 Ho2 Hdiff).
Defined.

Lemma same_root_is_in_place_witness :
  let input_dir := "in" in
  let t := Dir (SubDir "series1" (Dir NoDir ["img1.dcm"]) NoDir) ["a.dcm"; "b.txt"] in
  let root := "in/series1" in
  let file := "img1.dcm" in
  let w := Sample.world in
  let wo := (output_path_of input_dir (Some input_dir) (posixpath.join root file) w).1 in
  let op := "in/series1/img1.dcm" in
  (plain_tree t = true
   /\ In (root, [], [file]) (walk input_dir t) /\ In file [file]
   /\ input_dir <> ""
   /\ output_path_of input_dir (Some input_dir) (posixpath.join root file) w = (wo, Ok op))
  /\ exists rel,
       posixpath.relpath getcwd (posixpath.join root file) input_dir = Some rel
       /\ op = posixpath.join input_dir rel
       /\ locate op = locate (posixpath.join root file).
Proof.
  intros input_dir t root file w wo op.
  assert (Hplain : plain_tree t = true) by reflexivity.
  assert (Hin : In (root, [], [file]) (walk input_dir t)) by (right; left; reflexivity).
  assert (Hfile : In file [file]) by (left; reflexivity).
  assert (Hne : input_dir <> "") by discriminate.
  assert (Hrun : output_path_of input_dir (Some input_dir) (posixpath.join root file) w
                 = (wo, Ok op)) by (vm_compute; reflexivity).
  split; [auto 6|].
  exact (same_root_is_in_place input_dir t root [] [file] file w wo op
           Hplain Hin Hfile Hne Hrun).
Defined.

End MoreWitnesses.

(** ** And on the run where things go wrong *)

Section FaultyWitnesses.

#[local] Existing Instance Faulty.externals.

Lemma run_raises_only_from_makedirs_witness :
  let input_dir := "in" in
  let output_dir := Some "ro/out" in
  let w := Faulty.world in
  let w' := (process_dicom_directory input_dir output_dir w).1 in
  let e := Faulty.denied in
  process_dicom_directory input_dir output_dir w = (w', Raise e)
  /\ exists out root file rel,
       output_dir = Some out /\ out <> ""
       /\ enumerated (os_walk w input_dir) root file
       /\ matches (posixpath.join root file) = true
       /\ compressed_at w (locate (posixpath.join root file))
       /\ posixpath.relpath getcwd (posixpath.join root file) input_dir = Some rel
       /\ makedirs_fault w' (posixpath.dirname (posixpath.join out rel)) = Some e
       /\ last (log w')
          = Some (DEBUG, "Compressed file found: " +:+ posixpath.join root file).
Proof.
  intros input_dir output_dir w w' e.
  assert (Hrun : process_dicom_directory input_dir output_dir w = (w', Raise e))
    by (vm_compute; reflexivity).
  split; [exact Hrun|].
  exact (run_raises_only_from_makedirs input_dir output_dir w w' e Hrun).
Defined.

Lemma nothing_compressed_nothing_written_witness :
  let input_dir := "done" in
  let output_dir := Some "out" in
  let w := Faulty.world in
  let w' := (process_dicom_directory input_dir output_dir w).1 in
  let r := (process_dicom_directory input_dir output_dir w).2 in
  ((forall root file,
      enumerated (os_walk w input_dir) root file ->
      matches (posixpath.join root file) = true ->
      ~ compressed_at w (locate (posixpath.join root file)))
   /\ process_dicom_directory input_dir output_dir w = (w', r))
  /\ r = Ok tt /\ fs w' = fs w /\ calls w' = calls w /\ dirs w' = dirs w.
Proof.
  intros input_dir output_dir w w' r.
  assert (Hidle : forall root file,
             enumerated (os_walk w input_dir) root file ->
             matches (posixpath.join root file) = true ->
             ~ compressed_at w (locate (posixpath.join root file))).
  { intros root file (ds & files & Hin & Hf) Hm (d & uid & Hfs & Hv & Huid).
    destruct Hin as [Heq|[]]. inversion Heq; subst root ds files; clear Heq.
    destruct Hf as [<-|[<-|[<-|[]]]].
    - vm_compute in Hfs. inversion Hfs; subst d; clear Hfs.
      vm_compute in Hv. inversion Hv; subst uid; clear Hv.
      vm_compute in Huid. intuition discriminate.
    - vm_compute in Hm. discriminate Hm.
    - vm_compute in Hfs. discriminate Hfs. }
  assert (Hrun : process_dicom_directory input_dir output_dir w = (w', r))
    by (vm_compute; reflexivity).
  split; [auto|].
  exact (nothing_compressed_nothing_written input_dir output_dir w w' r Hidle Hrun).
Defined.


Lemma incomplete_reference_fails_witness :
  let fp := "in/a.dcm" in
  let op := "out/a.dcm" in
  let given := Faulty.partial_reference in
  let k := StudyInstanceUID in
  let w := Faulty.world in
  (truthy given = true /\ In k series_fields /\ contains (elements given) k = false)
  /\ exists w',
       decompress_and_save_with_metadata fp op (Some given) w = (w', Ok None)
       /\ fs w' = fs w.
Proof.
  intros fp op given k w.
  assert (Ht : truthy given = true) by (vm_compute; reflexivity).
  assert (Hk : In k series_fields) by (right; left; reflexivity).
  assert (Hmiss : contains (elements given) k = false) by (vm_compute; reflexivity).
  split; [auto|].
  exact (incomplete_reference_fails fp op given k w Ht Hk Hmiss).
Defined.

End FaultyWitnesses.
